(** * Latency sweep: loader, constraint and scoring engine, comparator,
      health gate and collection loop.

    Shallow embedding of
      infra/latency-sweep/orchestrate/analyze.py
      infra/latency-sweep/orchestrate/run_sweep.py

    Conventions of the embedding.
    - Python [int] is [Z].  Python [float] is an exact rational [Q]; the two
      special floats the code can produce are explicit: positive infinity
      ([PosInf]) and not-a-number ([NaN], or [None] where only a median can
      be one).  IEEE rounding is not modelled.
    - A Python exception is a value [Raise e] of the result type.
    - A dict used as an ordered map (the [metrics] dict of [load_results],
      whose [values()] order feeds a stable sort) is an association list in
      insertion order.
    - Fields of a JSON object read with [.get(k, default)] are [option]s;
      leaves are taken at the types the dataclasses declare, and a [cv]
      leaf is a finite float: a log in which a [cv] is one of the literals
      [json.loads] reads as an infinity or as nan is not among the logs
      described here.  An object a probe answers with is described by the
      two entries the analyzer reads and the keys of its other entries.
    - Calls into numpy's random generator and scipy are parameters.
    - What a function prints is kept where statements need it: as the list
      of the values each [print] call formats.
    - Clocks, HTTP requests, subprocesses and the path arithmetic of the
      platform are read from a record that describes the world the
      function runs in; a loop whose length depends on the clock takes
      fuel and returns [None] when it runs out. *)

From Stdlib Require Import String DecimalString.
From Stdlib Require Import ZArith QArith Qround Lia Lqa Bool List.
From Stdlib Require Import Permutation Sorted.
Import ListNotations.
Local Open Scope Z_scope.

(** ** Python values shared by both scripts *)

Inductive PyExn : Type :=
| KeyError (key : string)
| TypeError (msg : string)
| SystemExit (code : Z).

Inductive Result (A : Type) : Type :=
| Ok (a : A)
| Raise (e : PyExn).
Arguments Ok {A} a.
Arguments Raise {A} e.

Definition bind {A B : Type} (r : Result A) (k : A -> Result B) : Result B :=
  match r with
  | Ok a => k a
  | Raise e => Raise e
  end.

Notation "x <- r ;; k" := (bind r (fun x => k))
  (at level 61, r at next level, right associativity).

(** [d[k]] on a dict whose entry may be missing. *)
Definition getitem {A : Type} (k : string) (entry : option A) : Result A :=
  match entry with
  | Some a => Ok a
  | None => Raise (KeyError k)
  end.

(** [d.get(k, default)]. *)
Definition dict_get {A : Type} (entry : option A) (default : A) : A :=
  match entry with
  | Some a => a
  | None => default
  end.

(** Python floats that may be infinite or not a number. *)
Inductive PyFloat : Type :=
| Fin (q : Q)
| PosInf
| NaN.

Definition Qlt_bool (x y : Q) : bool := negb (Qle_bool y x).

(** [int(x)] on a finite float: truncation toward zero. *)
Definition py_int (q : Q) : Z :=
  if Qlt_bool q 0 then Qceiling q else Qfloor q.

Module Analyze.

(** *** The metrics payload of a log record *)

Record Aggregate : Type := {
  count : option Z;
  p50_us : option Z;
  p99_us : option Z;
  p999_us : option Z;
  cv : option Q
}.

Record Counters : Type := {
  c_reconnects : option Z;
  c_errors : option Z;
  c_messages : option Z
}.

Record Payload : Type := {
  aggregate : option Aggregate;
  counters : option Counters
}.

(** The [{}] used as default of [.get("aggregate", {})] and
    [.get("counters", {})]. *)
Definition empty_aggregate : Aggregate :=
  {| count := None; p50_us := None; p99_us := None; p999_us := None;
     cv := None |}.

Definition empty_counters : Counters :=
  {| c_reconnects := None; c_errors := None; c_messages := None |}.

(** A JSON object read from the log: the three keys the loader subscripts. *)
Record LogObject : Type := {
  region : option string;
  instance_family : option string;
  metrics : option Payload
}.

(** One line of the log, by what [json.loads(line.strip())] does on it. *)
Inductive Line : Type :=
| Malformed                (* raises json.JSONDecodeError *)
| NotAnObject              (* valid JSON, but a number, string, list, ... *)
| Object (o : LogObject).  (* a JSON object *)

(** *** ConfigMetrics *)

Record ConfigMetrics : Type := {
  cm_region : string;
  cm_instance_family : string;
  p50_samples : list Z;
  p99_samples : list Z;
  p999_samples : list Z;
  cv_samples : list Q;
  reconnects : Z;
  errors : Z;
  message_count : Z
}.

Definition Key : Type := (string * string)%type.

Definition key (m : ConfigMetrics) : Key :=
  (cm_region m, cm_instance_family m).

Definition key_eqb (a b : Key) : bool :=
  String.eqb (fst a) (fst b) && String.eqb (snd a) (snd b).

(** [ConfigMetrics(region=..., instance_family=...)]: the dataclass defaults. *)
Definition new_config (r f : string) : ConfigMetrics :=
  {| cm_region := r; cm_instance_family := f;
     p50_samples := []; p99_samples := []; p999_samples := [];
     cv_samples := []; reconnects := 0; errors := 0; message_count := 0 |}.

(** The [metrics] dict of [load_results], in insertion order. *)
Definition MetricsMap : Type := list (Key * ConfigMetrics).

Fixpoint lookup (k : Key) (ms : MetricsMap) : option ConfigMetrics :=
  match ms with
  | [] => None
  | (k', m) :: rest => if key_eqb k' k then Some m else lookup k rest
  end.

(** [if key not in metrics: metrics[key] = fresh] followed by an in-place
    update [f] of [metrics[key]]. *)
Fixpoint update_config (k : Key) (f : ConfigMetrics -> ConfigMetrics)
    (fresh : ConfigMetrics) (ms : MetricsMap) : MetricsMap :=
  match ms with
  | [] => [(k, f fresh)]
  | (k', m) :: rest =>
      if key_eqb k' k then (k', f m) :: rest
      else (k', m) :: update_config k f fresh rest
  end.

(** Python's two-argument [max(a, b)]: [b] only when [b > a]. *)
Definition py_max (a b : Z) : Z := if a <? b then b else a.

(** Lines 76-80: the four appends, guarded by [count > 0]. *)
Definition append_samples (agg : Aggregate) (m : ConfigMetrics)
    : ConfigMetrics :=
  if 0 <? dict_get (count agg) 0 then
    {| cm_region := cm_region m; cm_instance_family := cm_instance_family m;
       p50_samples := p50_samples m ++ [dict_get (p50_us agg) 0];
       p99_samples := p99_samples m ++ [dict_get (p99_us agg) 0];
       p999_samples := p999_samples m ++ [dict_get (p999_us agg) 0];
       cv_samples := cv_samples m ++ [dict_get (cv agg) 0%Q];
       reconnects := reconnects m; errors := errors m;
       message_count := message_count m |}
  else m.

(** Lines 82-85: the watermark merge of the counters. *)
Definition merge_counters (c : Counters) (m : ConfigMetrics)
    : ConfigMetrics :=
  {| cm_region := cm_region m; cm_instance_family := cm_instance_family m;
     p50_samples := p50_samples m; p99_samples := p99_samples m;
     p999_samples := p999_samples m; cv_samples := cv_samples m;
     reconnects := py_max (reconnects m) (dict_get (c_reconnects c) 0);
     errors := py_max (errors m) (dict_get (c_errors c) 0);
     message_count := py_max (message_count m) (dict_get (c_messages c) 0) |}.

(** Lines 65-85: the body of the loop for one parsed object. *)
Definition ingest (ms : MetricsMap) (o : LogObject) : Result MetricsMap :=
  r <- getitem "region" (region o) ;;
  f <- getitem "instance_family" (instance_family o) ;;
  p <- getitem "metrics" (metrics o) ;;
  let agg := dict_get (aggregate p) empty_aggregate in
  let cnt := dict_get (counters p) empty_counters in
  Ok (update_config (r, f)
        (fun m => merge_counters cnt (append_samples agg m))
        (new_config r f) ms).

(** Lines 57-87.  [line_num] is the number [enumerate(f, 1)] gives the head
    of [lines]; [warned] collects the line numbers of the printed warnings,
    most recent first. *)
Fixpoint load_lines (lines : list Line) (line_num : nat) (ms : MetricsMap)
    (warned : list nat) : Result (MetricsMap * list nat) :=
  match lines with
  | [] => Ok (ms, rev warned)
  | Malformed :: rest => load_lines rest (S line_num) ms (line_num :: warned)
  | NotAnObject :: _ => Raise (TypeError "object is not subscriptable")
  | Object o :: rest =>
      ms' <- ingest ms o ;;
      load_lines rest (S line_num) ms' warned
  end.

Definition load_results (lines : list Line) : Result (MetricsMap * list nat) :=
  load_lines lines 1%nat [] [].

(** *** numpy and builtins used by the scoring engine *)

(** A stable insertion sort: [x] goes before the first element that is not
    smaller than it.  [list.sort] and [np.sort] compute the same list on
    keys that are totally ordered. *)
Fixpoint insert_by {A : Type} (ltb : A -> A -> bool) (x : A) (l : list A)
    : list A :=
  match l with
  | [] => [x]
  | y :: rest => if ltb y x then y :: insert_by ltb x rest else x :: l
  end.

Definition sort_by {A : Type} (ltb : A -> A -> bool) (l : list A) : list A :=
  fold_right (insert_by ltb) [] l.

(** [np.median] of a non-empty sequence: the middle element of the sorted
    values, or the mean of the two middle ones. *)
Definition median (l : list Q) : Q :=
  let s := sort_by Qlt_bool l in
  let n := length s in
  if Nat.even n
  then ((nth (n / 2 - 1)%nat s 0 + nth (n / 2)%nat s 0) / 2)%Q
  else nth (n / 2)%nat s 0%Q.

(** [np.median] of any sequence: nan ([None]) on the empty one. *)
Definition np_median (l : list Q) : option Q :=
  match l with
  | [] => None
  | _ => Some (median l)
  end.

Definition median_z (l : list Z) : Q := median (map inject_Z l).

(** [np.percentile(l, q)] with the default linear interpolation, on a
    non-empty sequence. *)
Definition np_percentile (l : list Q) (q : Q) : Q :=
  let s := sort_by Qlt_bool l in
  let pos := (inject_Z (Z.of_nat (length s - 1)%nat) * q / 100)%Q in
  let lo := Z.to_nat (Qfloor pos) in
  let frac := (pos - inject_Z (Qfloor pos))%Q in
  (nth lo s 0 + frac * (nth (S lo) s (nth lo s 0) - nth lo s 0))%Q.

(** [round(x, ndigits)]: to the nearest multiple of [10^-ndigits], ties to
    the even one. *)
Definition py_round (x : Q) (ndigits : nat) : Q :=
  let scale := inject_Z (10 ^ Z.of_nat ndigits) in
  let s := (x * scale)%Q in
  let f := Qfloor s in
  let d := (s - inject_Z f)%Q in
  let r := if Qlt_bool d (1 # 2) then f
           else if Qlt_bool (1 # 2) d then f + 1
           else if Z.even f then f else f + 1 in
  (inject_Z r / scale)%Q.

(** [min(l)] and [max(l)] of the non-empty list [x :: l]. *)
Definition py_min_list (x : Q) (l : list Q) : Q :=
  fold_left (fun a b => if Qlt_bool b a then b else a) l x.

Definition py_max_list (x : Q) (l : list Q) : Q :=
  fold_left (fun a b => if Qlt_bool a b then b else a) l x.

Definition nonempty {A : Type} (l : list A) : bool :=
  match l with
  | [] => false
  | _ => true
  end.

(** *** compute_score *)

(** The details bag: either the one-entry error dict or the statistics. *)
Record StatDetails : Type := {
  p99_median_us : Z;
  p99_p10 : Z;
  p99_p90 : Z;
  p50_median_us : Z;
  cv_median : option Q;          (* None: nan *)
  p999_median_us : Z;
  p999_p99_ratio : Q;
  normalized_p99 : Q;
  normalized_cv : option Q;      (* None: nan *)
  d_reconnects : Z;
  d_errors : Z;
  d_message_count : Z;
  samples : nat
}.

Inductive Details : Type :=
| ErrorDetails (msg : string)
| Stats (d : StatDetails).

(** Line 102 and 103: the medians used for normalization. *)
Definition all_p99 (all_metrics : list ConfigMetrics) : list Q :=
  map (fun x => median_z (p99_samples x))
      (filter (fun x => nonempty (p99_samples x)) all_metrics).

Definition all_cv (all_metrics : list ConfigMetrics) : list Q :=
  map (fun x => median (cv_samples x))
      (filter (fun x => nonempty (cv_samples x)) all_metrics).

(** Lines 116-119. *)
Definition norm_p99 (p99 min_p99 max_p99 : Q) : Q :=
  if Qlt_bool min_p99 max_p99
  then ((p99 - min_p99) / (max_p99 - min_p99))%Q
  else 0%Q.

(** Line 121; [cv] is nan when the configuration has no cv sample. *)
Definition norm_cv (cv : option Q) (max_cv : Q) : option Q :=
  if Qlt_bool 0 max_cv
  then match cv with
       | Some c => Some (c / max_cv)%Q
       | None => None
       end
  else Some 0%Q.

(** Line 124. *)
Definition weighted_score (np : Q) (nc : option Q) : PyFloat :=
  match nc with
  | Some c => Fin ((7 # 10) * np + (3 # 10) * c)%Q
  | None => NaN
  end.

Definition option_round (x : option Q) (ndigits : nat) : option Q :=
  match x with
  | Some q => Some (py_round q ndigits)
  | None => None
  end.

(** Lines 102-121: the two normalized values of [m], or [None] when line
    105 finds no median to normalize with. *)
Definition normalize (m : ConfigMetrics) (all_metrics : list ConfigMetrics)
    : option (Q * option Q) :=
  match all_p99 all_metrics, all_cv all_metrics with
  | [], _ => None
  | _, [] => None
  | p0 :: ps, c0 :: cs =>
      let min_p99 := py_min_list p0 ps in
      let max_p99 := py_max_list p0 ps in
      let max_cv := py_max_list c0 cs in
      let p99 := median_z (p99_samples m) in
      let cv := np_median (cv_samples m) in
      Some (norm_p99 p99 min_p99 max_p99, norm_cv cv max_cv)
  end.

Definition compute_score (m : ConfigMetrics)
    (all_metrics : list ConfigMetrics) : PyFloat * Details :=
  if negb (nonempty (p99_samples m)) then
    (PosInf, ErrorDetails "no samples")
  else
    match normalize m all_metrics with
    | None => (PosInf, ErrorDetails "insufficient data")
    | Some (np, nc) =>
        let p99 := median_z (p99_samples m) in
        let cv := np_median (cv_samples m) in
        let p99s := map inject_Z (p99_samples m) in
        (weighted_score np nc,
         Stats
           {| p99_median_us := py_int p99;
              p99_p10 := py_int (np_percentile p99s 10);
              p99_p90 := py_int (np_percentile p99s 90);
              p50_median_us :=
                if nonempty (p50_samples m)
                then py_int (median_z (p50_samples m)) else 0;
              cv_median := option_round cv 4;
              p999_median_us :=
                if nonempty (p999_samples m)
                then py_int (median_z (p999_samples m)) else 0;
              p999_p99_ratio :=
                if Qlt_bool 0 p99 && nonempty (p999_samples m)
                then py_round (median_z (p999_samples m) / p99) 2
                else 0%Q;
              normalized_p99 := py_round np 4;
              normalized_cv := option_round nc 4;
              d_reconnects := reconnects m;
              d_errors := errors m;
              d_message_count := message_count m;
              samples := length (p99_samples m) |})
    end.

(** *** check_hard_constraints *)

Inductive Violation : Type :=
| NoDataCollected
| P99OverLimit (p99 : Q)
| ReconnectsOverLimit (n : Z)
| RatioOverLimit (ratio : Q).

Definition check_hard_constraints (m : ConfigMetrics)
    : bool * list Violation :=
  if negb (nonempty (p99_samples m)) then (false, [NoDataCollected])
  else
    let p99 := median_z (p99_samples m) in
    let p999 := if nonempty (p999_samples m)
                then median_z (p999_samples m) else 0%Q in
    let v1 := if Qlt_bool 50000 p99 then [P99OverLimit p99] else [] in
    let v2 := if 1 <? reconnects m
              then [ReconnectsOverLimit (reconnects m)] else [] in
    let v3 := if Qlt_bool 0 p99 && Qlt_bool 0 p999
              then if Qlt_bool 3 (p999 / p99)
                   then [RatioOverLimit (p999 / p99)] else []
              else [] in
    let violations := v1 ++ v2 ++ v3 in
    (Nat.eqb (length violations) 0, violations).

(** *** statistical_comparison *)

(** What the function asks of scipy and of numpy's seeded generator. *)
Record StatsLib : Type := {
  (* stats.mannwhitneyu(a, b, alternative='less'): the p-value, or None
     when it raises ValueError *)
  mannwhitneyu_less : list Z -> list Z -> option Q;
  (* the 1000 values np.median(s2) - np.median(s1) of the resampling loop
     run from np.random.default_rng(42) *)
  bootstrap_diffs : list Z -> list Z -> list Q
}.

Inductive Comparison : Type :=
| ComparisonError (msg : string)
| ComparisonStats (mann_whitney_p : Q)
    (significant_at_005 significant_at_001 : bool)
    (p99_diff_median_us : Z) (p99_diff_ci_95_us : Z * Z).

Definition statistical_comparison (lib : StatsLib) (m1 m2 : ConfigMetrics)
    : option Comparison :=
  if negb (nonempty (p99_samples m1)) || negb (nonempty (p99_samples m2))
  then None
  else if (length (p99_samples m1) <? 5)%nat
          || (length (p99_samples m2) <? 5)%nat
  then Some (ComparisonError
               "insufficient samples for statistical comparison")
  else
    match mannwhitneyu_less lib (p99_samples m1) (p99_samples m2) with
    | None => Some (ComparisonError "statistical test failed")
    | Some p_value =>
        let diffs :=
          bootstrap_diffs lib (p99_samples m1) (p99_samples m2) in
        Some (ComparisonStats
                (py_round p_value 4)
                (Qlt_bool p_value (5 # 100))
                (Qlt_bool p_value (1 # 100))
                (py_int (median diffs))
                (py_int (np_percentile diffs (25 # 10)),
                 py_int (np_percentile diffs (975 # 10))))
    end.

(** *** analyze: scoring and ranking *)

Record ScoredConfig : Type := {
  sc_region : string;
  sc_instance_family : string;
  score : PyFloat;
  passes_constraints : bool;
  violations : list Violation;
  details : Details;
  sc_metrics : ConfigMetrics
}.

(** Lines 347-358: one entry of [scored]. *)
Definition score_config (all_metrics : list ConfigMetrics)
    (m : ConfigMetrics) : ScoredConfig :=
  let (passes, viols) := check_hard_constraints m in
  let (sc, det) := compute_score m all_metrics in
  {| sc_region := cm_region m; sc_instance_family := cm_instance_family m;
     score := sc; passes_constraints := passes; violations := viols;
     details := det; sc_metrics := m |}.

(** [<] and [==] on floats: every comparison with nan is false. *)
Definition float_ltb (a b : PyFloat) : bool :=
  match a, b with
  | Fin x, Fin y => Qlt_bool x y
  | Fin _, PosInf => true
  | _, _ => false
  end.

Definition float_eqb (a b : PyFloat) : bool :=
  match a, b with
  | Fin x, Fin y => Qeq_bool x y
  | PosInf, PosInf => true
  | _, _ => false
  end.

(** The sort key of line 361 and Python's [<] on such tuples: the first
    components decide unless they are equal. *)
Definition sort_key (s : ScoredConfig) : bool * PyFloat :=
  (negb (passes_constraints s), score s).

Definition tuple_ltb (a b : bool * PyFloat) : bool :=
  if Bool.eqb (fst a) (fst b)
  then if float_eqb (snd a) (snd b) then false
       else float_ltb (snd a) (snd b)
  else negb (fst a) && fst b.

Definition key_ltb (a b : ScoredConfig) : bool :=
  tuple_ltb (sort_key a) (sort_key b).

(** Lines 344-361: [scored] as it stands after the sort. *)
Definition rank_configs (all_metrics : list ConfigMetrics)
    : list ScoredConfig :=
  sort_by key_ltb (map (score_config all_metrics) all_metrics).

(** Lines 335-361 of [analyze]: load, stop on an empty mapping, score and
    sort.  The value is [scored] at line 361; the three print functions
    that follow write to stdout only. *)
Definition analyze_scored (lines : list Line) : Result (list ScoredConfig) :=
  loaded <- load_results lines ;;
  let all_metrics := map snd (fst loaded) in
  if nonempty all_metrics then Ok (rank_configs all_metrics)
  else Raise (SystemExit 1).

(** *** export_json *)

Record Recommendation : Type := {
  rec_region : string;
  rec_instance_family : string;
  p99_ms : Q;
  rec_cv : option Q
}.

Record ExportData : Type := {
  rankings : list (nat * ScoredConfig);    (* rank from 1, entry *)
  recommendation : option Recommendation   (* None: JSON null *)
}.

Definition passing (scored : list ScoredConfig) : list ScoredConfig :=
  filter passes_constraints scored.

(** Lines 299-323: the exported document (the timestamp apart). *)
Definition export_json (scored : list ScoredConfig) : Result ExportData :=
  let ranks := combine (seq 1 (length scored)) scored in
  match passing scored with
  | [] => Ok {| rankings := ranks; recommendation := None |}
  | winner :: _ =>
      match details winner with
      | ErrorDetails _ => Raise (KeyError "p99_median_us")
      | Stats d =>
          Ok {| rankings := ranks;
                recommendation :=
                  Some {| rec_region := sc_region winner;
                          rec_instance_family := sc_instance_family winner;
                          p99_ms := (inject_Z (p99_median_us d) / 1000)%Q;
                          rec_cv := cv_median d |} |}
      end
  end.

(** *** The report: print_ranking, print_comparison, print_recommendation *)

(** The exceptions of the report functions: those of the builtins above,
    the attribute lookup on [None] and the division by zero. *)
Inductive ReportExn : Type :=
| Builtin (e : PyExn)
| AttributeError (msg : string)
| ZeroDivisionError (msg : string).

(** One [print] call of a report function, by the values it formats; the
    three calls that print a title between two rules count as one
    [Banner], and the five lines of the warning of lines 271-275 as one
    [NoViableWarning].  The layout of the text is not modelled. *)
Inductive Printed : Type :=
| Banner (title : string)
| EntryLine (rank : nat) (pass : bool) (region family : string)
| ScoreLine (s : PyFloat)
| P99Line (median_ms p10_ms p90_ms : Q)
| P50Line (median_ms : Q)
| CvLine (cv : option Q)
| RatioLine (ratio : Q)
| CountersLine (messages reconnects errors : Z)
| SamplesLine (n : nat)
| ViolationsLine (vs : list Violation)
| CannotCompare (msg : string)
| ComparingLine (region1 family1 region2 family2 : string)
| PValueLine (p : Q)
| SignificantLine (level : Q) (significant : bool)
| DifferenceLine (median_ms low_ms high_ms : Q)
| NoViableWarning
| RecommendedLine (region family : string)
| ExpectedHeader
| LatencyLine (percentile : string) (ms : Q)
| StabilityLine (cv : option Q)
| TailRatioLine (ratio : Q)
| RunnerUpLine (region family : string)
| FasterLine (percent : Q).

(** What a report function leaves behind: the calls of [print] it made and
    the exception that ended it, if one did. *)
Definition Report : Type := (list Printed * option ReportExn)%type.

Definition to_ms (us : Z) : Q := (inject_Z us / 1000)%Q.

(** Lines 216-230: the body of the loop of [print_ranking] for the entry
    of rank [i].  The first subscript of the details bag is line 221. *)
Definition print_entry (i : nat) (s : ScoredConfig) : Report :=
  let head := [EntryLine i (passes_constraints s) (sc_region s)
                 (sc_instance_family s);
               ScoreLine (score s)] in
  match details s with
  | ErrorDetails _ => (head, Some (Builtin (KeyError "p99_median_us")))
  | Stats d =>
      (head
       ++ [P99Line (to_ms (p99_median_us d)) (to_ms (p99_p10 d))
             (to_ms (p99_p90 d));
           P50Line (to_ms (p50_median_us d));
           CvLine (cv_median d);
           RatioLine (p999_p99_ratio d);
           CountersLine (d_message_count d) (d_reconnects d) (d_errors d);
           SamplesLine (samples d)]
       ++ (if nonempty (violations s)
           then [ViolationsLine (violations s)] else []),
       None)
  end.

(** Lines 215-230: the loop, from rank [i]. *)
Fixpoint print_entries (i : nat) (scored : list ScoredConfig) : Report :=
  match scored with
  | [] => ([], None)
  | s :: rest =>
      match print_entry i s with
      | (out, Some e) => (out, Some e)
      | (out, None) =>
          let (out', r) := print_entries (S i) rest in (out ++ out', r)
      end
  end.

(** Lines 209-230. *)
Definition print_ranking (scored : list ScoredConfig) : Report :=
  let (out, r) := print_entries 1 scored in
  (Banner "RANKING (lower score = better)" :: out, r).

(** Lines 233-259. *)
Definition print_comparison (lib : StatsLib) (scored : list ScoredConfig)
    : Report :=
  match passing scored with
  | first :: second :: _ =>
      let banner := Banner "STATISTICAL COMPARISON (Top 2)" in
      match statistical_comparison lib (sc_metrics first)
              (sc_metrics second) with
      | None =>
          ([banner],
           Some (AttributeError "'NoneType' object has no attribute 'get'"))
      | Some (ComparisonError msg) => ([banner; CannotCompare msg], None)
      | Some (ComparisonStats p s5 s1 d ci) =>
          ([banner;
            ComparingLine (sc_region first) (sc_instance_family first)
              (sc_region second) (sc_instance_family second);
            PValueLine p;
            SignificantLine (5 # 100) s5;
            SignificantLine (1 # 100) s1;
            DifferenceLine (to_ms d) (to_ms (fst ci)) (to_ms (snd ci))],
           None)
      end
  | _ => ([], None)
  end.

(** Lines 262-294. *)
Definition print_recommendation (scored : list ScoredConfig) : Report :=
  let banner := Banner "RECOMMENDATION" in
  match passing scored with
  | [] => ([banner; NoViableWarning], None)
  | winner :: others =>
      let head := [banner;
                   RecommendedLine (sc_region winner)
                     (sc_instance_family winner);
                   ExpectedHeader] in
      match details winner with
      | ErrorDetails _ => (head, Some (Builtin (KeyError "p99_median_us")))
      | Stats d =>
          let expected :=
            head ++ [LatencyLine "p99" (to_ms (p99_median_us d));
                     LatencyLine "p50" (to_ms (p50_median_us d));
                     StabilityLine (cv_median d);
                     TailRatioLine (p999_p99_ratio d)] in
          match others with
          | [] => (expected, None)
          | runner_up :: _ =>
              match details runner_up with
              | ErrorDetails _ =>
                  (expected, Some (Builtin (KeyError "p99_median_us")))
              | Stats rd =>
                  if p99_median_us rd =? 0 then
                    (expected, Some (ZeroDivisionError "division by zero"))
                  else
                    (expected
                     ++ [RunnerUpLine (sc_region runner_up)
                           (sc_instance_family runner_up);
                         FasterLine
                           (inject_Z (p99_median_us rd - p99_median_us d)
                            / inject_Z (p99_median_us rd) * 100)%Q],
                     None)
              end
          end
      end
  end.

(** *** analyze *)

(** What a call of [analyze] leaves behind: the calls of [print] of the
    three report functions, the exception that ended it, if one did, and
    the document written to the [--json] file, if one was. *)
Record AnalyzeRun : Type := {
  report : list Printed;
  raised : option ReportExn;
  exported : option ExportData
}.

Definition aborted (out : list Printed) (e : ReportExn) : AnalyzeRun :=
  {| report := out; raised := Some e; exported := None |}.

(** Lines 331-369; [json_output] tells whether [--json] was given. *)
Definition analyze (lib : StatsLib) (lines : list Line) (json_output : bool)
    : AnalyzeRun :=
  match analyze_scored lines with
  | Raise e => aborted [] (Builtin e)
  | Ok scored =>
      match print_ranking scored with
      | (o1, Some e) => aborted o1 e
      | (o1, None) =>
          match print_comparison lib scored with
          | (o2, Some e) => aborted (o1 ++ o2) e
          | (o2, None) =>
              match print_recommendation scored with
              | (o3, Some e) => aborted (o1 ++ o2 ++ o3) e
              | (o3, None) =>
                  if json_output then
                    match export_json scored with
                    | Raise e => aborted (o1 ++ o2 ++ o3) (Builtin e)
                    | Ok doc =>
                        {| report := o1 ++ o2 ++ o3; raised := None;
                           exported := Some doc |}
                    end
                  else {| report := o1 ++ o2 ++ o3; raised := None;
                          exported := None |}
              end
          end
      end
  end.

End Analyze.

Module RunSweep.

Record ProbeConfig : Type := {
  region : string;
  instance_family : string;
  instance_ip : string;
  instance_id : string;
  metrics_port : Z
}.

Record SweepConfig : Type := {
  experiment_id : string;
  warmup_sec : Z;
  measurement_sec : Z;
  poll_interval_sec : Z;
  output_dir : string
}.

(** What [requests.get] does: a response with a status code, or a
    [requests.RequestException] (timeout, refused connection, DNS failure). *)
Inductive Response : Type :=
| Status (status_code : Z)
| RequestException.

(** *** wait_for_probes *)

(** The world the gate runs in: [elapsed_at n] is [time.time() - start] at
    the [n]-th test of the loop condition (from 0), [health n probe] what
    [requests.get(probe.health_url, timeout=5)] does in sweep [n]. *)
Record GateEnv : Type := {
  elapsed_at : nat -> Q;
  health : nat -> ProbeConfig -> Response
}.

(** Lines 115-120: the answers after which [all_healthy] is set to
    [False]. *)
Definition unhealthy (r : Response) : bool :=
  match r with
  | Status c => negb (c =? 200)
  | RequestException => true
  end.

(** Lines 113-120: one sweep over all probes, none skipped. *)
Definition sweep (env : GateEnv) (n : nat) (probes : list ProbeConfig)
    : bool :=
  fold_left
    (fun all_healthy probe =>
       if unhealthy (health env n probe) then false else all_healthy)
    probes true.

(** Lines 112-131.  [None]: more than [fuel] sweeps would be needed. *)
Fixpoint wait_loop (env : GateEnv) (probes : list ProbeConfig)
    (timeout_sec : Z) (fuel n : nat) : option bool :=
  match fuel with
  | O => None
  | S fuel' =>
      if Qlt_bool (elapsed_at env n) (inject_Z timeout_sec) then
        if sweep env n probes then Some true
        else wait_loop env probes timeout_sec fuel' (S n)
      else Some false
  end.

Definition wait_for_probes (env : GateEnv) (probes : list ProbeConfig)
    (timeout_sec : Z) (fuel : nat) : option bool :=
  wait_loop env probes timeout_sec fuel 0%nat.

(** *** collect_metrics and run_collection *)

(** The exceptions of the orchestrator: those of the builtins, the one
    [subprocess.run(..., check=True)] raises on a non-zero exit status, the
    decode error of [json.loads], the two a call of [time.sleep] or a
    conversion of an int to a float can raise, and the attribute lookup on
    a value that has no such attribute. *)
Inductive SweepExn : Type :=
| Python (e : PyExn)
| CalledProcessError (returncode : Z) (cmd : list string)
| JSONDecodeError
| ValueError
| OverflowError
| AttributeError (msg : string).

Inductive Outcome (A : Type) : Type :=
| Returns (a : A)
| Raises (e : SweepExn).
Arguments Returns {A} a.
Arguments Raises {A} e.

(** A JSON object of the shape the probes answer with: the two entries
    the analyzer reads, and the keys of its other entries. *)
Record Answer : Type := {
  body : Analyze.Payload;
  other_keys : list string
}.

(** What [resp.json()] returns, by what lines 174-193 do with it: an
    object of that shape; a value other than an object that is false in
    [if metrics:] (an empty list or string, a zero, [false]); or any other
    value, which is true there and on which the summary of lines 188-193
    raises [e] (a list or a number has no [get]; an aggregate that is not
    an object, or whose [p99_us] or [cv] is not a number, fails
    likewise). *)
Inductive Fetched : Type :=
| Shaped (a : Answer)
| Falsy
| Unreadable (e : SweepExn).

(** The world the collection runs in: [start_time] is the reading of line
    162, [now n] the reading of the [n]-th test of the loop condition,
    [body_time n] the reading of line 168 in round [n], [fetch n probe] the
    value of [collect_metrics(probe)] in round [n] ([None] on a
    [RequestException] and on the answer [null]), [utcnow n probe] the
    timestamp of the record,
    [max_sleep] the longest sleep, in seconds, the clock type of the
    platform can hold, and [joinpath] the operator [/] of [pathlib] on the
    platform, on paths written as strings. *)
Record CollectEnv : Type := {
  start_time : Q;
  now : nat -> Q;
  body_time : nat -> Q;
  fetch : nat -> ProbeConfig -> option Fetched;
  utcnow : nat -> ProbeConfig -> string;
  max_sleep : Z;
  joinpath : string -> string -> string
}.

(** [time.sleep(secs)] on an int: the exception it raises, [None] when it
    returns.  A negative length is a ValueError, one the clock type cannot
    hold an OverflowError. *)
Definition sleep (env : CollectEnv) (secs : Z) : option SweepExn :=
  if secs <? 0 then Some ValueError
  else if max_sleep env <? secs then Some OverflowError
  else None.

(** The conversion of an int operand in a float addition: OverflowError
    ([None]) from 2^1024 - 2^970 on, where the nearest double is no longer
    finite. *)
Definition float_of_int (n : Z) : option Q :=
  if Z.abs n <? 2 ^ 1024 - 2 ^ 970 then Some (inject_Z n) else None.

Record MetricRecord : Type := {
  timestamp : string;
  elapsed_sec : Z;
  r_region : string;
  r_instance_family : string;
  r_instance_id : string;
  r_metrics : Fetched
}.

(** Truth value of the fetched value in [if metrics:]: of the objects only
    the one with no entry at all is false. *)
Definition truthy (m : Fetched) : bool :=
  match m with
  | Shaped a =>
      match Analyze.aggregate (body a), Analyze.counters (body a),
            other_keys a with
      | None, None, [] => false
      | _, _, _ => true
      end
  | Falsy => false
  | Unreadable _ => true
  end.

(** Lines 188-193: the exception the summary raises, [None] when it
    prints. *)
Definition summary (m : Fetched) : option SweepExn :=
  match m with
  | Unreadable e => Some e
  | _ => None
  end.

(** The state the loop updates: the lines appended to the log so far and
    [collection_count]. *)
Definition CollectState : Type := (list MetricRecord * Z)%type.

(** Lines 172-193: one round over the probes from [probes] on, [elapsed]
    the value of line 168.  The round is left at the first summary that
    raises, after the record has been written and counted. *)
Fixpoint collect_probes (env : CollectEnv) (n : nat) (elapsed : Z)
    (probes : list ProbeConfig) (st : CollectState)
    : CollectState * option SweepExn :=
  match probes with
  | [] => (st, None)
  | probe :: rest =>
      match fetch env n probe with
      | Some m =>
          if truthy m then
            let st' :=
              (fst st ++ [ {| timestamp := utcnow env n probe;
                              elapsed_sec := elapsed;
                              r_region := region probe;
                              r_instance_family := instance_family probe;
                              r_instance_id := instance_id probe;
                              r_metrics := m |} ],
               snd st + 1) in
            match summary m with
            | Some e => (st', Some e)
            | None => collect_probes env n elapsed rest st'
            end
          else collect_probes env n elapsed rest st
      | None => collect_probes env n elapsed rest st
      end
  end.

(** Lines 168-193: round [n]. *)
Definition collect_round (env : CollectEnv) (n : nat)
    (probes : list ProbeConfig) (st : CollectState)
    : CollectState * option SweepExn :=
  collect_probes env n (py_int (body_time env n - start_time env)%Q)
    probes st.

(** Lines 167-195: the loop, each round ended by the sleep of line 195.
    The result is the state when the loop was left, the number of rounds
    begun, and the exception that ended the loop if one did.  [None]: more
    than [fuel] rounds would be needed. *)
Fixpoint collect_loop (env : CollectEnv) (probes : list ProbeConfig)
    (end_time : Q) (poll_interval_sec : Z) (fuel n : nat)
    (st : CollectState) : option (CollectState * nat * option SweepExn) :=
  match fuel with
  | O => None
  | S fuel' =>
      if Qlt_bool (now env n) end_time then
        match collect_round env n probes st with
        | (st', Some e) => Some (st', S n, Some e)
        | (st', None) =>
            match sleep env poll_interval_sec with
            | Some e => Some (st', S n, Some e)
            | None =>
                collect_loop env probes end_time poll_interval_sec fuel'
                  (S n) st'
            end
        end
      else Some (st, n, None)
  end.

(** What a call leaves behind: how it ended (the value it returned or the
    exception it raised), the log file (opened in append mode, so after
    its earlier content), the count of line 185 (printed by line 199 when
    the call returns), and the number of rounds begun. *)
Record Collection : Type := {
  ended : Outcome string;
  log_file : list MetricRecord;
  total_records : Z;
  rounds : nat
}.

(** Line 148. *)
Definition results_file (env : CollectEnv) (config : SweepConfig) : string :=
  joinpath env (output_dir config)
    (experiment_id config ++ "_results.jsonl")%string.

(** Lines 145-203. *)
Definition run_collection (env : CollectEnv) (config : SweepConfig)
    (probes : list ProbeConfig) (earlier : list MetricRecord) (fuel : nat)
    : option Collection :=
  let stopped e :=
    Some {| ended := Raises e; log_file := earlier; total_records := 0;
            rounds := 0 |} in
  match sleep env (warmup_sec config) with
  | Some e => stopped e
  | None =>
      match float_of_int (measurement_sec config) with
      | None => stopped OverflowError
      | Some measurement =>
          let end_time := (start_time env + measurement)%Q in
          match collect_loop env probes end_time (poll_interval_sec config)
                  fuel 0%nat ([], 0) with
          | None => None
          | Some (st, n, exn) =>
              Some {| ended := match exn with
                               | Some e => Raises e
                               | None => Returns (results_file env config)
                               end;
                      log_file := earlier ++ fst st;
                      total_records := snd st;
                      rounds := n |}
          end
      end
  end.

(** *** run_terraform and get_terraform_outputs *)

(** [str(n)] of an int, as an f-string formats it. *)
Definition py_str_int (n : Z) : string :=
  NilZero.string_of_int (Z.to_int n).

(** [x in (a, b, ...)] on strings. *)
Definition is_in (x : string) (l : list string) : bool :=
  existsb (String.eqb x) l.

(** Lines 61-71: the command line built for [action]; [extra_vars] is
    [None] or the items of the dict in order. *)
Definition terraform_cmd (action : string) (phase : Z)
    (extra_vars : option (list (string * string))) (auto_approve : bool)
    : list string :=
  let cmd := ["terraform"; action]%string in
  if (action =? "init")%string then cmd
  else if is_in action ["apply"; "destroy"; "plan"]%string then
    cmd
    ++ [("-var=phase=" ++ py_str_int phase)%string]
    ++ match extra_vars with
       | Some vars =>
           map (fun kv => ("-var=" ++ fst kv ++ "=" ++ snd kv)%string) vars
       | None => []
       end
    ++ (if auto_approve && is_in action ["apply"; "destroy"]%string
        then ["-auto-approve"%string] else [])
  else cmd.

(** [subprocess.run(cmd, check=True).returncode], in a world where the
    command [cmd] exits with [status cmd]. *)
Definition subprocess_run (status : list string -> Z) (cmd : list string)
    : Outcome Z :=
  if status cmd =? 0 then Returns (status cmd)
  else Raises (CalledProcessError (status cmd) cmd).

(** Lines 57-75. *)
Definition run_terraform (status : list string -> Z) (action : string)
    (phase : Z) (extra_vars : option (list (string * string)))
    (auto_approve : bool) : Outcome bool :=
  match subprocess_run status
          (terraform_cmd action phase extra_vars auto_approve) with
  | Returns returncode => Returns (returncode =? 0)
  | Raises e => Raises e
  end.

(** *** parse_probe_endpoints *)

(** One value of the [probe_endpoints] output: the four keys the parser
    subscripts. *)
Record Endpoint : Type := {
  ep_region : option string;
  ep_instance_family : option string;
  public_ip : option string;
  ep_instance_id : option string
}.

(** The object [terraform output -json] prints: each output is an object
    that may lack its [value] entry. *)
Record Outputs : Type := {
  probe_endpoints : option (option (list (string * Endpoint)));
  out_experiment_id : option (option string)
}.

(** Line 94: [outputs.get("probe_endpoints", {}).get("value", {})], as the
    items of the dict. *)
Definition endpoints_of (outputs : Outputs) : list (string * Endpoint) :=
  dict_get (dict_get (probe_endpoints outputs) None) [].

(** Lines 97-102: one [ProbeConfig], its port the dataclass default. *)
Definition probe_of (data : Endpoint) : Result ProbeConfig :=
  r <- getitem "region" (ep_region data) ;;
  f <- getitem "instance_family" (ep_instance_family data) ;;
  ip <- getitem "public_ip" (public_ip data) ;;
  id <- getitem "instance_id" (ep_instance_id data) ;;
  Ok {| region := r; instance_family := f; instance_ip := ip;
        instance_id := id; metrics_port := 9090 |}.

(** Lines 96-104: the loop, [probes] the list built so far. *)
Fixpoint parse_endpoints (endpoints : list (string * Endpoint))
    (probes : list ProbeConfig) : Result (list ProbeConfig) :=
  match endpoints with
  | [] => Ok probes
  | (_, data) :: rest =>
      p <- probe_of data ;;
      parse_endpoints rest (probes ++ [p])
  end.

Definition parse_probe_endpoints (outputs : Outputs)
    : Result (list ProbeConfig) :=
  parse_endpoints (endpoints_of outputs) [].

(** *** main *)

(** The parsed command line. *)
Record Args : Type := {
  deploy : bool;
  collect : bool;
  destroy : bool;
  phase : Z;
  warmup : Z;
  duration : Z;
  poll_interval : Z;
  args_output_dir : string;
  ssh_key : option string;
  args_experiment_id : option string
}.

(** The world [main] runs in: the exit status of each command, the JSON
    document [terraform output -json] prints ([None]: not JSON), the
    minute stamp of [datetime.utcnow()], the probes as the gate and the
    collection see them, and the log file as it stands. *)
Record World : Type := {
  status : list string -> Z;
  terraform_stdout : option Outputs;
  utc_minute : string;
  gate_env : GateEnv;
  collect_env : CollectEnv;
  log_before : list MetricRecord
}.

(** What [main] does to the world, in order. *)
Inductive Event : Type :=
| PrintHelp
| Subprocess (cmd : list string)
| HealthGate (probes : list ProbeConfig) (ready : bool)
| Collected (config : SweepConfig) (probes : list ProbeConfig)
    (c : Collection).

(** A run: its events and how it ended, or [None] when the loops of the
    gate or of the collection need more than the fuel given. *)
Definition Prog (A : Type) : Type := option (list Event * Outcome A).

Definition ret {A : Type} (a : A) : Prog A := Some ([], Returns a).

Definition raise {A : Type} (e : SweepExn) : Prog A := Some ([], Raises e).

Definition emit (ev : Event) : Prog unit := Some ([ev], Returns tt).

Definition and_then {A B : Type} (m : Prog A) (k : A -> Prog B) : Prog B :=
  match m with
  | None => None
  | Some (t, Raises e) => Some (t, Raises e)
  | Some (t, Returns a) =>
      match k a with
      | None => None
      | Some (t', r) => Some (t ++ t', r)
      end
  end.

Notation "m >>= k" := (and_then m k) (at level 58, left associativity).

Definition of_result {A : Type} (r : Result A) : Prog A :=
  match r with
  | Ok a => ret a
  | Raise e => raise (Python e)
  end.

Definition terraform (w : World) (action : string) (phase : Z)
    (extra_vars : option (list (string * string))) (auto_approve : bool)
    : Prog bool :=
  Some ([Subprocess (terraform_cmd action phase extra_vars auto_approve)],
        run_terraform (status w) action phase extra_vars auto_approve).

(** Lines 78-88. *)
Definition get_terraform_outputs (w : World) : Prog Outputs :=
  let cmd := ["terraform"; "output"; "-json"]%string in
  Some ([Subprocess cmd],
        match subprocess_run (status w) cmd with
        | Raises e => Raises e
        | Returns _ =>
            match terraform_stdout w with
            | Some outputs => Returns outputs
            | None => Raises JSONDecodeError
            end
        end).

Definition gate (w : World) (probes : list ProbeConfig) (fuel : nat)
    : Prog bool :=
  match wait_for_probes (gate_env w) probes 600 fuel with
  | None => None
  | Some ready => Some ([HealthGate probes ready], Returns ready)
  end.

Definition collection (w : World) (config : SweepConfig)
    (probes : list ProbeConfig) (fuel : nat) : Prog string :=
  match run_collection (collect_env w) config probes (log_before w) fuel with
  | None => None
  | Some c => Some ([Collected config probes c], ended c)
  end.

(** [x or default] and [if x:] on an optional string: [None] and the
    empty string are false. *)
Definition truthy_str (x : option string) : option string :=
  match x with
  | Some (String _ _ as s) => Some s
  | _ => None
  end.

(** Lines 263-274: the deploy block. *)
Definition deploy_block (args : Args) (w : World) (experiment_id : string)
    : Prog unit :=
  if deploy args then
    terraform w "init" 1 None true >>= fun _ =>
    let extra_vars :=
      [("experiment_id"%string, experiment_id)]
      ++ match truthy_str (ssh_key args) with
         | Some k => [("ssh_public_key"%string, k)]
         | None => []
         end in
    terraform w "apply" (phase args) (Some extra_vars) true >>= fun _ =>
    ret tt
  else ret tt.

(** Lines 277-292: the collect block. *)
Definition collect_block (args : Args) (w : World) (experiment_id : string)
    (fuel : nat) : Prog unit :=
  if collect args then
    get_terraform_outputs w >>= fun outputs =>
    of_result (parse_probe_endpoints outputs) >>= fun probes =>
    if negb (Analyze.nonempty probes) then raise (Python (SystemExit 1))
    else
      let tf_experiment_id :=
        dict_get (dict_get (out_experiment_id outputs) None) experiment_id in
      gate w probes fuel >>= fun ready =>
      if negb ready then raise (Python (SystemExit 1))
      else
        collection w
          {| experiment_id := tf_experiment_id;
             warmup_sec := warmup args;
             measurement_sec := duration args;
             poll_interval_sec := poll_interval args;
             output_dir := args_output_dir args |}
          probes fuel >>= fun _ =>
        ret tt
  else ret tt.

(** Lines 295-300: the destroy block. *)
Definition destroy_block (args : Args) (w : World) : Prog unit :=
  if destroy args then
    terraform w "destroy" (phase args) None true >>= fun _ => ret tt
  else ret tt.

(** Lines 248-301, after [parse_args]. *)
Definition main (args : Args) (w : World) (fuel : nat) : Prog unit :=
  if negb (deploy args || collect args || destroy args) then
    emit PrintHelp >>= fun _ => raise (Python (SystemExit 1))
  else
    let experiment_id :=
      dict_get (truthy_str (args_experiment_id args))
        ("latency-sweep-" ++ utc_minute w)%string in
    deploy_block args w experiment_id >>= fun _ =>
    collect_block args w experiment_id fuel >>= fun _ =>
    destroy_block args w.

End RunSweep.

(** * Vocabulary of the statements *)

Module Spec.
Import Analyze.

(** The lines [json.loads] accepts: the others raise [JSONDecodeError]. *)
Definition decodes (l : Line) : bool :=
  match l with
  | Malformed => false
  | _ => true
  end.

(** The lines that parse as a JSON object. *)
Definition is_json_object (l : Line) : bool :=
  match l with
  | Object _ => true
  | _ => false
  end.

(** The mapping a load returns, without the record of its warnings. *)
Definition loaded_metrics (r : Result (MetricsMap * list nat))
    : Result MetricsMap :=
  match r with
  | Ok (ms, _) => Ok ms
  | Raise e => Raise e
  end.

(** The numbers (from [n]) of the lines that do not decode. *)
Fixpoint malformed_numbers (lines : list Line) (n : nat) : list nat :=
  match lines with
  | [] => []
  | Malformed :: rest => n :: malformed_numbers rest (S n)
  | _ :: rest => malformed_numbers rest (S n)
  end.

(** The key and payload of an object that has the three subscripted keys. *)
Definition record_of (o : LogObject) : option (Key * Payload) :=
  match region o, instance_family o, metrics o with
  | Some r, Some f, Some p => Some ((r, f), p)
  | _, _, _ => None
  end.

(** The step of the loop on an object that has the three keys. *)
Definition ingest_step (p : Payload) (m : ConfigMetrics) : ConfigMetrics :=
  merge_counters (dict_get (counters p) empty_counters)
    (append_samples (dict_get (aggregate p) empty_aggregate) m).

(** The key of the record a line holds. *)
Definition line_key (l : Line) : option Key :=
  match l with
  | Object o => option_map fst (record_of o)
  | _ => None
  end.

(** The lines the loader gets past: decode errors and full records. *)
Definition loadable (l : Line) : Prop :=
  l = Malformed \/ exists o k p, l = Object o /\ record_of o = Some (k, p).

(** The three watermark counters. *)
Inductive Counter : Type := Reconnects | Errors | Messages.

Definition reported (c : Counter) (cs : Counters) : option Z :=
  match c with
  | Reconnects => c_reconnects cs
  | Errors => c_errors cs
  | Messages => c_messages cs
  end.

Definition watermark (c : Counter) (m : ConfigMetrics) : Z :=
  match c with
  | Reconnects => reconnects m
  | Errors => errors m
  | Messages => message_count m
  end.

(** The value of counter [c] a line reports for key [k], when it reports
    one. *)
Definition line_counter (c : Counter) (k : Key) (l : Line) : list Z :=
  match l with
  | Object o =>
      match record_of o with
      | Some (k', p) =>
          if key_eqb k' k then
            match counters p with
            | Some cs =>
                match reported c cs with
                | Some v => [v]
                | None => []
                end
            | None => []
            end
          else []
      | None => []
      end
  | _ => []
  end.

(** The values of counter [c] present in the records of key [k], in file
    order. *)
Definition counter_values (c : Counter) (k : Key) (lines : list Line)
    : list Z :=
  flat_map (line_counter c k) lines.

(** A line with the [aggregate] entry of its payload taken out. *)
Definition without_aggregate (l : Line) : Line :=
  match l with
  | Object o =>
      Object {| region := region o;
                instance_family := instance_family o;
                metrics :=
                  option_map
                    (fun p => {| aggregate := None; counters := counters p |})
                    (metrics o) |}
  | _ => l
  end.

(** [v] is the maximum of the non-empty list [l]. *)
Definition is_max_of (v : Z) (l : list Z) : Prop :=
  In v l /\ forall x, In x l -> x <= v.

(** The medians the constraints are stated on; the p999 one counts as 0
    when there is no p999 sample, as on line 153. *)
Definition median_p99 (m : ConfigMetrics) : Q := median_z (p99_samples m).

Definition median_p999 (m : ConfigMetrics) : Q :=
  if nonempty (p999_samples m) then median_z (p999_samples m) else 0%Q.

(** The four sample sequences have one length. *)
Definition aligned (m : ConfigMetrics) : Prop :=
  length (p50_samples m) = length (p99_samples m)
  /\ length (p999_samples m) = length (p99_samples m)
  /\ length (cv_samples m) = length (p99_samples m).

(** The order of the sort keys of line 361 when no score is nan:
    [False < True] on the constraint flag, then the scores. *)
Definition float_le (a b : PyFloat) : Prop :=
  match a, b with
  | Fin x, Fin y => (x <= y)%Q
  | _, PosInf => a <> NaN
  | _, _ => False
  end.

Definition key_le (a b : ScoredConfig) : Prop :=
  (passes_constraints a = true /\ passes_constraints b = false)
  \/ (passes_constraints a = passes_constraints b
      /\ float_le (score a) (score b)).

(** The entries whose score is not nan. *)
Definition no_nan (s : ScoredConfig) : Prop := score s <> NaN.


(** [a] stands before [b] in [l]. *)
Definition before {A : Type} (a b : A) (l : list A) : Prop :=
  exists l1 l2 l3, l = l1 ++ a :: l2 ++ b :: l3.

Definition in_unit (q : Q) : Prop := (0 <= q /\ q <= 1)%Q.

Definition is_2xx (c : Z) : bool := (200 <=? c) && (c <=? 299).

(** ** The loader, beyond the counters *)

(** The key whose subscript raises on an object, if one does: lines 65
    and 74 read [region], [instance_family] and [metrics] in this order. *)
Definition first_missing (o : LogObject) : option string :=
  match region o, instance_family o, metrics o with
  | None, _, _ => Some "region"%string
  | Some _, None, _ => Some "instance_family"%string
  | Some _, Some _, None => Some "metrics"%string
  | Some _, Some _, Some _ => None
  end.

(** The keys of the records of a log, in file order. *)
Definition record_keys (lines : list Line) : list Key :=
  flat_map (fun l => match line_key l with
                     | Some k => [k]
                     | None => []
                     end) lines.

(** A list of keys without its repetitions, each key at the place of its
    first occurrence. *)
Definition first_seen (keys : list Key) : list Key :=
  fold_left
    (fun seen k =>
       if existsb (fun k' => key_eqb k' k) seen then seen else seen ++ [k])
    keys [].

(** The value a record of key [k] contributes to a sample sequence: that of
    [field] when its count is positive, nothing otherwise. *)
Definition line_samples {A : Type} (field : Aggregate -> A) (k : Key)
    (l : Line) : list A :=
  match l with
  | Object o =>
      match record_of o with
      | Some (k', p) =>
          if key_eqb k' k then
            let agg := dict_get (aggregate p) empty_aggregate in
            if 0 <? dict_get (count agg) 0 then [field agg] else []
          else []
      | None => []
      end
  | _ => []
  end.

Definition sample_values {A : Type} (field : Aggregate -> A) (k : Key)
    (lines : list Line) : list A :=
  flat_map (line_samples field k) lines.

(** ** The report *)

(** The entries whose details bag holds the statistics. *)
Definition has_stats (s : ScoredConfig) : Prop :=
  exists d, details s = Stats d.

(** The header lines of the ranking found in an output: rank, verdict,
    region and instance family. *)
Definition entry_lines (out : list Printed)
    : list (nat * bool * string * string) :=
  flat_map (fun p => match p with
                     | EntryLine i pass r f => [(i, pass, r, f)]
                     | _ => []
                     end) out.

(** The header lines of the entries of [scored], numbered from [i]. *)
Definition numbered (i : nat) (scored : list ScoredConfig)
    : list (nat * bool * string * string) :=
  map (fun p => (fst p, passes_constraints (snd p), sc_region (snd p),
                 sc_instance_family (snd p)))
      (combine (seq i (length scored)) scored).

(** The scores printed in an output, in order. *)
Definition score_lines (out : list Printed) : list PyFloat :=
  flat_map (fun p => match p with
                     | ScoreLine x => [x]
                     | _ => []
                     end) out.

(** The entries [analyze] builds: an entry with p99 samples has the
    statistics, with the p99 median they were computed from; an entry
    without has none and fails. *)
Definition consistent (s : ScoredConfig) : Prop :=
  match p99_samples (sc_metrics s) with
  | [] => ~ has_stats s /\ passes_constraints s = false
  | _ :: _ =>
      exists d, details s = Stats d
                /\ p99_median_us d = py_int (median_p99 (sc_metrics s))
  end.

(** How [analyze] ends on a ranking: the KeyError of [print_ranking] when
    an entry has no p99 sample; else the division by zero of
    [print_recommendation] when the second passing entry has the p99
    median 0; else normally. *)
Definition ending (scored : list ScoredConfig) : option ReportExn :=
  if existsb (fun s => negb (nonempty (p99_samples (sc_metrics s)))) scored
  then Some (Builtin (KeyError "p99_median_us"))
  else match passing scored with
       | _ :: runner_up :: _ =>
           if py_int (median_p99 (sc_metrics runner_up)) =? 0
           then Some (ZeroDivisionError "division by zero")
           else None
       | _ => None
       end.

(** ** The orchestrator *)

(** Probe [p] is the one built from endpoint [e]: the four fields of the
    endpoint and the default port. *)
Definition describes (e : string * RunSweep.Endpoint)
    (p : RunSweep.ProbeConfig) : Prop :=
  RunSweep.ep_region (snd e) = Some (RunSweep.region p)
  /\ RunSweep.ep_instance_family (snd e)
     = Some (RunSweep.instance_family p)
  /\ RunSweep.public_ip (snd e) = Some (RunSweep.instance_ip p)
  /\ RunSweep.ep_instance_id (snd e) = Some (RunSweep.instance_id p)
  /\ RunSweep.metrics_port p = 9090.

(** The first key an endpoint lacks, in the order lines 98-101 read
    them. *)
Definition missing_field (e : RunSweep.Endpoint) : option string :=
  match RunSweep.ep_region e, RunSweep.ep_instance_family e,
        RunSweep.public_ip e, RunSweep.ep_instance_id e with
  | None, _, _, _ => Some "region"%string
  | Some _, None, _, _ => Some "instance_family"%string
  | Some _, Some _, None, _ => Some "public_ip"%string
  | Some _, Some _, Some _, None => Some "instance_id"%string
  | Some _, Some _, Some _, Some _ => None
  end.

(** The record the collection writes for probe [p] in round [n] when the
    fetch returned [m]. *)
Definition record_for (env : RunSweep.CollectEnv) (n : nat)
    (p : RunSweep.ProbeConfig) (m : RunSweep.Fetched)
    : RunSweep.MetricRecord :=
  {| RunSweep.timestamp := RunSweep.utcnow env n p;
     RunSweep.elapsed_sec :=
       py_int (RunSweep.body_time env n - RunSweep.start_time env)%Q;
     RunSweep.r_region := RunSweep.region p;
     RunSweep.r_instance_family := RunSweep.instance_family p;
     RunSweep.r_instance_id := RunSweep.instance_id p;
     RunSweep.r_metrics := m |}.

(** Record [r] was written in a round from [lo] up to, not including,
    [hi]: for a probe of the list whose fetch returned a value that is
    true in [if metrics:]. *)
Definition written_in (env : RunSweep.CollectEnv)
    (probes : list RunSweep.ProbeConfig) (lo hi : nat)
    (r : RunSweep.MetricRecord) : Prop :=
  exists n p m,
    (lo <= n < hi)%nat /\ In p probes
    /\ RunSweep.fetch env n p = Some m /\ RunSweep.truthy m = true
    /\ r = record_for env n p m.

(** The action of a terraform command line. *)
Definition action_of (cmd : list string) : string := nth 1 cmd ""%string.

(** Sweep [n] of the health gate starts before the timeout has elapsed. *)
Definition in_time (env : RunSweep.GateEnv) (timeout_sec : Z) (n : nat)
    : Prop :=
  (RunSweep.elapsed_at env n < inject_Z timeout_sec)%Q.

(** Every probe of the list answers sweep [n] with status 200. *)
Definition all_200 (env : RunSweep.GateEnv) (n : nat)
    (probes : list RunSweep.ProbeConfig) : Prop :=
  forall p, In p probes -> RunSweep.health env n p = RunSweep.Status 200.

(** The same world with every network error replaced by the status
    [code]. *)
Definition errors_as (code : Z) (env : RunSweep.GateEnv) : RunSweep.GateEnv :=
  {| RunSweep.elapsed_at := RunSweep.elapsed_at env;
     RunSweep.health := fun n p =>
       match RunSweep.health env n p with
       | RunSweep.RequestException => RunSweep.Status code
       | r => r
       end |}.

(** The end time of line 163. *)
Definition end_time (env : RunSweep.CollectEnv) (config : RunSweep.SweepConfig)
    : Q :=
  (RunSweep.start_time env + inject_Z (RunSweep.measurement_sec config))%Q.

(** Round [n] of the collection is the first whose clock reading has
    reached the end time. *)
Definition ends_at (env : RunSweep.CollectEnv) (config : RunSweep.SweepConfig)
    (n : nat) : Prop :=
  (forall k, (k < n)%nat -> (RunSweep.now env k < end_time env config)%Q)
  /\ (end_time env config <= RunSweep.now env n)%Q.

(** [time.sleep(secs)] returns: the length is not negative and within
    what the clock type holds. *)
Definition sleeps (env : RunSweep.CollectEnv) (secs : Z) : Prop :=
  0 <= secs <= RunSweep.max_sleep env.

(** The int [n] has a finite double. *)
Definition has_float (n : Z) : Prop := Z.abs n < 2 ^ 1024 - 2 ^ 970.

(** In rounds [lo] up to, not including, [hi], no probe of the list
    answers with a value on which the summary raises. *)
Definition readable (env : RunSweep.CollectEnv)
    (probes : list RunSweep.ProbeConfig) (lo hi : nat) : Prop :=
  forall n p m,
    (lo <= n < hi)%nat -> In p probes -> RunSweep.fetch env n p = Some m ->
    RunSweep.summary m = None.

(** The arguments with which neither the two sleeps nor the addition of
    line 163 raise. *)
Definition timed (env : RunSweep.CollectEnv) (config : RunSweep.SweepConfig)
    : Prop :=
  sleeps env (RunSweep.warmup_sec config)
  /\ sleeps env (RunSweep.poll_interval_sec config)
  /\ has_float (RunSweep.measurement_sec config).

End Spec.

(** * Concrete logs and configurations used as instances *)

Module Examples.
Import Analyze.
Local Open Scope string_scope.

Definition record (r f : string) (agg : option Aggregate)
    (cs : option Counters) : Line :=
  Object {| region := Some r; instance_family := Some f;
            metrics := Some {| aggregate := agg; counters := cs |} |}.

Definition agg_of (n p50 p99 p999 : Z) (v : Q) : option Aggregate :=
  Some {| count := Some n; p50_us := Some p50; p99_us := Some p99;
          p999_us := Some p999; cv := Some v |}.

Definition counters_of (r e m : Z) : option Counters :=
  Some {| c_reconnects := Some r; c_errors := Some e; c_messages := Some m |}.

(** Two records of one key, and the same two in the other order with other
    aggregates. *)
Definition two_records : list Line :=
  [record "eu-west-1" "c6i" (agg_of 10 900 1200 2000 (5 # 100))
     (counters_of 2 0 10);
   record "eu-west-1" "c6i" None (counters_of 1 3 50)].

Definition two_records_swapped : list Line :=
  [record "eu-west-1" "c6i" (agg_of 7 1 2 3 (1 # 100)) (counters_of 1 3 50);
   record "eu-west-1" "c6i" (agg_of 0 0 0 0 0) (counters_of 2 0 10)].

Definition two_records_loaded : MetricsMap * list nat :=
  match load_results two_records with
  | Ok r => r
  | Raise _ => ([], [])
  end.

(** A record whose only counter is a negative [reconnects]. *)
Definition negative_reconnects : Line :=
  record "eu-west-1" "c6i" None
    (Some {| c_reconnects := Some (-1); c_errors := None;
             c_messages := None |}).

(** A record with [count > 0] and no other field in its aggregate. *)
Definition count_only : LogObject :=
  {| region := Some "eu-west-1"; instance_family := Some "c6i";
     metrics :=
       Some {| aggregate :=
                 Some {| count := Some 3; p50_us := None; p99_us := None;
                         p999_us := None; cv := None |};
               counters := None |} |}.

(** A configuration given by its samples and reconnect count. *)
Definition config (r : string) (p99 p999 : list Z) (cvs : list Q)
    (rc : Z) : ConfigMetrics :=
  {| cm_region := r; cm_instance_family := "c6i";
     p50_samples := p99; p99_samples := p99; p999_samples := p999;
     cv_samples := cvs; reconnects := rc; errors := 0;
     message_count := 0 |}.

Definition slow : ConfigMetrics :=
  config "eu-west-1" [60000] [61000] [5 # 100] 0.





Definition four_samples : ConfigMetrics :=
  config "eu-west-1" [100; 110; 120; 130] [150; 150; 150; 150]
    [1 # 100; 1 # 100; 1 # 100; 1 # 100] 0.

Definition no_samples : ConfigMetrics := new_config "eu-west-2" "c6i".

(** A scipy whose rank test always raises ValueError. *)
Definition failing_stats : StatsLib :=
  {| mannwhitneyu_less := fun _ _ => None;
     bootstrap_diffs := fun _ _ => [] |}.

(** A log of three configurations: one that passes, one with the best
    latency and two reconnects, and one that never reported a sample. *)
Definition ranking_log : list Line :=
  [record "eu-north-1" "c6i" (agg_of 10 500 1000 1500 (1 # 100))
     (counters_of 2 0 10);
   record "eu-south-1" "c6i" (agg_of 0 0 0 0 0) (counters_of 0 0 0);
   Malformed;
   record "eu-west-1" "c6i" (agg_of 10 900 12000 16000 (5 # 100))
     (counters_of 0 0 10)].


Definition ranking : list ScoredConfig :=
  match analyze_scored ranking_log with
  | Ok scored => scored
  | Raise _ => []
  end.

Definition last_ranked : ScoredConfig :=
  last ranking (score_config [] (new_config "" "")).

(** A record without its instance family. *)
Definition no_family : LogObject :=
  {| region := Some "eu-west-1"; instance_family := None; metrics := None |}.

(** Records of two keys, interleaved: the third has count 0, the last a
    positive count and no other field. *)
Definition interleaved : list Line :=
  [record "eu-west-1" "c6i" (agg_of 10 900 1200 2000 (5 # 100))
     (counters_of 0 0 10);
   Malformed;
   record "eu-north-1" "c6i" (agg_of 0 1 2 3 (1 # 100)) None;
   record "eu-west-1" "c6i" (agg_of 5 800 1100 1900 (4 # 100)) None;
   Object count_only].

Definition interleaved_loaded : MetricsMap * list nat :=
  match load_results interleaved with
  | Ok r => r
  | Raise _ => ([], [])
  end.

Definition west : ConfigMetrics :=
  dict_get (lookup ("eu-west-1", "c6i") (fst interleaved_loaded))
    (new_config "" "").

(** A configuration that is better than [slow] on both medians. *)
Definition calm : ConfigMetrics :=
  config "eu-central-1" [100] [150] [1 # 100] 0.

Definition five_samples : ConfigMetrics :=
  config "eu-west-1" [100; 110; 120; 130; 140] [150; 150; 150; 150; 150]
    [1 # 100; 1 # 100; 1 # 100; 1 # 100; 1 # 100] 0.

(** Two configurations whose only record has a positive count and no
    latency field: every sample is the substituted 0. *)
Definition zero_latency_log : list Line :=
  [Object count_only;
   Object {| region := Some "eu-north-1"; instance_family := Some "c6i";
             metrics := metrics count_only |}].

Definition zero_latency_ranking : list ScoredConfig :=
  match analyze_scored zero_latency_log with
  | Ok scored => scored
  | Raise _ => []
  end.

(** A scipy whose rank test gives the p-value 0.003, with four resampled
    differences. *)
Definition fixed_stats : StatsLib :=
  {| mannwhitneyu_less := fun _ _ => Some (3 # 1000);
     bootstrap_diffs := fun _ _ => [5; -3; 10; 2]%Q |}.

(** One probe, and a clock that is read every ten seconds. *)
Definition probe : RunSweep.ProbeConfig :=
  {| RunSweep.region := "eu-west-1"; RunSweep.instance_family := "c6i";
     RunSweep.instance_ip := "10.0.0.1"; RunSweep.instance_id := "i-01";
     RunSweep.metrics_port := 9090 |}.

Definition every (sec : Z) (n : nat) : Q := inject_Z (sec * Z.of_nat n).

(** A probe that refuses the connection, then answers 503, then 200. *)
Definition late_starter : RunSweep.GateEnv :=
  {| RunSweep.elapsed_at := every 10;
     RunSweep.health := fun n _ =>
       match n with
       | O => RunSweep.RequestException
       | S O => RunSweep.Status 503
       | _ => RunSweep.Status 200
       end |}.

(** A probe that answers 204 No Content to every health request. *)
Definition no_content : RunSweep.GateEnv :=
  {| RunSweep.elapsed_at := every 10;
     RunSweep.health := fun _ _ => RunSweep.Status 204 |}.

(** A two-minute measurement polled every minute. *)
Definition two_minutes : RunSweep.SweepConfig :=
  {| RunSweep.experiment_id := "sweep-01"; RunSweep.warmup_sec := 0;
     RunSweep.measurement_sec := 120; RunSweep.poll_interval_sec := 60;
     RunSweep.output_dir := "results" |}.

Definition some_payload : Payload :=
  {| aggregate := agg_of 10 900 1200 2000 (5 # 100);
     counters := counters_of 0 0 10 |}.

(** An answer of the expected shape, and one that has neither of the two
    entries the analyzer reads. *)
Definition some_answer : RunSweep.Fetched :=
  RunSweep.Shaped
    {| RunSweep.body := some_payload; RunSweep.other_keys := [] |}.

Definition uptime_only : RunSweep.Fetched :=
  RunSweep.Shaped
    {| RunSweep.body := {| aggregate := None; counters := None |};
       RunSweep.other_keys := ["uptime"] |}.


(** The join of a relative directory and a file name on a POSIX system. *)
Definition posix_join (dir name : string) : string :=
  if dir =? "." then name else dir ++ "/" ++ name.

(** A clock read every [sec] seconds on which every fetch gives
    [answer]. *)
Definition polled (sec : Z) (answer : option RunSweep.Fetched)
    : RunSweep.CollectEnv :=
  {| RunSweep.start_time := 0; RunSweep.now := every sec;
     RunSweep.body_time := every sec;
     RunSweep.fetch := fun _ _ => answer;
     RunSweep.utcnow := fun _ _ => "2024-01-01T00:00:00";
     RunSweep.max_sleep := 9223372036;
     RunSweep.joinpath := posix_join |}.

(** The same clock three times: a probe that answers every fetch, one
    that never does, and one that answers with its uptime alone. *)
Definition busy : RunSweep.CollectEnv := polled 60 (Some some_answer).

Definition quiet : RunSweep.CollectEnv := polled 60 None.

Definition terse : RunSweep.CollectEnv := polled 60 (Some uptime_only).


(** A two-minute measurement after a warm-up of minus one second. *)
Definition negative_warmup : RunSweep.SweepConfig :=
  {| RunSweep.experiment_id := "sweep-01"; RunSweep.warmup_sec := -1;
     RunSweep.measurement_sec := 120; RunSweep.poll_interval_sec := 60;
     RunSweep.output_dir := "results" |}.

(** The outputs of a deployment of two probes, the second of which has
    no public address yet; and the same deployment once it has one. *)
Definition endpoint (r : string) (ip : option string) : RunSweep.Endpoint :=
  {| RunSweep.ep_region := Some r;
     RunSweep.ep_instance_family := Some "c6i";
     RunSweep.public_ip := ip;
     RunSweep.ep_instance_id := Some "i-01" |}.

Definition pending_outputs : RunSweep.Outputs :=
  {| RunSweep.probe_endpoints :=
       Some (Some [("west", endpoint "eu-west-1" (Some "10.0.0.1"));
                   ("north", endpoint "eu-north-1" None)]);
     RunSweep.out_experiment_id := None |}.

Definition ready_outputs : RunSweep.Outputs :=
  {| RunSweep.probe_endpoints :=
       Some (Some [("west", endpoint "eu-west-1" (Some "10.0.0.1"))]);
     RunSweep.out_experiment_id := Some (Some "sweep-01") |}.

(** A world in which every command succeeds and the probe answers 204 to
    every health request. *)
Definition stuck_world : RunSweep.World :=
  {| RunSweep.status := fun _ => 0;
     RunSweep.terraform_stdout := Some ready_outputs;
     RunSweep.utc_minute := "20240101-0000";
     RunSweep.gate_env := no_content;
     RunSweep.collect_env := busy;
     RunSweep.log_before := [] |}.

(** The same world with a probe that answers 200 from the third health
    request on. *)
Definition ready_world : RunSweep.World :=
  {| RunSweep.status := fun _ => 0;
     RunSweep.terraform_stdout := Some ready_outputs;
     RunSweep.utc_minute := "20240101-0000";
     RunSweep.gate_env := late_starter;
     RunSweep.collect_env := busy;
     RunSweep.log_before := [] |}.

(** A command line that asks for a collection followed by the
    teardown. *)
Definition collect_and_destroy : RunSweep.Args :=
  {| RunSweep.deploy := false; RunSweep.collect := true;
     RunSweep.destroy := true; RunSweep.phase := 1;
     RunSweep.warmup := 0; RunSweep.duration := 120;
     RunSweep.poll_interval := 60; RunSweep.args_output_dir := "results";
     RunSweep.ssh_key := None; RunSweep.args_experiment_id := None |}.

(** The probe [parse_probe_endpoints] builds for [endpoint r (Some ip)]. *)
Definition probe_at (r ip : string) : RunSweep.ProbeConfig :=
  {| RunSweep.region := r; RunSweep.instance_family := "c6i";
     RunSweep.instance_ip := ip; RunSweep.instance_id := "i-01";
     RunSweep.metrics_port := 9090 |}.

End Examples.

(** * Facts about the loader *)

Section Loader.
Import Analyze Spec.

Lemma key_eqb_eq (a b : Key) : key_eqb a b = true <-> a = b.
Proof.
  destruct a as [a1 a2], b as [b1 b2]; unfold key_eqb; simpl.
  rewrite andb_true_iff, !String.eqb_eq.
  split; [intros [-> ->]; reflexivity | intros H; inversion H; auto].
Qed.

Lemma key_eqb_refl (a : Key) : key_eqb a a = true.
Proof. apply key_eqb_eq; reflexivity. Qed.

Lemma key_eqb_neq (a b : Key) : a <> b -> key_eqb a b = false.
Proof.
  intros H; destruct (key_eqb a b) eqn:E; auto.
  apply key_eqb_eq in E; contradiction.
Qed.

Lemma lookup_update_same k f fresh ms :
  lookup k (update_config k f fresh ms)
  = Some (f (dict_get (lookup k ms) fresh)).
Proof.
  induction ms as [|[k' m] rest IH]; simpl.
  - rewrite key_eqb_refl; reflexivity.
  - destruct (key_eqb k' k) eqn:E; simpl; rewrite E; auto.
Qed.

Lemma lookup_update_other k k' f fresh ms :
  k <> k' -> lookup k' (update_config k f fresh ms) = lookup k' ms.
Proof.
  intros Hne; induction ms as [|[k0 m] rest IH]; simpl.
  - rewrite key_eqb_neq; auto.
  - destruct (key_eqb k0 k) eqn:E; simpl.
    + apply key_eqb_eq in E; subst k0. rewrite key_eqb_neq; auto.
    + rewrite IH; reflexivity.
Qed.

Lemma update_config_values (P : ConfigMetrics -> Prop) k f fresh ms :
  (forall m, P m -> P (f m)) -> P fresh ->
  Forall P (map snd ms) -> Forall P (map snd (update_config k f fresh ms)).
Proof.
  intros Hf Hfresh; induction ms as [|[k' m] rest IH]; simpl; intros H.
  - constructor; auto.
  - inversion H; subst. destruct (key_eqb k' k); simpl; constructor; auto.
Qed.

Lemma ingest_record ms o k p :
  record_of o = Some (k, p) ->
  ingest ms o
  = Ok (update_config k (ingest_step p) (new_config (fst k) (snd k)) ms).
Proof.
  unfold record_of, ingest; intros H.
  destruct (Analyze.region o), (Analyze.instance_family o), (metrics o);
    inversion H; subst; reflexivity.
Qed.

Lemma ingest_ok ms o ms' :
  ingest ms o = Ok ms' -> exists k p, record_of o = Some (k, p).
Proof.
  unfold record_of, ingest.
  destruct (Analyze.region o), (Analyze.instance_family o), (metrics o);
    simpl; intros H; try discriminate; eauto.
Qed.

Lemma ingest_raise ms ms2 o e :
  ingest ms o = Raise e -> ingest ms2 o = Raise e.
Proof.
  unfold ingest.
  destruct (Analyze.region o), (Analyze.instance_family o), (metrics o);
    simpl; intros H; try discriminate; auto.
Qed.

Lemma load_lines_skips lines : forall n n' ms w w',
  loaded_metrics (load_lines lines n ms w)
  = loaded_metrics (load_lines (filter decodes lines) n' ms w').
Proof.
  induction lines as [|l rest IH]; intros n n' ms w w'; simpl.
  - reflexivity.
  - destruct l as [| |o]; simpl.
    + apply IH.
    + reflexivity.
    + destruct (ingest ms o) as [ms1|e]; simpl; [apply IH | reflexivity].
Qed.

Lemma load_lines_warnings lines : forall n ms w ms' w',
  load_lines lines n ms w = Ok (ms', w') ->
  w' = rev w ++ malformed_numbers lines n.
Proof.
  induction lines as [|l rest IH]; intros n ms w ms' w'; simpl.
  - intros H; inversion H; subst; rewrite app_nil_r; reflexivity.
  - destruct l as [| |o]; simpl.
    + intros H; apply IH in H; subst w'; simpl.
      rewrite <- app_assoc; reflexivity.
    + discriminate.
    + destruct (ingest ms o) as [ms1|e]; simpl; [apply IH | discriminate].
Qed.

Lemma load_lines_loadable lines : forall n ms w,
  Forall loadable lines <->
  exists ms' w', load_lines lines n ms w = Ok (ms', w').
Proof.
  induction lines as [|l rest IH]; intros n ms w; simpl.
  - split; [eauto | constructor].
  - destruct l as [| |o]; simpl.
    + rewrite <- IH. split; intros H.
      * inversion H; auto.
      * constructor; [left; reflexivity | auto].
    + split.
      * intros H; inversion H as [|? ? [Hm | (o & k & p & Ho & _)]];
          discriminate.
      * intros (? & ? & H); discriminate.
    + split.
      * intros H; inversion H as [|? ? [Hm | (o' & k & p & Ho & Hr)] Hrest];
          subst; [discriminate|].
        inversion Ho; subst o'.
        rewrite (ingest_record ms o k p Hr); simpl. apply IH; auto.
      * intros (ms' & w' & H).
        destruct (ingest ms o) as [ms1|e] eqn:E; simpl in H; [|discriminate].
        destruct (ingest_ok _ _ _ E) as (k & p & Hr).
        constructor.
        -- right; eauto.
        -- apply (IH (S n) ms1 w); eauto.
Qed.

(** The loader's fold seen from one key. *)
Lemma load_lines_fold lines : forall n ms w ms' w',
  load_lines lines n ms w = Ok (ms', w') ->
  forall (A : Type) (view : option ConfigMetrics -> A)
         (step : A -> Key -> Payload -> A) (k : Key),
    (forall k0 p cur, k0 = k ->
       view (Some (ingest_step p
                     (dict_get cur (new_config (fst k0) (snd k0)))))
       = step (view cur) k0 p) ->
    (forall k0 p a, k0 <> k -> step a k0 p = a) ->
    view (lookup k ms')
    = fold_left
        (fun a l =>
           match l with
           | Object o =>
               match record_of o with
               | Some (k0, p) => step a k0 p
               | None => a
               end
           | _ => a
           end) lines (view (lookup k ms)).
Proof.
  induction lines as [|l rest IH]; intros n ms w ms' w' H A view step k Hs Ho;
    simpl in *.
  - inversion H; subst; reflexivity.
  - destruct l as [| |o]; simpl in *.
    + eapply IH; eauto.
    + discriminate.
    + destruct (ingest ms o) as [ms1|e] eqn:E; simpl in H; [|discriminate].
      destruct (ingest_ok _ _ _ E) as (k0 & p & Hr).
      rewrite (ingest_record ms o k0 p Hr) in E; inversion E; subst ms1.
      rewrite Hr.
      rewrite (IH _ _ _ _ _ H A view step k Hs Ho). f_equal.
      destruct (key_eqb k0 k) eqn:Ek.
      * apply key_eqb_eq in Ek; subst k0.
        rewrite lookup_update_same. apply Hs; reflexivity.
      * assert (k0 <> k) by (intros ->; rewrite key_eqb_refl in Ek; discriminate).
        rewrite lookup_update_other by assumption.
        symmetry; apply Ho; assumption.
Qed.

Lemma py_max_is_max a b : py_max a b = Z.max a b.
Proof. unfold py_max; destruct (a <? b) eqn:E; lia. Qed.

Lemma watermark_step c p m :
  watermark c (ingest_step p m)
  = Z.max (watermark c m)
      (dict_get (reported c (dict_get (counters p) empty_counters)) 0).
Proof.
  rewrite <- py_max_is_max.
  unfold ingest_step, append_samples.
  destruct (0 <? dict_get (count (dict_get (aggregate p) empty_aggregate)) 0);
    destruct c; reflexivity.
Qed.

Lemma max_from_zero_nonneg l : 0 <= fold_right Z.max 0 l.
Proof. induction l; simpl; lia. Qed.

Lemma max_from_zero_perm l l' :
  Permutation l l' -> fold_right Z.max 0 l = fold_right Z.max 0 l'.
Proof. induction 1; simpl; lia. Qed.

Lemma max_from_zero_bound l x : In x l -> x <= fold_right Z.max 0 l.
Proof.
  induction l as [|y l IH]; simpl; [tauto|].
  intros [->|H]; [lia | specialize (IH H); lia].
Qed.

Lemma max_from_zero_cases l :
  fold_right Z.max 0 l = 0 \/ In (fold_right Z.max 0 l) l.
Proof.
  induction l as [|y l IH]; simpl; [left; reflexivity|].
  destruct (Z.max_spec y (fold_right Z.max 0 l)) as [[_ ->]|[_ ->]];
    [tauto | right; left; reflexivity].
Qed.

Lemma max_from_zero_attained l :
  (exists v, In v l /\ 0 <= v) -> is_max_of (fold_right Z.max 0 l) l.
Proof.
  intros (v & Hin & Hv). split; [|apply max_from_zero_bound].
  destruct (max_from_zero_cases l) as [E|H]; [|assumption].
  pose proof (max_from_zero_bound l v Hin) as B.
  assert (v = 0) by lia. subst v. rewrite E. assumption.
Qed.

Lemma counter_fold c k lines : forall a, 0 <= a ->
  fold_left
    (fun a l =>
       match l with
       | Object o =>
           match record_of o with
           | Some (k0, p) =>
               if key_eqb k0 k
               then Z.max a
                      (dict_get
                         (reported c (dict_get (counters p) empty_counters))
                         0)
               else a
           | None => a
           end
       | _ => a
       end) lines a
  = Z.max a (fold_right Z.max 0 (counter_values c k lines)).
Proof.
  unfold counter_values.
  induction lines as [|l rest IH]; intros a Ha; simpl.
  - lia.
  - pose proof (max_from_zero_nonneg (flat_map (line_counter c k) rest)) as N.
    destruct l as [| |o]; simpl; try (rewrite IH by lia; lia).
    destruct (record_of o) as [[k0 p]|]; simpl; [|rewrite IH by lia; lia].
    destruct (key_eqb k0 k); simpl; [|rewrite IH by lia; lia].
    rewrite IH by lia.
    destruct (counters p) as [cs|]; simpl.
    + destruct (reported c cs); simpl; lia.
    + destruct c; simpl; lia.
Qed.

Lemma load_results_counter lines ms warned c k m :
  load_results lines = Ok (ms, warned) -> lookup k ms = Some m ->
  watermark c m = fold_right Z.max 0 (counter_values c k lines).
Proof.
  intros H Hk. unfold load_results in H.
  pose proof (load_lines_fold lines _ _ _ _ _ H Z
                (fun cur => match cur with
                            | Some m => watermark c m
                            | None => 0
                            end)
                (fun a k0 p =>
                   if key_eqb k0 k
                   then Z.max a
                          (dict_get
                             (reported c
                                (dict_get (counters p) empty_counters)) 0)
                   else a) k) as F.
  rewrite Hk in F. simpl in F. rewrite F.
  - rewrite counter_fold by lia.
    pose proof (max_from_zero_nonneg (counter_values c k lines)). lia.
  - intros k0 p cur ->. rewrite key_eqb_refl, watermark_step.
    destruct cur; simpl; [reflexivity | destruct c; reflexivity].
  - intros k0 p a Hne. rewrite key_eqb_neq by assumption. reflexivity.
Qed.

Lemma load_results_has_key lines ms warned k :
  load_results lines = Ok (ms, warned) ->
  (exists m, lookup k ms = Some m) <->
  (exists l, In l lines /\ line_key l = Some k).
Proof.
  intros H. unfold load_results in H.
  pose proof (load_lines_fold lines _ _ _ _ _ H bool
                (fun cur => match cur with Some _ => true | None => false end)
                (fun a k0 p => if key_eqb k0 k then true else a) k) as F.
  simpl in F.
  assert (G : forall b,
    fold_left
      (fun a l =>
         match l with
         | Object o =>
             match record_of o with
             | Some (k0, p) => if key_eqb k0 k then true else a
             | None => a
             end
         | _ => a
         end) lines b = true
    <-> b = true \/ exists l, In l lines /\ line_key l = Some k).
  { clear. induction lines as [|l rest IH]; intros b; simpl.
    - split; [auto | intros [?|(l & [] & _)]; auto].
    - rewrite IH. split.
      + intros [Hb|(l0 & Hin & Hl)]; [|right; eauto].
        destruct l as [| |o]; auto.
        unfold line_key.
        destruct (record_of o) as [[k0 p]|] eqn:E; auto.
        destruct (key_eqb k0 k) eqn:Ek; auto.
        apply key_eqb_eq in Ek; subst k0.
        right; exists (Object o); split; [left; reflexivity|].
        simpl; rewrite E; reflexivity.
      + intros [Hb|(l0 & [<-|Hin] & Hl)].
        * left. subst b. destruct l as [| |o]; auto.
          destruct (record_of o) as [[k0 p]|]; auto.
          destruct (key_eqb k0 k); auto.
        * left. destruct l as [| |o]; simpl in Hl; try discriminate.
          destruct (record_of o) as [[k0 p]|]; simpl in Hl; [|discriminate].
          inversion Hl; subst k0. rewrite key_eqb_refl; reflexivity.
        * right; eauto. }
  assert (F0 : match lookup k ms with Some _ => true | None => false end
              = fold_left
                  (fun a l =>
                     match l with
                     | Object o =>
                         match record_of o with
                         | Some (k0, p) => if key_eqb k0 k then true else a
                         | None => a
                         end
                     | _ => a
                     end) lines false).
  { apply F.
    - intros k0 p cur ->. rewrite key_eqb_refl. reflexivity.
    - intros k0 p a Hne. rewrite key_eqb_neq by assumption. reflexivity. }
  clear F. rename F0 into F.
  destruct (lookup k ms) as [m|] eqn:E.
  - split; [intros _|eauto].
    symmetry in F. apply G in F. destruct F as [F|F]; [discriminate|exact F].
  - split; [intros (m & Hm); discriminate|].
    intros Hl. assert (X : false = true); [|discriminate].
    rewrite F. apply G. right; exact Hl.
Qed.

Lemma lookup_in k ms m : lookup k ms = Some m -> In m (map snd ms).
Proof.
  induction ms as [|[k' m'] rest IH]; simpl; [discriminate|].
  destruct (key_eqb k' k); intros H; [inversion H; auto | auto].
Qed.

Lemma append_samples_spec agg m :
  0 < dict_get (count agg) 0 ->
  p50_samples (append_samples agg m)
  = p50_samples m ++ [dict_get (p50_us agg) 0]
  /\ p99_samples (append_samples agg m)
     = p99_samples m ++ [dict_get (p99_us agg) 0]
  /\ p999_samples (append_samples agg m)
     = p999_samples m ++ [dict_get (p999_us agg) 0]
  /\ cv_samples (append_samples agg m)
     = cv_samples m ++ [dict_get (cv agg) 0%Q].
Proof.
  intros H. unfold append_samples.
  destruct (0 <? dict_get (count agg) 0) eqn:E; [simpl; auto | lia].
Qed.

Lemma ingest_step_aligned p m : aligned m -> aligned (ingest_step p m).
Proof.
  unfold aligned, ingest_step, append_samples; intros (H1 & H2 & H3).
  destruct (0 <? dict_get (count (dict_get (aggregate p) empty_aggregate)) 0);
    simpl; [rewrite !length_app; simpl; lia | auto].
Qed.

Lemma new_config_aligned r f : aligned (new_config r f).
Proof. unfold aligned; simpl; auto. Qed.

Lemma load_lines_aligned lines : forall n ms w ms' w',
  Forall aligned (map snd ms) ->
  load_lines lines n ms w = Ok (ms', w') ->
  Forall aligned (map snd ms').
Proof.
  induction lines as [|l rest IH]; intros n ms w ms' w' Hal H; simpl in H.
  - inversion H; subst; assumption.
  - destruct l as [| |o]; [eauto | discriminate |].
    destruct (ingest ms o) as [ms1|e] eqn:E; simpl in H; [|discriminate].
    destruct (ingest_ok _ _ _ E) as (k & p & Hr).
    rewrite (ingest_record ms o k p Hr) in E; inversion E; subst ms1.
    eapply IH; [|exact H].
    apply update_config_values;
      [apply ingest_step_aligned | apply new_config_aligned | assumption].
Qed.

Lemma load_results_aligned lines ms warned :
  load_results lines = Ok (ms, warned) -> Forall aligned (map snd ms).
Proof. intros H; eapply load_lines_aligned; [|exact H]; constructor. Qed.

Lemma without_aggregate_key l : line_key (without_aggregate l) = line_key l.
Proof.
  destruct l as [| |o]; try reflexivity. unfold line_key, record_of; simpl.
  destruct (Analyze.region o), (Analyze.instance_family o), (metrics o);
    reflexivity.
Qed.

Lemma without_aggregate_counter c k l :
  line_counter c k (without_aggregate l) = line_counter c k l.
Proof.
  destruct l as [| |o]; try reflexivity. unfold line_counter, record_of; simpl.
  destruct (Analyze.region o), (Analyze.instance_family o), (metrics o);
    reflexivity.
Qed.

Lemma without_aggregate_loadable l :
  loadable (without_aggregate l) <-> loadable l.
Proof.
  unfold loadable. destruct l as [| |[r f mt]]; simpl; try tauto.
  split; intros [H|(o' & k & p & Ho & Hr)]; try discriminate; right;
    inversion Ho; subst o'; clear Ho; unfold record_of in *; simpl in *;
    destruct r, f, mt; simpl in *; try discriminate;
    eexists; eexists; eexists; split; reflexivity.
Qed.

Lemma counter_values_without_aggregate c k lines :
  counter_values c k (map without_aggregate lines) = counter_values c k lines.
Proof.
  unfold counter_values. induction lines as [|l rest IH]; simpl; auto.
  rewrite without_aggregate_counter, IH; reflexivity.
Qed.

Lemma counter_values_perm c k lines lines' :
  Permutation (map without_aggregate lines) (map without_aggregate lines') ->
  Permutation (counter_values c k lines) (counter_values c k lines').
Proof.
  intros H.
  rewrite <- (counter_values_without_aggregate c k lines).
  rewrite <- (counter_values_without_aggregate c k lines').
  unfold counter_values. apply Permutation_flat_map; assumption.
Qed.

Lemma loadable_perm lines lines' :
  Permutation (map without_aggregate lines) (map without_aggregate lines') ->
  Forall loadable lines -> Forall loadable lines'.
Proof.
  intros HP H. rewrite Forall_forall in *. intros l Hl.
  apply without_aggregate_loadable.
  assert (Hin : In (without_aggregate l) (map without_aggregate lines)).
  { eapply Permutation_in; [symmetry; exact HP | apply in_map; exact Hl]. }
  apply in_map_iff in Hin. destruct Hin as (l0 & E & Hl0).
  rewrite <- E. apply without_aggregate_loadable. auto.
Qed.

Lemma has_key_perm lines lines' k :
  Permutation (map without_aggregate lines) (map without_aggregate lines') ->
  (exists l, In l lines /\ line_key l = Some k) ->
  exists l, In l lines' /\ line_key l = Some k.
Proof.
  intros HP (l & Hl & Hk).
  assert (Hin : In (without_aggregate l) (map without_aggregate lines')).
  { eapply Permutation_in; [exact HP | apply in_map; exact Hl]. }
  apply in_map_iff in Hin. destruct Hin as (l0 & E & Hl0).
  exists l0; split; [assumption|].
  rewrite <- without_aggregate_key, E, without_aggregate_key; assumption.
Qed.

(** Every invariant of the loop body is an invariant of the load. *)
Lemma load_lines_invariant (Inv : MetricsMap -> Prop) :
  (forall ms k p,
     Inv ms ->
     Inv (update_config k (ingest_step p) (new_config (fst k) (snd k)) ms)) ->
  forall lines n ms w ms' w',
    Inv ms -> load_lines lines n ms w = Ok (ms', w') -> Inv ms'.
Proof.
  intros Hstep.
  induction lines as [|l rest IH]; intros n ms w ms' w' Hi H; simpl in H.
  - inversion H; subst; assumption.
  - destruct l as [| |o]; [eauto | discriminate |].
    destruct (ingest ms o) as [ms1|e] eqn:E; simpl in H; [|discriminate].
    destruct (ingest_ok _ _ _ E) as (k & p & Hr).
    rewrite (ingest_record ms o k p Hr) in E; inversion E; subst ms1.
    eapply IH; [|exact H]. apply Hstep; assumption.
Qed.

Lemma update_config_keys k f fresh ms x :
  In x (map fst (update_config k f fresh ms)) -> x = k \/ In x (map fst ms).
Proof.
  induction ms as [|[k' m] rest IH]; simpl.
  - intros [<-|[]]; auto.
  - destruct (key_eqb k' k); simpl; intros [H|H]; auto.
    destruct (IH H); auto.
Qed.

Lemma update_config_nodup k f fresh ms :
  NoDup (map fst ms) -> NoDup (map fst (update_config k f fresh ms)).
Proof.
  induction ms as [|[k' m] rest IH]; simpl; intros H.
  - constructor; [intros [] | constructor].
  - inversion H as [|? ? Hnin Hnd]; subst.
    destruct (key_eqb k' k) eqn:E; simpl; [constructor; assumption|].
    constructor; [|auto].
    intros Hin. apply update_config_keys in Hin. destruct Hin as [->|Hin].
    + rewrite key_eqb_refl in E; discriminate.
    + contradiction.
Qed.

Lemma ingest_step_key p m : key (ingest_step p m) = key m.
Proof.
  unfold ingest_step, append_samples, key.
  destruct (0 <? dict_get (count (dict_get (aggregate p) empty_aggregate)) 0);
    reflexivity.
Qed.

Lemma update_config_keyed k f fresh ms :
  (forall m, key (f m) = key m) -> key fresh = k ->
  Forall (fun km => key (snd km) = fst km) ms ->
  Forall (fun km => key (snd km) = fst km) (update_config k f fresh ms).
Proof.
  intros Hf Hfresh. induction ms as [|[k' m] rest IH]; simpl; intros H.
  - constructor; [simpl; rewrite Hf; assumption | constructor].
  - apply Forall_cons_iff in H. destruct H as [Hk Hrest]. simpl in Hk.
    destruct (key_eqb k' k); constructor; simpl; auto.
    rewrite Hf; assumption.
Qed.

Lemma load_results_keys lines ms warned :
  load_results lines = Ok (ms, warned) -> NoDup (map key (map snd ms)).
Proof.
  intros H.
  assert (I : NoDup (map fst ms)
              /\ Forall (fun km => key (snd km) = fst km) ms).
  { refine (load_lines_invariant
              (fun ms => NoDup (map fst ms)
                         /\ Forall (fun km => key (snd km) = fst km) ms)
              _ lines 1%nat [] [] ms warned _ H); [|split; constructor].
    intros ms0 k p [I1 I2]. split.
    - apply update_config_nodup; assumption.
    - apply update_config_keyed;
        [apply ingest_step_key | destruct k; reflexivity | assumption]. }
  destruct I as [I1 I2].
  replace (map key (map snd ms)) with (map fst ms); [assumption|].
  clear -I2. induction I2 as [|[k m] rest Hk _ IH]; simpl; [reflexivity|].
  simpl in Hk. rewrite Hk, IH. reflexivity.
Qed.

End Loader.

(** * The loader: statements *)

Section LoaderClaims.
Import Analyze Spec.

(** C6, as amended.  A line on which [json.loads] raises a decode error is
    skipped with a warning and never ends the load: loading a file and
    loading it with those lines taken out give the same mapping (or the same
    exception, raised by some other line); the warnings name exactly the
    numbers of those lines; and a file in which every other line is a
    record with its three keys always loads.  The claim does not extend to
    a line that decodes to something that is not an object. *)
Theorem malformed_lines_are_isolated (lines : list Line) :
  loaded_metrics (load_results lines)
  = loaded_metrics (load_results (filter decodes lines))
  /\ (forall ms warned,
        load_results lines = Ok (ms, warned) ->
        warned = malformed_numbers lines 1)
  /\ (Forall loadable lines ->
      exists ms, load_results lines = Ok (ms, malformed_numbers lines 1)).
Proof.
  split; [apply load_lines_skips|]. split.
  - intros ms warned H. apply load_lines_warnings in H. exact H.
  - intros H. apply (load_lines_loadable lines 1%nat [] []) in H.
    destruct H as (ms & w & H). exists ms.
    rewrite (load_lines_warnings _ _ _ _ _ _ H) in H. exact H.
Qed.

(** C6, the claim as stated fails: a line holding valid JSON that is not an
    object (the line [42], say) is not skipped.  Subscripting the decoded
    value raises TypeError, which the loop does not catch, so the load
    ends there, while the same file without that line loads. *)
Lemma non_object_line_ends_the_load :
  is_json_object NotAnObject = false
  /\ load_results [NotAnObject]
     = Raise (TypeError "object is not subscriptable")
  /\ load_results (filter is_json_object [NotAnObject]) = Ok ([], []).
Proof. repeat split. Qed.

(** C7, as amended.  After a load, each counter of each key is the maximum
    of 0 and the values of that counter present in the records of the key;
    it is the maximum value present as soon as one of them is not negative.
    The counters are the same for every file that has the same lines in
    another order, and whatever the [aggregate] entries (and so the
    [count]s) of the records are. *)
Theorem counters_are_watermarks (lines lines' : list Line)
    (ms : MetricsMap) (warned : list nat) :
  Permutation (map without_aggregate lines) (map without_aggregate lines') ->
  load_results lines = Ok (ms, warned) ->
  exists ms' warned',
    load_results lines' = Ok (ms', warned')
    /\ forall k m, lookup k ms = Some m ->
       exists m', lookup k ms' = Some m'
       /\ forall c,
            watermark c m = fold_right Z.max 0 (counter_values c k lines)
            /\ watermark c m' = watermark c m
            /\ ((exists v, In v (counter_values c k lines) /\ 0 <= v) ->
                is_max_of (watermark c m) (counter_values c k lines)).
Proof.
  intros HP H.
  assert (HL : Forall loadable lines).
  { apply (load_lines_loadable lines 1%nat [] []). eauto. }
  pose proof (loadable_perm _ _ HP HL) as HL'.
  apply (load_lines_loadable lines' 1%nat [] []) in HL'.
  destruct HL' as (ms' & warned' & H').
  exists ms', warned'. split; [exact H'|].
  intros k m Hk.
  assert (Hk' : exists m', lookup k ms' = Some m').
  { apply (load_results_has_key lines' ms' warned' k H').
    eapply has_key_perm; [exact HP|].
    apply (load_results_has_key lines ms warned k H). eauto. }
  destruct Hk' as (m' & Hk'). exists m'. split; [exact Hk'|].
  intros c.
  pose proof (load_results_counter _ _ _ c _ _ H Hk) as E.
  pose proof (load_results_counter _ _ _ c _ _ H' Hk') as E'.
  split; [exact E|]. split.
  - rewrite E, E'. symmetry. apply max_from_zero_perm.
    apply counter_values_perm; assumption.
  - intros Hv. rewrite E. apply max_from_zero_attained; assumption.
Qed.

Lemma counters_are_watermarks_witness :
  Permutation (map without_aggregate Examples.two_records)
    (map without_aggregate Examples.two_records_swapped)
  /\ load_results Examples.two_records
     = Ok (fst Examples.two_records_loaded, snd Examples.two_records_loaded)
  /\ exists ms' warned',
       load_results Examples.two_records_swapped = Ok (ms', warned')
       /\ forall k m,
            lookup k (fst Examples.two_records_loaded) = Some m ->
            exists m', lookup k ms' = Some m'
            /\ forall c,
                 watermark c m
                 = fold_right Z.max 0
                     (counter_values c k Examples.two_records)
                 /\ watermark c m' = watermark c m
                 /\ ((exists v,
                        In v (counter_values c k Examples.two_records)
                        /\ 0 <= v) ->
                     is_max_of (watermark c m)
                       (counter_values c k Examples.two_records)).
Proof.
  assert (HP : Permutation (map without_aggregate Examples.two_records)
                 (map without_aggregate Examples.two_records_swapped))
    by apply perm_swap.
  assert (HL : load_results Examples.two_records
               = Ok (fst Examples.two_records_loaded,
                     snd Examples.two_records_loaded))
    by reflexivity.
  split; [exact HP|]. split; [exact HL|].
  exact (counters_are_watermarks _ _ _ _ HP HL).
Defined.

(** C7, the claim as stated fails on a negative counter: the file whose one
    record reports [reconnects = -1] loads to a [reconnects] of 0, the
    dataclass default, which is not the maximum value present. *)
Lemma negative_counter_is_floored_at_zero :
  (exists m,
     loaded_metrics (load_results [Examples.negative_reconnects])
     = Ok [(("eu-west-1", "c6i")%string, m)]
     /\ watermark Reconnects m = 0)
  /\ counter_values Reconnects ("eu-west-1", "c6i")%string
       [Examples.negative_reconnects] = [-1]
  /\ ~ is_max_of 0 [-1].
Proof.
  split; [eexists; split; reflexivity|]. split; [reflexivity|].
  intros [[H|[]] _]; discriminate.
Qed.

End LoaderClaims.

(** * Facts about the scoring engine *)

Section Scoring.
Import Analyze Spec.

Lemma Qlt_bool_iff x y : Qlt_bool x y = true <-> (x < y)%Q.
Proof.
  unfold Qlt_bool. rewrite negb_true_iff. split.
  - intros H. apply Qnot_le_lt. intros C.
    apply Qle_bool_iff in C. congruence.
  - intros H. destruct (Qle_bool y x) eqn:E; auto.
    apply Qle_bool_iff in E. exfalso. apply (Qlt_not_le _ _ H E).
Qed.

Lemma Qlt_bool_false x y : Qlt_bool x y = false <-> (y <= x)%Q.
Proof.
  unfold Qlt_bool. rewrite negb_false_iff. apply Qle_bool_iff.
Qed.

Lemma nonempty_true {A : Type} (l : list A) : nonempty l = true <-> l <> [].
Proof. destruct l; simpl; split; congruence. Qed.

(** The boolean tests of the code as propositions. *)
Ltac reflect_tests :=
  repeat match goal with
         | H : Qlt_bool _ _ = true |- _ => apply Qlt_bool_iff in H
         | H : Qlt_bool _ _ = false |- _ => apply Qlt_bool_false in H
         | H : (_ <? _) = true |- _ => apply Z.ltb_lt in H
         | H : (_ <? _) = false |- _ => apply Z.ltb_ge in H
         end.

Ltac absurd_lt :=
  match goal with
  | L : (?a < ?b)%Q, G : (?b <= ?a)%Q |- _ =>
      exfalso; exact (Qlt_not_le _ _ L G)
  end.

(** The three parts of [check_hard_constraints_spec], once the five tests
    are decided. *)
Ltac solve_verdict :=
  split;
  [ first [ discriminate | intros _; tauto ]
  | first [ intros _; reflexivity
          | intros [C|[C|(C1 & C2 & C3)]]; first [ absurd_lt | lia ] ] ].

Ltac solve_skipped :=
  let Hn := fresh in
  let Hin := fresh in
  intros Hn r Hin;
  repeat (destruct Hin as [Hin|Hin]; try discriminate);
  first [ contradiction | apply Hn; split; assumption ].

Ltac solve_absent :=
  let Hin := fresh in
  intros Hin;
  repeat (destruct Hin as [Hin|Hin]; try discriminate);
  contradiction.

(** The hard constraints, read off the three tests. *)
Lemma check_hard_constraints_spec m :
  p99_samples m <> [] ->
  (fst (check_hard_constraints m) = false <->
   (50000 < median_p99 m)%Q
   \/ 1 < reconnects m
   \/ ((0 < median_p99 m)%Q /\ (0 < median_p999 m)%Q
       /\ (3 < median_p999 m / median_p99 m)%Q))
  /\ (~ ((0 < median_p99 m)%Q /\ (0 < median_p999 m)%Q) ->
      forall r, ~ In (RatioOverLimit r) (snd (check_hard_constraints m)))
  /\ ~ In NoDataCollected (snd (check_hard_constraints m)).
Proof.
  intros Hne. apply nonempty_true in Hne.
  unfold check_hard_constraints, median_p99, median_p999.
  rewrite Hne; simpl negb; cbv iota.
  set (p99 := median_z (p99_samples m)).
  set (p999 := if nonempty (p999_samples m)
               then median_z (p999_samples m) else 0%Q).
  destruct (Qlt_bool 50000 p99) eqn:E1;
    destruct (1 <? reconnects m) eqn:E2;
    destruct (Qlt_bool 0 p99) eqn:E3;
    destruct (Qlt_bool 0 p999) eqn:E4;
    destruct (Qlt_bool 3 (p999 / p99)) eqn:E5;
    simpl; reflect_tests;
    (split; [solve_verdict | split; [solve_skipped | solve_absent]]).
Qed.


(** ** The insertion sort *)

Lemma insert_by_perm {A : Type} (ltb : A -> A -> bool) x l :
  Permutation (x :: l) (insert_by ltb x l).
Proof.
  induction l as [|y rest IH]; simpl; [reflexivity|].
  destruct (ltb y x); [|reflexivity].
  rewrite perm_swap. apply perm_skip. exact IH.
Qed.

Lemma sort_by_perm {A : Type} (ltb : A -> A -> bool) l :
  Permutation l (sort_by ltb l).
Proof.
  induction l as [|x rest IH]; simpl; [reflexivity|].
  rewrite <- insert_by_perm. apply perm_skip. exact IH.
Qed.


Lemma sort_by_forall {A : Type} (ltb : A -> A -> bool) (P : A -> Prop) l :
  Forall P l -> Forall P (sort_by ltb l).
Proof. intros H. eapply Permutation_Forall; [apply sort_by_perm | exact H]. Qed.

Lemma sort_by_in {A : Type} (ltb : A -> A -> bool) l x :
  In x (sort_by ltb l) <-> In x l.
Proof.
  split; apply Permutation_in;
    [symmetry; apply sort_by_perm | apply sort_by_perm].
Qed.

(** Sortedness, for keys on which "not smaller" is transitive and [ltb]
    is asymmetric: the keys among which no nan occurs. *)
Section Sorted.
Variable A : Type.
Variable ltb : A -> A -> bool.
Variable ok : A -> Prop.
Hypothesis ltb_asym :
  forall a b, ok a -> ok b -> ltb a b = true -> ltb b a = false.
Hypothesis geb_trans :
  forall a b c, ok a -> ok b -> ok c ->
    ltb b a = false -> ltb c b = false -> ltb c a = false.

Let le (a b : A) : Prop := ltb b a = false.

Lemma insert_by_sorted x l :
  ok x -> Forall ok l -> StronglySorted le l ->
  StronglySorted le (insert_by ltb x l).
Proof.
  intros Hx Hok Hs. induction Hs as [|y rest Hrest IH Hy]; simpl.
  - constructor; constructor.
  - inversion Hok as [|? ? Hoky Hokr]; subst.
    destruct (ltb y x) eqn:E.
    + constructor; [apply IH; assumption|].
      eapply Permutation_Forall; [apply insert_by_perm|].
      constructor; [apply ltb_asym; assumption | exact Hy].
    + constructor; [constructor; assumption|].
      constructor; [exact E|].
      rewrite Forall_forall in *. intros z Hz.
      apply (geb_trans x y z); [assumption | assumption | | exact E |].
      * apply Hokr; exact Hz.
      * apply Hy; exact Hz.
Qed.

Lemma sort_by_sorted l : Forall ok l -> StronglySorted le (sort_by ltb l).
Proof.
  induction 1 as [|x rest Hx Hrest IH]; simpl; [constructor|].
  apply insert_by_sorted; [assumption | apply sort_by_forall; assumption | exact IH].
Qed.

End Sorted.

Lemma strongly_sorted_before {A : Type} (R : A -> A -> Prop) l a b :
  StronglySorted R l -> before a b l -> R a b.
Proof.
  intros Hs (l1 & l2 & l3 & ->).
  induction l1 as [|x l1 IH]; simpl in Hs.
  - inversion Hs as [|? ? _ Hall]; subst.
    rewrite Forall_forall in Hall. apply Hall.
    apply in_or_app; right; left; reflexivity.
  - inversion Hs; subst. apply IH; assumption.
Qed.



(** ** Medians, minima and maxima *)



Lemma py_max_list_ge (l : list Q) : forall x,
  (x <= py_max_list x l)%Q
  /\ forall y, In y l -> (y <= py_max_list x l)%Q.
Proof.
  unfold py_max_list.
  induction l as [|b rest IH]; intros x; simpl.
  - split; [apply Qle_refl | tauto].
  - destruct (IH (if Qlt_bool x b then b else x)) as [H1 H2].
    assert (Hx : (x <= (if Qlt_bool x b then b else x))%Q
                 /\ (b <= (if Qlt_bool x b then b else x))%Q).
    { destruct (Qlt_bool x b) eqn:E; reflect_tests; split;
        try apply Qle_refl; try assumption.
      apply Qlt_le_weak; assumption. }
    destruct Hx as [Hx Hb]. split.
    + eapply Qle_trans; eassumption.
    + intros y [<-|Hy]; [eapply Qle_trans; eassumption | auto].
Qed.

Lemma py_min_list_le (l : list Q) : forall x,
  (py_min_list x l <= x)%Q
  /\ forall y, In y l -> (py_min_list x l <= y)%Q.
Proof.
  unfold py_min_list.
  induction l as [|b rest IH]; intros x; simpl.
  - split; [apply Qle_refl | tauto].
  - destruct (IH (if Qlt_bool b x then b else x)) as [H1 H2].
    assert (Hx : ((if Qlt_bool b x then b else x) <= x)%Q
                 /\ ((if Qlt_bool b x then b else x) <= b)%Q).
    { destruct (Qlt_bool b x) eqn:E; reflect_tests; split;
        try apply Qle_refl; try assumption.
      apply Qlt_le_weak; assumption. }
    destruct Hx as [Hx Hb]. split.
    + eapply Qle_trans; eassumption.
    + intros y [<-|Hy]; [eapply Qle_trans; eassumption | auto].
Qed.

Lemma norm_p99_in_unit p lo hi :
  (lo <= p)%Q -> (p <= hi)%Q -> in_unit (norm_p99 p lo hi).
Proof.
  intros H1 H2. unfold norm_p99, in_unit.
  destruct (Qlt_bool lo hi) eqn:E; reflect_tests; [|split; lra].
  split.
  - apply Qle_shift_div_l; lra.
  - apply Qle_shift_div_r; lra.
Qed.


Lemma in_all_p99 m all :
  In m all -> p99_samples m <> [] -> In (median_z (p99_samples m)) (all_p99 all).
Proof.
  intros Hin Hne. unfold all_p99.
  apply (in_map (fun x => median_z (p99_samples x))).
  apply filter_In. split; [assumption | apply nonempty_true; assumption].
Qed.

Lemma in_all_cv m all :
  In m all -> cv_samples m <> [] -> In (median (cv_samples m)) (all_cv all).
Proof.
  intros Hin Hne. unfold all_cv.
  apply (in_map (fun x => median (cv_samples x))).
  apply filter_In. split; [assumption | apply nonempty_true; assumption].
Qed.

(** With a p99 and a cv sample of its own, a member of the set is
    normalized, and its p99 value lies in the unit interval. *)
Lemma normalize_member m all :
  In m all -> p99_samples m <> [] -> cv_samples m <> [] ->
  exists np max_cv,
    normalize m all
    = Some (np, norm_cv (Some (median (cv_samples m))) max_cv)
    /\ in_unit np
    /\ (median (cv_samples m) <= max_cv)%Q.
Proof.
  intros Hin Hp Hc.
  pose proof (in_all_p99 _ _ Hin Hp) as Ip.
  pose proof (in_all_cv _ _ Hin Hc) as Ic.
  unfold normalize.
  destruct (all_p99 all) as [|p0 ps]; [contradiction|].
  destruct (all_cv all) as [|c0 cs]; [contradiction|].
  assert (Ec : np_median (cv_samples m) = Some (median (cv_samples m))).
  { destruct (cv_samples m); [congruence | reflexivity]. }
  rewrite Ec.
  eexists; eexists; split; [reflexivity|].
  destruct (py_max_list_ge ps p0) as [M1 M2].
  destruct (py_min_list_le ps p0) as [N1 N2].
  destruct (py_max_list_ge cs c0) as [C1 C2].
  split.
  - apply norm_p99_in_unit; destruct Ip as [<-|Ip]; auto.
  - destruct Ic as [<-|Ic]; auto.
Qed.


Lemma compute_score_normalized m all np nc :
  p99_samples m <> [] -> normalize m all = Some (np, Some nc) ->
  exists d,
    compute_score m all
    = (Fin ((7 # 10) * np + (3 # 10) * nc)%Q, Stats d)
    /\ p99_median_us d = py_int (median_z (p99_samples m)).
Proof.
  intros Hp Hn. unfold compute_score.
  apply nonempty_true in Hp. rewrite Hp, Hn. simpl.
  eexists; split; reflexivity.
Qed.

(** ** The order of the sort keys *)

Lemma float_not_lt_iff x y :
  x <> NaN -> y <> NaN ->
  ((if float_eqb y x then false else float_ltb y x) = false
   <-> float_le x y).
Proof.
  intros Hx Hy. destruct x as [p| |], y as [q| |]; simpl; try congruence.
  - destruct (Qeq_bool q p) eqn:E.
    + apply Qeq_bool_iff in E. split; [intros _; lra | reflexivity].
    + rewrite Qlt_bool_false. tauto.
  - split; [intros _; discriminate | reflexivity].
  - split; [discriminate | tauto].
  - split; [intros _; discriminate | reflexivity].
Qed.

Lemma float_lt_le x y :
  (if float_eqb x y then false else float_ltb x y) = true -> float_le x y.
Proof.
  destruct x as [p| |], y as [q| |]; simpl; try discriminate.
  - destruct (Qeq_bool p q); [discriminate|].
    intros H. apply Qlt_bool_iff in H. apply Qlt_le_weak; assumption.
Qed.

Lemma float_le_trans x y z : float_le x y -> float_le y z -> float_le x z.
Proof.
  destruct x as [p| |], y as [q| |], z as [r| |]; simpl;
    try tauto; try (intros; discriminate).
  apply Qle_trans.
Qed.


Lemma key_ltb_false_iff a b :
  no_nan a -> no_nan b -> (key_ltb b a = false <-> key_le a b).
Proof.
  unfold no_nan, key_ltb, tuple_ltb, sort_key, key_le; simpl.
  intros Ha Hb. pose proof (float_not_lt_iff _ _ Ha Hb) as F.
  destruct (passes_constraints a), (passes_constraints b); simpl.
  - rewrite F. split; [auto | intros [[_ C]|[_ C]]; [discriminate | exact C]].
  - split; [auto | reflexivity].
  - split; [discriminate | intros [[C _]|[C _]]; discriminate].
  - rewrite F. split; [auto | intros [[C _]|[_ C]]; [discriminate | exact C]].
Qed.

Lemma key_ltb_true_le a b : key_ltb a b = true -> key_le a b.
Proof.
  unfold key_ltb, tuple_ltb, sort_key, key_le; simpl.
  destruct (passes_constraints a), (passes_constraints b); simpl;
    try discriminate; auto using float_lt_le.
Qed.

Lemma key_le_trans a b c : key_le a b -> key_le b c -> key_le a c.
Proof.
  unfold key_le.
  intros [[A1 A2]|[A1 A2]] [[B1 B2]|[B1 B2]]; try congruence.
  - left; split; congruence.
  - left; split; congruence.
  - right; split; [congruence | eapply float_le_trans; eassumption].
Qed.

Lemma sort_by_key_sorted l :
  Forall no_nan l -> StronglySorted key_le (sort_by key_ltb l).
Proof.
  intros H.
  assert (S : StronglySorted (fun a b => key_ltb b a = false)
                (sort_by key_ltb l)).
  { apply (sort_by_sorted _ key_ltb no_nan); [| |exact H].
    - intros a b Ha Hb Hlt. apply key_ltb_false_iff; auto.
      apply key_ltb_true_le; assumption.
    - intros a b c Ha Hb Hc H1 H2.
      apply key_ltb_false_iff; auto.
      apply key_ltb_false_iff in H1, H2; auto.
      eapply key_le_trans; eassumption. }
  pose proof (sort_by_forall key_ltb _ _ H) as Hall.
  revert S Hall. generalize (sort_by key_ltb l). clear.
  induction 1 as [|x rest Hs IH Hx]; intros Hall; constructor.
  - apply IH. inversion Hall; assumption.
  - inversion Hall as [|? ? Hnx Hnr]; subst.
    rewrite Forall_forall in *. intros y Hy.
    apply key_ltb_false_iff; auto.
Qed.

(** ** One entry of [scored] *)

Lemma score_config_fields all m :
  sc_metrics (score_config all m) = m
  /\ sc_region (score_config all m) = cm_region m
  /\ sc_instance_family (score_config all m) = cm_instance_family m
  /\ passes_constraints (score_config all m)
     = fst (check_hard_constraints m)
  /\ violations (score_config all m) = snd (check_hard_constraints m)
  /\ score (score_config all m) = fst (compute_score m all)
  /\ details (score_config all m) = snd (compute_score m all).
Proof.
  unfold score_config.
  destruct (check_hard_constraints m), (compute_score m all); simpl.
  repeat split.
Qed.

Lemma check_no_samples m :
  p99_samples m = [] ->
  check_hard_constraints m = (false, [NoDataCollected]).
Proof. intros H; unfold check_hard_constraints; rewrite H; reflexivity. Qed.

Lemma compute_no_samples m all :
  p99_samples m = [] ->
  compute_score m all = (PosInf, ErrorDetails "no samples").
Proof. intros H; unfold compute_score; rewrite H; reflexivity. Qed.

Lemma aligned_cv m : aligned m -> p99_samples m <> [] -> cv_samples m <> [].
Proof.
  intros (_ & _ & H) Hp Hc. rewrite Hc in H. simpl in H.
  destruct (p99_samples m); [congruence | discriminate].
Qed.

Lemma compute_with_samples m all :
  In m all -> aligned m -> p99_samples m <> [] ->
  exists q d,
    compute_score m all = (Fin q, Stats d)
    /\ p99_median_us d = py_int (median_z (p99_samples m)).
Proof.
  intros Hin Hal Hp.
  destruct (normalize_member _ _ Hin Hp (aligned_cv _ Hal Hp))
    as (np & max_cv & Hn & _ & _).
  assert (E : exists nc,
            norm_cv (Some (median (cv_samples m))) max_cv = Some nc).
  { unfold norm_cv. destruct (Qlt_bool 0 max_cv); eauto. }
  destruct E as (nc & E). rewrite E in Hn.
  destruct (compute_score_normalized _ _ _ _ Hp Hn) as (d & Hd & Hm).
  eauto.
Qed.




(** ** The ranking of a loaded set *)

Lemma analyze_scored_inv lines scored :
  analyze_scored lines = Ok scored ->
  exists ms warned,
    load_results lines = Ok (ms, warned)
    /\ map snd ms <> []
    /\ scored = rank_configs (map snd ms)
    /\ Forall aligned (map snd ms)
    /\ NoDup (map key (map snd ms)).
Proof.
  unfold analyze_scored. intros H.
  destruct (load_results lines) as [[ms warned]|e] eqn:E; simpl in H;
    [|discriminate].
  exists ms, warned. split; [reflexivity|].
  destruct (map snd ms) as [|m rest] eqn:Em; simpl in H; [discriminate|].
  inversion H; subst scored. rewrite <- Em.
  split; [rewrite Em; discriminate|]. split; [reflexivity|].
  split; [eapply load_results_aligned | eapply load_results_keys]; eassumption.
Qed.

Lemma in_rank_configs all s :
  In s (rank_configs all) <-> exists m, In m all /\ s = score_config all m.
Proof.
  unfold rank_configs. rewrite sort_by_in, in_map_iff.
  split; intros (m & H1 & H2); exists m; auto.
Qed.

Lemma rank_configs_no_nan all :
  Forall aligned all -> Forall no_nan (rank_configs all).
Proof.
  intros Hal. rewrite Forall_forall in *. intros s Hs.
  apply in_rank_configs in Hs. destruct Hs as (m & Hm & ->).
  unfold no_nan.
  destruct (score_config_fields all m) as (_ & _ & _ & _ & _ & Hsc & _).
  rewrite Hsc.
  destruct (p99_samples m) eqn:Ep.
  - rewrite (compute_no_samples _ _ Ep). discriminate.
  - destruct (compute_with_samples m all Hm (Hal m Hm)) as (q & d & E & _);
      [congruence|].
    rewrite E. discriminate.
Qed.

Lemma rank_configs_sorted all :
  Forall aligned all -> StronglySorted key_le (rank_configs all).
Proof.
  intros Hal. unfold rank_configs. apply sort_by_key_sorted.
  eapply Permutation_Forall;
    [symmetry; apply sort_by_perm | apply rank_configs_no_nan; exact Hal].
Qed.


Lemma filter_head {A : Type} (f : A -> bool) l w rest :
  filter f l = w :: rest ->
  f w = true
  /\ exists l1 l2,
       l = l1 ++ w :: l2 /\ Forall (fun x => f x = false) l1.
Proof.
  induction l as [|x l IH]; simpl; [discriminate|].
  destruct (f x) eqn:E.
  - intros H; inversion H; subst. split; [assumption|].
    exists [], l. split; [reflexivity | constructor].
  - intros H. destruct (IH H) as (Hw & l1 & l2 & -> & Hall).
    split; [assumption|]. exists (x :: l1), l2.
    split; [reflexivity | constructor; assumption].
Qed.

(** ** Facts on a sorted ranking shared by the statements *)






End Scoring.

(** * The scoring engine: statements *)

Section ScoringClaims.
Import Analyze Spec.

(** C2.  For a configuration with at least one p99 sample, the check fails
    exactly when the median p99 exceeds 50,000, or the reconnect count
    exceeds 1, or both medians are positive and median p999 / median p99
    exceeds 3; when either median is not positive no ratio violation is
    recorded; the "no data" reason is never given. *)
Theorem hard_constraints_fail_exactly_when (m : ConfigMetrics) :
  p99_samples m <> [] ->
  (fst (check_hard_constraints m) = false <->
   (50000 < median_p99 m)%Q
   \/ 1 < reconnects m
   \/ ((0 < median_p99 m)%Q /\ (0 < median_p999 m)%Q
       /\ (3 < median_p999 m / median_p99 m)%Q))
  /\ (~ ((0 < median_p99 m)%Q /\ (0 < median_p999 m)%Q) ->
      forall r, ~ In (RatioOverLimit r) (snd (check_hard_constraints m)))
  /\ ~ In NoDataCollected (snd (check_hard_constraints m)).
Proof. apply check_hard_constraints_spec. Qed.



Lemma hard_constraints_fail_exactly_when_witness :
  p99_samples Examples.slow <> []
  /\ (fst (check_hard_constraints Examples.slow) = false <->
      (50000 < median_p99 Examples.slow)%Q
      \/ 1 < reconnects Examples.slow
      \/ ((0 < median_p99 Examples.slow)%Q
          /\ (0 < median_p999 Examples.slow)%Q
          /\ (3 < median_p999 Examples.slow / median_p99 Examples.slow)%Q))
  /\ check_hard_constraints Examples.slow = (false, [P99OverLimit 60000]).
Proof.
  assert (H : p99_samples Examples.slow <> []) by discriminate.
  split; [exact H|]. split; [|reflexivity].
  exact (proj1 (hard_constraints_fail_exactly_when Examples.slow H)).
Defined.




(** C5, as amended.  When either p99 sequence has fewer than 5 points,
    the comparator returns the "insufficient samples" error if both
    sequences are non-empty, and [None] if one is empty; in neither case a
    p-value or an interval. *)
Theorem short_sequences_are_not_compared (lib : StatsLib)
    (m1 m2 : ConfigMetrics) :
  (length (p99_samples m1) < 5 \/ length (p99_samples m2) < 5)%nat ->
  (p99_samples m1 <> [] -> p99_samples m2 <> [] ->
   statistical_comparison lib m1 m2
   = Some (ComparisonError
             "insufficient samples for statistical comparison"))
  /\ (p99_samples m1 = [] \/ p99_samples m2 = [] ->
      statistical_comparison lib m1 m2 = None)
  /\ (forall p s5 s1 d ci,
        statistical_comparison lib m1 m2
        <> Some (ComparisonStats p s5 s1 d ci)).
Proof.
  intros Hshort. unfold statistical_comparison.
  assert (Hlt : ((length (p99_samples m1) <? 5)%nat
                 || (length (p99_samples m2) <? 5)%nat) = true).
  { apply orb_true_iff. destruct Hshort; [left | right];
      apply Nat.ltb_lt; assumption. }
  rewrite Hlt.
  split; [|split].
  - intros H1 H2. apply nonempty_true in H1, H2. rewrite H1, H2.
    reflexivity.
  - intros [H|H]; rewrite H; simpl; [reflexivity|].
    rewrite orb_true_r; reflexivity.
  - intros p s5 s1 d ci.
    destruct (negb (nonempty (p99_samples m1))
              || negb (nonempty (p99_samples m2))); discriminate.
Qed.

Lemma short_sequences_are_not_compared_witness :
  (length (p99_samples Examples.four_samples) < 5
   \/ length (p99_samples Examples.four_samples) < 5)%nat
  /\ statistical_comparison Examples.failing_stats
       Examples.four_samples Examples.four_samples
     = Some (ComparisonError
               "insufficient samples for statistical comparison").
Proof.
  assert (H : (length (p99_samples Examples.four_samples) < 5
               \/ length (p99_samples Examples.four_samples) < 5)%nat)
    by (left; simpl; lia).
  split; [exact H|].
  apply (proj1 (short_sequences_are_not_compared
                  Examples.failing_stats Examples.four_samples
                  Examples.four_samples H)); discriminate.
Defined.

(** C5, the claim as stated fails on an empty sequence: the comparator
    then returns [None], the guard of line 174, and no structured
    result. *)
Lemma empty_sequence_gives_no_result :
  (length (p99_samples Examples.no_samples) < 5)%nat
  /\ statistical_comparison Examples.failing_stats
       Examples.no_samples Examples.four_samples = None
  /\ ~ (forall lib m1 m2,
          (length (p99_samples m1) < 5
           \/ length (p99_samples m2) < 5)%nat ->
          exists msg,
            statistical_comparison lib m1 m2 = Some (ComparisonError msg)).
Proof.
  split; [simpl; lia|]. split; [reflexivity|].
  intros H.
  destruct (H Examples.failing_stats Examples.no_samples
              Examples.four_samples) as (msg & E);
    [left; simpl; lia | discriminate].
Qed.










End ScoringClaims.

(** * Facts about the health gate and the collection loop *)

Section Sweep.
Import RunSweep Spec.

Lemma unhealthy_false (r : Response) : unhealthy r = false <-> r = Status 200.
Proof.
  destruct r as [c|]; simpl.
  - rewrite negb_false_iff, Z.eqb_eq. split; congruence.
  - split; discriminate.
Qed.

Lemma sweep_fold (env : GateEnv) (n : nat) (probes : list ProbeConfig)
    (acc : bool) :
  fold_left
    (fun all_healthy probe =>
       if unhealthy (health env n probe) then false else all_healthy)
    probes acc = true
  <-> acc = true
      /\ Forall (fun p => unhealthy (health env n p) = false) probes.
Proof.
  revert acc. induction probes as [|p ps IH]; intros acc; simpl.
  - split; [auto | tauto].
  - rewrite IH. destruct (unhealthy (health env n p)) eqn:U; split.
    + intros [C _]. discriminate.
    + intros [_ F]. apply Forall_cons_iff in F. destruct F; congruence.
    + intros [A F]. auto.
    + intros [A F]. apply Forall_cons_iff in F. tauto.
Qed.

(** A sweep leaves [all_healthy] true exactly when every probe answered
    200. *)
Lemma sweep_all_200 (env : GateEnv) (n : nat) (probes : list ProbeConfig) :
  sweep env n probes = true <-> all_200 env n probes.
Proof.
  unfold sweep, all_200. rewrite sweep_fold, Forall_forall. split.
  - intros [_ H] p Hp. apply unhealthy_false, H, Hp.
  - intros H. split; [reflexivity|].
    intros p Hp. apply unhealthy_false, H, Hp.
Qed.

Lemma sweep_errors_as (code : Z) (env : GateEnv) (n : nat)
    (probes : list ProbeConfig) :
  code <> 200 -> sweep (errors_as code env) n probes = sweep env n probes.
Proof.
  intros Hc. apply Z.eqb_neq in Hc. unfold sweep. generalize true.
  induction probes as [|p ps IH]; intros acc; simpl; [reflexivity|].
  rewrite IH. destruct (health env n p) as [c|]; simpl; [reflexivity|].
  rewrite Hc. reflexivity.
Qed.

Lemma wait_loop_errors_as (code : Z) (env : GateEnv)
    (probes : list ProbeConfig) (timeout_sec : Z) (fuel n : nat) :
  code <> 200 ->
  wait_loop (errors_as code env) probes timeout_sec fuel n
  = wait_loop env probes timeout_sec fuel n.
Proof.
  intros Hc. revert n. induction fuel as [|fuel IH]; intros n; simpl;
    [reflexivity|].
  rewrite (sweep_errors_as code env n probes Hc), IH. reflexivity.
Qed.

Section Clock.
Variable env : GateEnv.
Hypothesis clock_mono :
  forall n, (elapsed_at env n <= elapsed_at env (S n))%Q.

Lemma elapsed_mono (n m : nat) :
  (n <= m)%nat -> (elapsed_at env n <= elapsed_at env m)%Q.
Proof.
  induction 1 as [|m _ IH]; [apply Qle_refl|].
  eapply Qle_trans; [exact IH | apply clock_mono].
Qed.

(** The loop from sweep [n] on, when the timeout has elapsed by sweep [N]
    and the fuel reaches that far. *)
Lemma wait_loop_spec (probes : list ProbeConfig) (timeout_sec : Z) (N : nat) :
  (inject_Z timeout_sec <= elapsed_at env N)%Q ->
  forall fuel n,
    (n <= N)%nat -> (N < n + fuel)%nat ->
    exists ready,
      wait_loop env probes timeout_sec fuel n = Some ready
      /\ (ready = true <->
          exists m, (n <= m)%nat /\ in_time env timeout_sec m
                    /\ all_200 env m probes).
Proof.
  intros Hend. induction fuel as [|fuel IH]; intros n L F; [lia|].
  simpl.
  destruct (Qlt_bool (elapsed_at env n) (inject_Z timeout_sec)) eqn:T.
  - apply Qlt_bool_iff in T.
    assert (n <> N) by (intros ->; exact (Qlt_not_le _ _ T Hend)).
    destruct (sweep env n probes) eqn:W.
    + exists true. split; [reflexivity|]. split; [|reflexivity].
      intros _. exists n. split; [lia|].
      split; [exact T | apply sweep_all_200, W].
    + destruct (IH (S n)) as (b & E & B); [lia | lia |].
      exists b. split; [exact E|]. rewrite B. split.
      * intros (m & Lm & I & A). exists m. split; [lia | auto].
      * intros (m & Lm & I & A). exists m. split; [|auto].
        destruct (Nat.eq_dec m n) as [->|]; [|lia].
        apply sweep_all_200 in A. congruence.
  - apply Qlt_bool_false in T. exists false.
    split; [reflexivity|]. split; [discriminate|].
    intros (m & Lm & I & _). exfalso. apply (Qlt_not_le _ _ I).
    eapply Qle_trans; [exact T | apply elapsed_mono, Lm].
Qed.

End Clock.

Lemma written_in_wider env probes lo hi lo' hi' r :
  (lo' <= lo)%nat -> (hi <= hi')%nat ->
  written_in env probes lo hi r -> written_in env probes lo' hi' r.
Proof.
  intros H1 H2 (n & p & m & R & H). exists n, p, m. split; [lia | exact H].
Qed.

(** One round from any probe of the list on: it appends as many records
    as it counts, at most one a probe, each of them fetched in this round,
    and is left early only by a summary that raises. *)
Lemma collect_probes_spec (env : CollectEnv) (n : nat)
    (probes ps : list ProbeConfig) : forall st,
  (forall p, In p ps -> In p probes) ->
  exists w,
    fst (fst (collect_probes env n
                (py_int (body_time env n - start_time env)) ps st))
    = fst st ++ w
    /\ snd (fst (collect_probes env n
                   (py_int (body_time env n - start_time env)) ps st))
       = snd st + Z.of_nat (length w)
    /\ (length w <= length ps)%nat
    /\ Forall (written_in env probes n (S n)) w
    /\ ((forall p m, In p ps -> fetch env n p = Some m ->
         summary m = None) ->
        snd (collect_probes env n
               (py_int (body_time env n - start_time env)) ps st) = None).
Proof.
  induction ps as [|p ps IH]; intros st Hin.
  - exists []. simpl. rewrite app_nil_r.
    split; [reflexivity|]. split; [lia|]. split; [lia|].
    split; [constructor | reflexivity].
  - assert (Hps : forall q, In q ps -> In q probes)
      by (intros q Hq; apply Hin; right; exact Hq).
    cbn [collect_probes].
    destruct (fetch env n p) as [m|] eqn:Ef.
    + destruct (truthy m) eqn:Et.
      * cbv zeta.
        assert (W : written_in env probes n (S n)
                      (record_for env n p m)).
        { exists n, p, m. split; [lia|].
          split; [apply Hin; left; reflexivity|].
          split; [exact Ef|]. split; [exact Et | reflexivity]. }
        destruct (summary m) as [e|] eqn:Es.
        -- eexists [_]. simpl.
           split; [reflexivity|]. split; [reflexivity|]. split; [lia|].
           split; [constructor; [exact W | constructor]|].
           intros R. rewrite (R p m (or_introl eq_refl) Ef) in Es.
           discriminate.
        -- match goal with
           | |- context [collect_probes _ _ _ ps ?s] =>
               destruct (IH s Hps) as (w & A & B & L & F & R)
           end.
           simpl in A, B. eexists (_ :: w). rewrite A, B.
           rewrite <- app_assoc. simpl.
           split; [reflexivity|]. split; [lia|]. split; [lia|].
           split; [constructor; [exact W | exact F]|].
           intros H. apply R. intros q m0 Hq. apply H. right; exact Hq.
      * destruct (IH st Hps) as (w & A & B & L & F & R).
        exists w. split; [exact A|]. split; [exact B|].
        split; [simpl; lia|]. split; [exact F|].
        intros H. apply R. intros q m0 Hq. apply H. right; exact Hq.
    + destruct (IH st Hps) as (w & A & B & L & F & R).
      exists w. split; [exact A|]. split; [exact B|].
      split; [simpl; lia|]. split; [exact F|].
      intros H. apply R. intros q m0 Hq. apply H. right; exact Hq.
Qed.

Lemma collect_round_spec (env : CollectEnv) (n : nat)
    (probes : list ProbeConfig) (st : CollectState) :
  exists w,
    fst (fst (collect_round env n probes st)) = fst st ++ w
    /\ snd (fst (collect_round env n probes st))
       = snd st + Z.of_nat (length w)
    /\ (length w <= length probes)%nat
    /\ Forall (written_in env probes n (S n)) w
    /\ ((forall p m, In p probes -> fetch env n p = Some m ->
         summary m = None) ->
        snd (collect_round env n probes st) = None).
Proof.
  unfold collect_round. apply collect_probes_spec. auto.
Qed.

Lemma collect_loop_step (env : CollectEnv) (probes : list ProbeConfig)
    (endt : Q) (poll : Z) (fuel n : nat) (st : CollectState) :
  collect_loop env probes endt poll (S fuel) n st
  = if Qlt_bool (now env n) endt then
      match collect_round env n probes st with
      | (st', Some e) => Some (st', S n, Some e)
      | (st', None) =>
          match sleep env poll with
          | Some e => Some (st', S n, Some e)
          | None => collect_loop env probes endt poll fuel (S n) st'
          end
      end
    else Some (st, n, None).
Proof. reflexivity. Qed.

Lemma sleeps_sleep (env : CollectEnv) (secs : Z) :
  sleeps env secs <-> sleep env secs = None.
Proof.
  unfold sleeps, sleep.
  destruct (secs <? 0) eqn:A; [apply Z.ltb_lt in A | apply Z.ltb_ge in A].
  - split; [lia | discriminate].
  - destruct (max_sleep env <? secs) eqn:B;
      [apply Z.ltb_lt in B | apply Z.ltb_ge in B].
    + split; [lia | discriminate].
    + split; [reflexivity | lia].
Qed.

Lemma has_float_of_int (n : Z) :
  has_float n -> float_of_int n = Some (inject_Z n).
Proof.
  unfold has_float, float_of_int. intros H.
  apply Z.ltb_lt in H. rewrite H. reflexivity.
Qed.

(** The loop from round [n] on: it is left by round [N] when the clock
    has reached the end time there, no earlier when the clock has not
    reached it before; it counts the records it appends, at most one for
    each probe and round, each of them fetched in one of its rounds. *)
Lemma collect_loop_spec (env : CollectEnv) (probes : list ProbeConfig)
    (endt : Q) (poll : Z) (N : nat) :
  (endt <= now env N)%Q ->
  sleep env poll = None ->
  readable env probes 0 N ->
  forall fuel n st,
    (n <= N)%nat -> (N < n + fuel)%nat ->
    exists st' n' w,
      collect_loop env probes endt poll fuel n st = Some (st', n', None)
      /\ (n <= n' <= N)%nat
      /\ ((forall k, (k < N)%nat -> (now env k < endt)%Q) -> n' = N)
      /\ fst st' = fst st ++ w
      /\ snd st' = snd st + Z.of_nat (length w)
      /\ (length w <= (n' - n) * length probes)%nat.
Proof.
  intros Hend Hsleep Hread.
  induction fuel as [|fuel IH]; intros n st L F; [lia|].
  rewrite collect_loop_step.
  destruct (Qlt_bool (now env n) endt) eqn:T.
  - apply Qlt_bool_iff in T.
    assert (n <> N) by (intros ->; exact (Qlt_not_le _ _ T Hend)).
    destruct (collect_round_spec env n probes st)
      as (w0 & A0 & B0 & L0 & _ & R0).
    assert (R1 : snd (collect_round env n probes st) = None)
      by (apply R0; intros p m Hp Hm; apply (Hread n p m);
          [lia | exact Hp | exact Hm]).
    destruct (collect_round env n probes st) as [st1 r1].
    simpl in A0, B0, R1. subst r1. rewrite Hsleep.
    destruct (IH (S n) st1) as (st' & n' & w & E & B & Ex & A & C & Lw);
      [lia | lia |].
    exists st', n', (w0 ++ w). split; [exact E|]. split; [lia|].
    split; [exact Ex|].
    rewrite A, C, A0, B0, app_assoc, length_app, Nat2Z.inj_add.
    split; [reflexivity|]. split; [lia|].
    replace (n' - n)%nat with (S (n' - S n)) by lia. simpl. lia.
  - apply Qlt_bool_false in T.
    exists st, n, []. split; [reflexivity|]. split; [lia|]. split.
    + intros Hbefore. destruct (Nat.eq_dec n N) as [E|D]; [exact E|].
      exfalso. assert (K : (n < N)%nat) by lia.
      exact (Qlt_not_le _ _ (Hbefore n K) T).
    + rewrite app_nil_r. simpl. split; [reflexivity|]. split; lia.
Qed.

End Sweep.

(** * Statements about the health gate and the collection loop *)

Section SweepClaims.
Import RunSweep Spec.

(** C8, as amended.  On a clock that never runs backwards and has passed
    the timeout by some sweep, the gate returns; it returns ready exactly
    when, in one sweep that starts before the timeout has elapsed, every
    probe of the list answers status 200; and a network error counts the
    same as any status other than 200: replacing the errors by such a
    status leaves the answer unchanged. *)
Theorem gate_ready_iff_all_200_in_one_sweep (env : GateEnv)
    (probes : list ProbeConfig) (timeout_sec : Z) (fuel N : nat) :
  (forall n, (elapsed_at env n <= elapsed_at env (S n))%Q) ->
  (inject_Z timeout_sec <= elapsed_at env N)%Q ->
  (N < fuel)%nat ->
  exists ready,
    wait_for_probes env probes timeout_sec fuel = Some ready
    /\ (ready = true <->
        exists n, in_time env timeout_sec n /\ all_200 env n probes)
    /\ forall code, code <> 200 ->
         wait_for_probes (errors_as code env) probes timeout_sec fuel
         = Some ready.
Proof.
  intros Hmono Hend Hfuel. unfold wait_for_probes.
  destruct (wait_loop_spec env Hmono probes timeout_sec N Hend fuel 0%nat)
    as (ready & E & B); [lia | lia |].
  exists ready. split; [exact E|]. split.
  - rewrite B. split.
    + intros (m & _ & I & A). exists m. auto.
    + intros (m & I & A). exists m. split; [lia | auto].
  - intros code Hc. rewrite wait_loop_errors_as; assumption.
Qed.

Lemma gate_ready_iff_all_200_in_one_sweep_witness :
  wait_for_probes Examples.late_starter [Examples.probe] 600 61 = Some true
  /\ in_time Examples.late_starter 600 2
  /\ all_200 Examples.late_starter 2 [Examples.probe]
  /\ health Examples.late_starter 0 Examples.probe = RequestException
  /\ wait_for_probes (errors_as 503 Examples.late_starter)
       [Examples.probe] 600 61 = Some true.
Proof.
  destruct (gate_ready_iff_all_200_in_one_sweep Examples.late_starter
              [Examples.probe] 600 61%nat 60%nat)
    as (ready & E & B & C).
  - intros n. simpl. unfold Examples.every. rewrite <- Zle_Qle. lia.
  - vm_compute. discriminate.
  - lia.
  - assert (I : in_time Examples.late_starter 600 2)
      by (vm_compute; reflexivity).
    assert (A : all_200 Examples.late_starter 2 [Examples.probe])
      by (intros p _; reflexivity).
    assert (R : ready = true) by (apply B; exists 2%nat; auto).
    subst ready. split; [exact E|]. split; [exact I|]. split; [exact A|].
    split; [reflexivity|]. apply C. discriminate.
Defined.

(** C8, the claim as worded: status 204 is a 2xx status, and a probe that
    answers it to every health request is never taken as healthy. *)
Lemma status_204_is_not_healthy :
  is_2xx 204 = true
  /\ (forall n, health Examples.no_content n Examples.probe = Status 204)
  /\ unhealthy (Status 204) = true
  /\ wait_for_probes Examples.no_content [Examples.probe] 30 10 = Some false.
Proof.
  split; [reflexivity|]. split; [intros n; reflexivity|].
  split; [reflexivity|]. vm_compute. reflexivity.
Qed.

(** C9, as amended.  With a warm-up and a poll interval that
    [time.sleep] accepts, a measurement duration that has a float, and
    probes whose answers the summary can print, when round [N] is the
    first whose clock reading has reached start + measurement duration,
    the collection returns after exactly [N] rounds, whatever the probes
    answered and however many records were written; the value it returns
    is the path of the log; the log holds its earlier content followed by
    the records of this run, and the count that is printed is the number
    of those records. *)
Theorem collection_ends_with_the_clock (env : CollectEnv)
    (config : SweepConfig) (probes : list ProbeConfig)
    (earlier : list MetricRecord) (fuel N : nat) :
  timed env config ->
  readable env probes 0 N ->
  ends_at env config N ->
  (N < fuel)%nat ->
  exists c,
    run_collection env config probes earlier fuel = Some c
    /\ rounds c = N
    /\ ended c = Returns (results_file env config)
    /\ exists written,
         log_file c = earlier ++ written
         /\ total_records c = Z.of_nat (length written).
Proof.
  intros (Hw & Hp & Hm) Hread [Hbefore Hend] Hfuel. unfold run_collection.
  apply sleeps_sleep in Hw, Hp.
  rewrite Hw, (has_float_of_int _ Hm).
  destruct (collect_loop_spec env probes (end_time env config)
              (poll_interval_sec config) N
              Hend Hp Hread fuel 0%nat ([], 0))
    as (st & n & w & E & _ & Ex & A & B & _); [lia | lia |].
  rewrite (Ex Hbefore) in E.
  unfold end_time in E. cbv zeta. rewrite E. eexists.
  split; [reflexivity|]. simpl.
  split; [reflexivity|]. split; [reflexivity|].
  exists w. rewrite A, B. simpl. split; [reflexivity | lia].
Qed.

Lemma collection_ends_with_the_clock_witness :
  timed Examples.busy Examples.two_minutes
  /\ readable Examples.busy [Examples.probe] 0 2
  /\ ends_at Examples.busy Examples.two_minutes 2
  /\ exists c,
       run_collection Examples.busy Examples.two_minutes [Examples.probe]
         [] 3 = Some c
       /\ rounds c = 2%nat
       /\ ended c = Returns "results/sweep-01_results.jsonl"%string
       /\ length (log_file c) = 2%nat
       /\ total_records c = 2.
Proof.
  assert (T : timed Examples.busy Examples.two_minutes)
    by (unfold timed, sleeps, has_float; simpl; lia).
  assert (H : ends_at Examples.busy Examples.two_minutes 2).
  { split.
    - intros k Hk. destruct k as [|[|k]]; [reflexivity | reflexivity | lia].
    - vm_compute. discriminate. }
  assert (D : readable Examples.busy [Examples.probe] 0 2)
    by (intros n p m _ _ Hm; inversion Hm; reflexivity).
  split; [exact T|]. split; [exact D|]. split; [exact H|].
  destruct (collection_ends_with_the_clock Examples.busy Examples.two_minutes
              [Examples.probe] [] 3%nat 2%nat T D H)
    as (c & E & R & P & w & L & C); [lia|].
  exists c. split; [exact E|]. split; [exact R|]. split; [exact P|].
  vm_compute in E. injection E as <-. split; reflexivity.
Defined.

(** C9, the claim as worded: two runs on the same clock return the same
    value, the path, although one wrote two records and the other none;
    the count is not part of what is returned. *)
Lemma returned_value_is_the_path_alone :
  exists b q,
    run_collection Examples.busy Examples.two_minutes [Examples.probe] [] 3
    = Some b
    /\ run_collection Examples.quiet Examples.two_minutes [Examples.probe]
         [] 3 = Some q
    /\ ended b = Returns "results/sweep-01_results.jsonl"%string
    /\ ended q = ended b
    /\ total_records b = 2
    /\ total_records q = 0.
Proof.
  eexists. eexists. split; [vm_compute; reflexivity|].
  split; [vm_compute; reflexivity|]. repeat split.
Qed.

End SweepClaims.

(** * More facts about the loader *)

Section LoaderFacts.
Import Analyze Spec.

Lemma ingest_first_missing ms o k :
  first_missing o = Some k -> ingest ms o = Raise (KeyError k).
Proof.
  unfold first_missing, ingest.
  destruct (Analyze.region o), (Analyze.instance_family o), (metrics o);
    simpl; intros H; inversion H; reflexivity.
Qed.

Lemma load_lines_app_raise pre o post k : forall n ms w,
  Forall loadable pre -> first_missing o = Some k ->
  load_lines (pre ++ Object o :: post) n ms w = Raise (KeyError k).
Proof.
  induction pre as [|l pre IH]; intros n ms w Hl Hk; simpl.
  - rewrite (ingest_first_missing ms o k Hk). reflexivity.
  - apply Forall_cons_iff in Hl. destruct Hl as [Hl Hpre].
    destruct Hl as [->|(o' & k' & p & -> & Hr)].
    + apply IH; assumption.
    + rewrite (ingest_record ms o' k' p Hr). simpl. apply IH; assumption.
Qed.

(** X1.  A record that lacks [region], [instance_family] or [metrics]
    ends the load with a KeyError naming the first of them that is
    missing, whatever was loaded before it and whatever follows. *)
Theorem missing_key_ends_the_load (pre post : list Line) (o : LogObject)
    (k : string) :
  Forall loadable pre ->
  first_missing o = Some k ->
  load_results (pre ++ Object o :: post) = Raise (KeyError k).
Proof. intros Hl Hk. apply load_lines_app_raise; assumption. Qed.

Lemma update_config_fst k f fresh ms :
  map fst (update_config k f fresh ms)
  = if existsb (fun k' => key_eqb k' k) (map fst ms)
    then map fst ms else map fst ms ++ [k].
Proof.
  induction ms as [|[k' m] rest IH]; simpl; [reflexivity|].
  destruct (key_eqb k' k) eqn:E; simpl; [reflexivity|].
  rewrite IH. destruct (existsb (fun k'0 => key_eqb k'0 k) (map fst rest));
    reflexivity.
Qed.

Lemma load_lines_order lines : forall n ms w ms' w',
  load_lines lines n ms w = Ok (ms', w') ->
  map fst ms'
  = fold_left
      (fun seen k =>
         if existsb (fun k' => key_eqb k' k) seen then seen else seen ++ [k])
      (record_keys lines) (map fst ms).
Proof.
  unfold record_keys.
  induction lines as [|l rest IH]; intros n ms w ms' w' H; simpl in *.
  - inversion H; subst; reflexivity.
  - destruct l as [| |o]; simpl in *.
    + eapply IH; exact H.
    + discriminate.
    + destruct (ingest ms o) as [ms1|e] eqn:E; simpl in H; [|discriminate].
      destruct (ingest_ok _ _ _ E) as (k & p & Hr).
      rewrite (ingest_record ms o k p Hr) in E. inversion E; subst ms1.
      rewrite Hr. simpl. rewrite (IH _ _ _ _ _ H), update_config_fst.
      reflexivity.
Qed.

Lemma load_lines_keyed lines ms warned :
  load_results lines = Ok (ms, warned) ->
  Forall (fun km => key (snd km) = fst km) ms.
Proof.
  intros H.
  refine (load_lines_invariant
            (fun ms => Forall (fun km => key (snd km) = fst km) ms)
            _ lines 1%nat [] [] ms warned _ H); [|constructor].
  intros ms0 k p I.
  apply update_config_keyed;
    [apply ingest_step_key | destruct k; reflexivity | assumption].
Qed.

(** X2.  The loaded mapping holds one entry for each key that occurs in a
    record, in the order in which the keys first occur in the file, and
    each entry carries the region and instance family of its key. *)
Theorem configurations_in_order_of_first_record (lines : list Line)
    (ms : MetricsMap) (warned : list nat) :
  load_results lines = Ok (ms, warned) ->
  map fst ms = first_seen (record_keys lines)
  /\ map key (map snd ms) = map fst ms
  /\ NoDup (map fst ms).
Proof.
  intros H.
  assert (E : map key (map snd ms) = map fst ms).
  { pose proof (load_lines_keyed _ _ _ H) as K. clear H.
    induction K as [|[k m] rest Hk _ IH]; simpl; [reflexivity|].
    simpl in Hk. rewrite Hk, IH. reflexivity. }
  split; [|split].
  - exact (load_lines_order lines _ _ _ _ _ H).
  - exact E.
  - rewrite <- E. exact (load_results_keys _ _ _ H).
Qed.

Lemma missing_key_ends_the_load_witness :
  Forall loadable Examples.two_records
  /\ first_missing Examples.no_family = Some "instance_family"%string
  /\ load_results
       (Examples.two_records ++ Object Examples.no_family
          :: Examples.two_records)
     = Raise (KeyError "instance_family").
Proof.
  assert (H : Forall loadable Examples.two_records).
  { repeat (apply Forall_cons;
              [right; eexists; eexists; eexists; split; reflexivity|]).
    apply Forall_nil. }
  split; [exact H|]. split; [reflexivity|].
  exact (missing_key_ends_the_load Examples.two_records Examples.two_records
           Examples.no_family "instance_family" H eq_refl).
Defined.

Lemma configurations_in_order_of_first_record_witness :
  load_results Examples.interleaved
  = Ok (fst Examples.interleaved_loaded, snd Examples.interleaved_loaded)
  /\ map fst (fst Examples.interleaved_loaded)
     = [("eu-west-1", "c6i"); ("eu-north-1", "c6i")]%string
  /\ NoDup (map fst (fst Examples.interleaved_loaded)).
Proof.
  assert (H : load_results Examples.interleaved
              = Ok (fst Examples.interleaved_loaded,
                    snd Examples.interleaved_loaded))
    by (vm_compute; reflexivity).
  destruct (configurations_in_order_of_first_record _ _ _ H)
    as (E & _ & N).
  split; [exact H|]. split; [|exact N].
  rewrite E. vm_compute. reflexivity.
Defined.

Section Samples.
Variable A : Type.
Variable proj : ConfigMetrics -> list A.
Variable field : Aggregate -> A.
Hypothesis proj_new : forall r f, proj (new_config r f) = [].
Hypothesis proj_step : forall p m,
  proj (ingest_step p m)
  = proj m
    ++ (if 0 <? dict_get (count (dict_get (aggregate p) empty_aggregate)) 0
        then [field (dict_get (aggregate p) empty_aggregate)] else []).

Lemma samples_fold k lines : forall a,
  fold_left
    (fun a l =>
       match l with
       | Object o =>
           match record_of o with
           | Some (k0, p) =>
               if key_eqb k0 k
               then a ++ (if 0 <? dict_get
                                   (count (dict_get (aggregate p)
                                             empty_aggregate)) 0
                          then [field (dict_get (aggregate p)
                                         empty_aggregate)]
                          else [])
               else a
           | None => a
           end
       | _ => a
       end) lines a
  = a ++ sample_values field k lines.
Proof.
  unfold sample_values.
  induction lines as [|l rest IH]; intros a; simpl.
  - rewrite app_nil_r. reflexivity.
  - rewrite IH. destruct l as [| |o]; simpl; try reflexivity.
    destruct (record_of o) as [[k0 p]|]; simpl; [|reflexivity].
    destruct (key_eqb k0 k); simpl; [|reflexivity].
    rewrite app_assoc. reflexivity.
Qed.

Lemma load_results_samples lines ms warned k m :
  load_results lines = Ok (ms, warned) -> lookup k ms = Some m ->
  proj m = sample_values field k lines.
Proof.
  intros H Hk. unfold load_results in H.
  pose proof (load_lines_fold lines _ _ _ _ _ H (list A)
                (fun cur => match cur with
                            | Some m => proj m
                            | None => []
                            end)
                (fun a k0 p =>
                   if key_eqb k0 k
                   then a ++ (if 0 <? dict_get
                                       (count (dict_get (aggregate p)
                                                 empty_aggregate)) 0
                              then [field (dict_get (aggregate p)
                                             empty_aggregate)]
                              else [])
                   else a) k) as F.
  rewrite Hk in F. simpl in F. rewrite F.
  - rewrite samples_fold. reflexivity.
  - intros k0 p cur ->. rewrite key_eqb_refl, proj_step.
    destruct cur; simpl; [reflexivity | rewrite proj_new; reflexivity].
  - intros k0 p a Hne. rewrite key_eqb_neq by assumption. reflexivity.
Qed.

End Samples.

Ltac solve_proj_step :=
  let p := fresh "p" in
  let c := fresh "c" in
  intros p c; unfold ingest_step, append_samples;
  destruct (0 <? dict_get (count (dict_get (aggregate p) empty_aggregate)) 0);
  simpl; [reflexivity | rewrite app_nil_r; reflexivity].

(** X3.  The sample sequences of a configuration are the values of the
    records of its key that have a positive count, in file order, a missing
    value counting as 0; records with a count that is missing, zero or
    negative contribute nothing. *)
Theorem samples_are_the_counted_records_in_file_order (lines : list Line)
    (ms : MetricsMap) (warned : list nat) (k : Key) (m : ConfigMetrics) :
  load_results lines = Ok (ms, warned) ->
  lookup k ms = Some m ->
  p50_samples m = sample_values (fun a => dict_get (p50_us a) 0) k lines
  /\ p99_samples m = sample_values (fun a => dict_get (p99_us a) 0) k lines
  /\ p999_samples m = sample_values (fun a => dict_get (p999_us a) 0) k lines
  /\ cv_samples m = sample_values (fun a => dict_get (cv a) 0%Q) k lines.
Proof.
  intros H Hk.
  split; [|split; [|split]];
    (eapply load_results_samples; [reflexivity | solve_proj_step | exact H
                                  | exact Hk]).
Qed.

Lemma max_from_zero_app l1 l2 :
  fold_right Z.max 0 (l1 ++ l2)
  = Z.max (fold_right Z.max 0 l1) (fold_right Z.max 0 l2).
Proof.
  induction l1 as [|x l1 IH]; simpl.
  - pose proof (max_from_zero_nonneg l2). lia.
  - rewrite IH. lia.
Qed.

(** X4.  Loading a log with further lines appended gives every
    configuration of the shorter log again, its sample sequences extended
    at the end by the samples of the appended records of its key and its
    counters raised to the maximum with those the appended records
    report. *)
Theorem appended_lines_extend_the_histories (lines more : list Line)
    (ms1 ms : MetricsMap) (w1 w : list nat) (k : Key) (m1 : ConfigMetrics) :
  load_results lines = Ok (ms1, w1) ->
  load_results (lines ++ more) = Ok (ms, w) ->
  lookup k ms1 = Some m1 ->
  exists m,
    lookup k ms = Some m
    /\ p50_samples m
       = p50_samples m1
         ++ sample_values (fun a => dict_get (p50_us a) 0) k more
    /\ p99_samples m
       = p99_samples m1
         ++ sample_values (fun a => dict_get (p99_us a) 0) k more
    /\ p999_samples m
       = p999_samples m1
         ++ sample_values (fun a => dict_get (p999_us a) 0) k more
    /\ cv_samples m
       = cv_samples m1
         ++ sample_values (fun a => dict_get (cv a) 0%Q) k more
    /\ forall c,
         watermark c m
         = Z.max (watermark c m1)
             (fold_right Z.max 0 (counter_values c k more)).
Proof.
  intros H1 H K1.
  assert (K : exists m, lookup k ms = Some m).
  { apply (load_results_has_key _ _ _ k H).
    destruct (proj1 (load_results_has_key _ _ _ k H1)) as (l & Hl & Hk);
      [eauto|].
    exists l. split; [apply in_or_app; left; exact Hl | exact Hk]. }
  destruct K as (m & K). exists m. split; [exact K|].
  assert (S : forall (A : Type) (proj : ConfigMetrics -> list A)
                     (field : Aggregate -> A),
            (forall r f, proj (new_config r f) = []) ->
            (forall p c,
               proj (ingest_step p c)
               = proj c
                 ++ (if 0 <? dict_get
                               (count (dict_get (aggregate p)
                                         empty_aggregate)) 0
                     then [field (dict_get (aggregate p) empty_aggregate)]
                     else [])) ->
            proj m = proj m1 ++ sample_values field k more).
  { intros A proj field Pn Ps.
    rewrite (load_results_samples A proj field Pn Ps _ _ _ _ _ H K).
    rewrite (load_results_samples A proj field Pn Ps _ _ _ _ _ H1 K1).
    unfold sample_values. apply flat_map_app. }
  repeat (split; [apply S; [reflexivity | solve_proj_step]|]).
  intros c.
  rewrite (load_results_counter _ _ _ c _ _ H K).
  rewrite (load_results_counter _ _ _ c _ _ H1 K1).
  unfold counter_values. rewrite flat_map_app. apply max_from_zero_app.
Qed.

Lemma appended_lines_extend_the_histories_witness :
  exists ms w m,
    load_results (Examples.interleaved ++ Examples.two_records) = Ok (ms, w)
    /\ lookup ("eu-west-1", "c6i")%string ms = Some m
    /\ p99_samples m = [1200; 1100; 0; 1200]
    /\ reconnects m = 2.
Proof.
  assert (H1 : load_results Examples.interleaved
               = Ok (fst Examples.interleaved_loaded,
                     snd Examples.interleaved_loaded))
    by (vm_compute; reflexivity).
  assert (K1 : lookup ("eu-west-1", "c6i")%string
                 (fst Examples.interleaved_loaded) = Some Examples.west)
    by (vm_compute; reflexivity).
  assert (H : exists ms w,
            load_results (Examples.interleaved ++ Examples.two_records)
            = Ok (ms, w)) by (vm_compute; eexists; eexists; reflexivity).
  destruct H as (ms & w & H).
  destruct (appended_lines_extend_the_histories _ _ _ _ _ _ _ _ H1 H K1)
    as (m & K & _ & E99 & _ & _ & C).
  exists ms, w, m. split; [exact H|]. split; [exact K|].
  split; [rewrite E99; vm_compute; reflexivity|].
  exact (C Reconnects).
Defined.

Lemma samples_are_the_counted_records_in_file_order_witness :
  load_results Examples.interleaved
  = Ok (fst Examples.interleaved_loaded, snd Examples.interleaved_loaded)
  /\ lookup ("eu-west-1", "c6i")%string (fst Examples.interleaved_loaded)
     = Some Examples.west
  /\ p99_samples Examples.west = [1200; 1100; 0]
  /\ cv_samples Examples.west = [5 # 100; 4 # 100; 0]%Q.
Proof.
  assert (H : load_results Examples.interleaved
              = Ok (fst Examples.interleaved_loaded,
                    snd Examples.interleaved_loaded))
    by (vm_compute; reflexivity).
  assert (K : lookup ("eu-west-1", "c6i")%string
                (fst Examples.interleaved_loaded) = Some Examples.west)
    by (vm_compute; reflexivity).
  destruct (samples_are_the_counted_records_in_file_order _ _ _ _ _ H K)
    as (_ & E99 & _ & Ecv).
  split; [exact H|]. split; [exact K|].
  split; [rewrite E99 | rewrite Ecv]; vm_compute; reflexivity.
Defined.

(** C10.  In a log that loads, a record that has its three keys and
    [count > 0] adds one value to each of the four sequences of its key,
    with 0 in the place of every field its aggregate lacks: each sequence
    of the loaded configuration is made of the samples of the lines before
    the record, then the record's value, then the samples of the lines
    after it.  So a record without [p99_us] puts a 0 into the p99 samples.
    The four sequences of every loaded configuration have one length. *)
Theorem missing_fields_are_appended_as_zero (pre post : list Line)
    (o : LogObject) (ms : MetricsMap) (warned : list nat) (k : Key)
    (p : Payload) (agg : Aggregate) :
  load_results (pre ++ Object o :: post) = Ok (ms, warned) ->
  record_of o = Some (k, p) ->
  aggregate p = Some agg ->
  0 < dict_get (count agg) 0 ->
  exists m,
    lookup k ms = Some m
    /\ p50_samples m
       = sample_values (fun a => dict_get (p50_us a) 0) k pre
         ++ dict_get (p50_us agg) 0
            :: sample_values (fun a => dict_get (p50_us a) 0) k post
    /\ p99_samples m
       = sample_values (fun a => dict_get (p99_us a) 0) k pre
         ++ dict_get (p99_us agg) 0
            :: sample_values (fun a => dict_get (p99_us a) 0) k post
    /\ p999_samples m
       = sample_values (fun a => dict_get (p999_us a) 0) k pre
         ++ dict_get (p999_us agg) 0
            :: sample_values (fun a => dict_get (p999_us a) 0) k post
    /\ cv_samples m
       = sample_values (fun a => dict_get (cv a) 0%Q) k pre
         ++ dict_get (cv agg) 0%Q
            :: sample_values (fun a => dict_get (cv a) 0%Q) k post
    /\ (p99_us agg = None ->
        p99_samples m
        = sample_values (fun a => dict_get (p99_us a) 0) k pre
          ++ 0 :: sample_values (fun a => dict_get (p99_us a) 0) k post)
    /\ (forall k1 m1, lookup k1 ms = Some m1 -> aligned m1).
Proof.
  intros H Hr Ha Hc.
  assert (K : exists m, lookup k ms = Some m).
  { apply (load_results_has_key _ _ _ k H).
    exists (Object o). split; [apply in_or_app; right; left; reflexivity|].
    simpl. rewrite Hr. reflexivity. }
  destruct K as (m & K). exists m. split; [exact K|].
  assert (S : forall (A : Type) (proj : ConfigMetrics -> list A)
                     (field : Aggregate -> A),
            (forall r f, proj (new_config r f) = []) ->
            (forall p0 c,
               proj (ingest_step p0 c)
               = proj c
                 ++ (if 0 <? dict_get
                               (count (dict_get (aggregate p0)
                                         empty_aggregate)) 0
                     then [field (dict_get (aggregate p0) empty_aggregate)]
                     else [])) ->
            proj m
            = sample_values field k pre
              ++ field agg :: sample_values field k post).
  { intros A proj field Pn Ps.
    rewrite (load_results_samples A proj field Pn Ps _ _ _ _ _ H K).
    unfold sample_values. rewrite flat_map_app. f_equal. simpl.
    rewrite Hr, key_eqb_refl, Ha. simpl.
    apply Z.ltb_lt in Hc. rewrite Hc. reflexivity. }
  assert (E99 : p99_samples m
                = sample_values (fun a => dict_get (p99_us a) 0) k pre
                  ++ dict_get (p99_us agg) 0
                     :: sample_values (fun a => dict_get (p99_us a) 0) k
                          post)
    by (apply (S Z p99_samples (fun a => dict_get (p99_us a) 0));
        [reflexivity | solve_proj_step]).
  split; [apply (S Z p50_samples (fun a => dict_get (p50_us a) 0));
          [reflexivity | solve_proj_step]|].
  split; [exact E99|].
  split; [apply (S Z p999_samples (fun a => dict_get (p999_us a) 0));
          [reflexivity | solve_proj_step]|].
  split; [apply (S Q cv_samples (fun a => dict_get (cv a) 0%Q));
          [reflexivity | solve_proj_step]|].
  split.
  - intros E0. rewrite E99, E0. reflexivity.
  - intros k1 m1 H1.
    pose proof (load_results_aligned _ _ _ H) as Hal.
    rewrite Forall_forall in Hal. apply Hal.
    eapply lookup_in; eassumption.
Qed.

Lemma missing_fields_are_appended_as_zero_witness :
  exists ms w m,
    load_results (Examples.two_records
                  ++ Object Examples.count_only :: Examples.two_records)
    = Ok (ms, w)
    /\ 0 < 3
    /\ lookup ("eu-west-1", "c6i")%string ms = Some m
    /\ p99_samples m = [1200; 0; 1200]
    /\ cv_samples m = [5 # 100; 0; 5 # 100]%Q
    /\ aligned m.
Proof.
  assert (H : exists ms w,
            load_results (Examples.two_records
                          ++ Object Examples.count_only
                             :: Examples.two_records)
            = Ok (ms, w)) by (vm_compute; eexists; eexists; reflexivity).
  destruct H as (ms & w & H).
  destruct (missing_fields_are_appended_as_zero
              Examples.two_records Examples.two_records Examples.count_only
              ms w ("eu-west-1", "c6i")%string _ _ H eq_refl eq_refl eq_refl)
    as (m & K & _ & _ & _ & Ecv & E0 & Hal).
  exists ms, w, m. split; [exact H|]. split; [lia|]. split; [exact K|].
  split; [rewrite (E0 eq_refl); vm_compute; reflexivity|].
  split; [rewrite Ecv; vm_compute; reflexivity|].
  exact (Hal _ _ K).
Defined.

End LoaderFacts.

(** * More facts about the scoring engine *)

Section ScoringFacts.
Import Analyze Spec.

Lemma norm_p99_mono p1 p2 lo hi :
  (p1 <= p2)%Q -> (norm_p99 p1 lo hi <= norm_p99 p2 lo hi)%Q.
Proof.
  intros H. unfold norm_p99.
  destruct (Qlt_bool lo hi) eqn:E; [|apply Qle_refl].
  apply Qlt_bool_iff in E. unfold Qdiv.
  apply Qmult_le_compat_r; [lra|].
  apply Qinv_le_0_compat. lra.
Qed.

Lemma norm_cv_mono c1 c2 hi n1 n2 :
  (c1 <= c2)%Q ->
  norm_cv (Some c1) hi = Some n1 -> norm_cv (Some c2) hi = Some n2 ->
  (n1 <= n2)%Q.
Proof.
  intros H. unfold norm_cv.
  destruct (Qlt_bool 0 hi) eqn:E; intros E1 E2;
    inversion E1; inversion E2; subst; [|apply Qle_refl].
  apply Qlt_bool_iff in E. unfold Qdiv.
  apply Qmult_le_compat_r; [exact H|].
  apply Qinv_le_0_compat. lra.
Qed.

Lemma np_median_nonempty l : l <> [] -> np_median l = Some (median l).
Proof. destruct l; [congruence | reflexivity]. Qed.

(** A finite score is the weighted sum of the two normalized values. *)
Lemma finite_score_inv m all s :
  cv_samples m <> [] ->
  fst (compute_score m all) = Fin s ->
  exists p0 ps c0 cs nc,
    all_p99 all = p0 :: ps /\ all_cv all = c0 :: cs
    /\ norm_cv (Some (median (cv_samples m))) (py_max_list c0 cs) = Some nc
    /\ s = ((7 # 10)
            * norm_p99 (median_z (p99_samples m)) (py_min_list p0 ps)
                (py_max_list p0 ps)
            + (3 # 10) * nc)%Q.
Proof.
  intros Hc. unfold compute_score, normalize.
  destruct (nonempty (p99_samples m)); simpl; [|discriminate].
  destruct (all_p99 all) as [|p0 ps]; simpl; [discriminate|].
  destruct (all_cv all) as [|c0 cs]; simpl; [discriminate|].
  rewrite (np_median_nonempty _ Hc).
  destruct (norm_cv (Some (median (cv_samples m))) (py_max_list c0 cs))
    as [nc|] eqn:E; simpl; [|discriminate].
  intros H. inversion H; subst.
  exists p0, ps, c0, cs, nc. auto.
Qed.

(** X5.  Scored against the same set, a configuration whose median p99
    and median cv are both no higher than another's never gets the higher
    score. *)
Theorem lower_medians_never_score_higher (all : list ConfigMetrics)
    (m1 m2 : ConfigMetrics) (s1 s2 : Q) :
  cv_samples m1 <> [] -> cv_samples m2 <> [] ->
  fst (compute_score m1 all) = Fin s1 ->
  fst (compute_score m2 all) = Fin s2 ->
  (median_p99 m1 <= median_p99 m2)%Q ->
  (median (cv_samples m1) <= median (cv_samples m2))%Q ->
  (s1 <= s2)%Q.
Proof.
  intros C1 C2 E1 E2 Hp Hc.
  destruct (finite_score_inv _ _ _ C1 E1)
    as (p0 & ps & c0 & cs & n1 & A1 & B1 & N1 & ->).
  destruct (finite_score_inv _ _ _ C2 E2)
    as (p0' & ps' & c0' & cs' & n2 & A2 & B2 & N2 & ->).
  rewrite A1 in A2. rewrite B1 in B2.
  inversion A2; inversion B2; subst p0' ps' c0' cs'.
  pose proof (norm_p99_mono _ _ (py_min_list p0 ps) (py_max_list p0 ps) Hp)
    as M.
  pose proof (norm_cv_mono _ _ _ _ _ Hc N1 N2) as N.
  unfold median_p99 in M. lra.
Qed.

Lemma py_min_list_in (l : list Q) : forall x, In (py_min_list x l) (x :: l).
Proof.
  unfold py_min_list.
  induction l as [|b rest IH]; intros x; simpl; [auto|].
  destruct (IH (if Qlt_bool b x then b else x)) as [H|H];
    [|right; right; exact H].
  rewrite <- H. destruct (Qlt_bool b x); auto.
Qed.

Lemma py_max_list_in (l : list Q) : forall x, In (py_max_list x l) (x :: l).
Proof.
  unfold py_max_list.
  induction l as [|b rest IH]; intros x; simpl; [auto|].
  destruct (IH (if Qlt_bool x b then b else x)) as [H|H];
    [|right; right; exact H].
  rewrite <- H. destruct (Qlt_bool x b); auto.
Qed.

Lemma all_p99_inv all q :
  In q (all_p99 all) ->
  exists x, In x all /\ p99_samples x <> [] /\ q = median_p99 x.
Proof.
  unfold all_p99. rewrite in_map_iff. intros (x & E & Hx).
  apply filter_In in Hx. destruct Hx as [Hx Hn].
  exists x. split; [exact Hx|]. split; [apply nonempty_true; exact Hn|].
  symmetry; exact E.
Qed.

(** X6.  Among the configurations with p99 samples, one whose median p99
    is the lowest gets the normalized p99 0, and one whose median is the
    highest gets 1 as soon as some median is lower. *)
Theorem best_and_worst_p99_normalize_to_0_and_1 (all : list ConfigMetrics)
    (m : ConfigMetrics) (np : Q) (nc : option Q) :
  In m all ->
  p99_samples m <> [] ->
  normalize m all = Some (np, nc) ->
  ((forall x, In x all -> p99_samples x <> [] ->
      (median_p99 m <= median_p99 x)%Q) ->
   np == 0)
  /\ ((forall x, In x all -> p99_samples x <> [] ->
         (median_p99 x <= median_p99 m)%Q) ->
      (exists x, In x all /\ p99_samples x <> []
                 /\ (median_p99 x < median_p99 m)%Q) ->
      np == 1).
Proof.
  intros Hin Hp Hn.
  pose proof (in_all_p99 _ _ Hin Hp) as Ip.
  unfold normalize in Hn.
  destruct (all_p99 all) as [|p0 ps] eqn:Ea; [contradiction|].
  destruct (all_cv all) as [|c0 cs]; [discriminate|].
  inversion Hn; subst np nc. clear Hn.
  destruct (py_min_list_le ps p0) as [N1 N2].
  destruct (py_max_list_ge ps p0) as [M1 M2].
  assert (Lo : (py_min_list p0 ps <= median_z (p99_samples m))%Q)
    by (destruct Ip as [<-|Ip]; auto).
  assert (Hi : (median_z (p99_samples m) <= py_max_list p0 ps)%Q)
    by (destruct Ip as [<-|Ip]; auto).
  assert (Inv : forall q, In q (p0 :: ps) ->
            exists x, In x all /\ p99_samples x <> [] /\ q = median_p99 x).
  { intros q Hq. apply all_p99_inv. rewrite Ea. exact Hq. }
  unfold norm_p99, median_p99 in *. split.
  - intros Hbest.
    destruct (Inv _ (py_min_list_in ps p0)) as (x & Hx & Hxp & Ex).
    pose proof (Hbest x Hx Hxp) as B. rewrite <- Ex in B.
    destruct (Qlt_bool (py_min_list p0 ps) (py_max_list p0 ps)) eqn:E;
      [|reflexivity].
    apply Qlt_bool_iff in E. apply Qle_antisym.
    + apply Qle_shift_div_r; lra.
    + apply Qle_shift_div_l; lra.
  - intros Hworst (y & Hy & Hyp & Hlt).
    destruct (Inv _ (py_max_list_in ps p0)) as (x & Hx & Hxp & Ex).
    pose proof (Hworst x Hx Hxp) as B. rewrite <- Ex in B.
    pose proof (in_all_p99 _ _ Hy Hyp) as Iy. rewrite Ea in Iy.
    assert (Ly : (py_min_list p0 ps <= median_z (p99_samples y))%Q)
      by (destruct Iy as [<-|Iy]; auto).
    destruct (Qlt_bool (py_min_list p0 ps) (py_max_list p0 ps)) eqn:E.
    + apply Qlt_bool_iff in E. apply Qle_antisym.
      * apply Qle_shift_div_r; lra.
      * apply Qle_shift_div_l; lra.
    + apply Qlt_bool_false in E. exfalso. lra.
Qed.

Lemma compute_score_stats m all np nc :
  p99_samples m <> [] -> normalize m all = Some (np, Some nc) ->
  exists d,
    compute_score m all
    = (Fin ((7 # 10) * np + (3 # 10) * nc)%Q, Stats d)
    /\ p99_median_us d = py_int (median_p99 m)
    /\ samples d = length (p99_samples m)
    /\ d_reconnects d = reconnects m
    /\ d_errors d = errors m
    /\ d_message_count d = message_count m.
Proof.
  intros Hp Hn. unfold compute_score.
  apply nonempty_true in Hp. rewrite Hp, Hn. simpl.
  eexists; repeat split; reflexivity.
Qed.

(** X7.  In the ranking computed from a log, the details of an entry are
    the "no samples" error with score +inf when its configuration has no
    p99 sample, and otherwise the statistics of its configuration: the
    truncated median of its p99 samples, their number and its reconnect
    count.  The "insufficient data" outcome never occurs. *)
Theorem ranked_details_follow_the_samples (lines : list Line)
    (scored : list ScoredConfig) (s : ScoredConfig) :
  analyze_scored lines = Ok scored ->
  In s scored ->
  details s <> ErrorDetails "insufficient data"
  /\ match p99_samples (sc_metrics s) with
     | [] => details s = ErrorDetails "no samples" /\ score s = PosInf
     | _ :: _ =>
         exists d,
           details s = Stats d
           /\ p99_median_us d = py_int (median_p99 (sc_metrics s))
           /\ samples d = length (p99_samples (sc_metrics s))
           /\ d_reconnects d = reconnects (sc_metrics s)
     end.
Proof.
  intros Ha Hs.
  destruct (analyze_scored_inv _ _ Ha) as (ms & w & _ & _ & -> & Hal & _).
  apply in_rank_configs in Hs. destruct Hs as (m & Hm & ->).
  destruct (score_config_fields (map snd ms) m)
    as (F1 & _ & _ & _ & _ & F6 & F7).
  rewrite F1, F6, F7.
  destruct (p99_samples m) as [|z zs] eqn:Ep.
  - rewrite (compute_no_samples _ _ Ep). simpl.
    split; [discriminate | split; reflexivity].
  - assert (Hp : p99_samples m <> []) by congruence.
    rewrite Forall_forall in Hal.
    destruct (normalize_member _ _ Hm Hp (aligned_cv _ (Hal _ Hm) Hp))
      as (np & max_cv & Hn & _ & _).
    assert (E : exists nc,
              norm_cv (Some (median (cv_samples m))) max_cv = Some nc).
    { unfold norm_cv. destruct (Qlt_bool 0 max_cv); eauto. }
    destruct E as (nc & E). rewrite E in Hn.
    destruct (compute_score_stats _ _ _ _ Hp Hn)
      as (d & Hd & D1 & D2 & D3 & _).
    rewrite Hd. rewrite Ep in D2. cbn [fst snd].
    split; [discriminate|].
    exists d. split; [reflexivity|]. auto.
Qed.

Lemma lower_medians_never_score_higher_witness :
  exists s1 s2,
    fst (compute_score Examples.calm [Examples.calm; Examples.slow]) = Fin s1
    /\ fst (compute_score Examples.slow [Examples.calm; Examples.slow])
       = Fin s2
    /\ (s1 <= s2)%Q.
Proof.
  assert (E1 : exists s1,
            fst (compute_score Examples.calm [Examples.calm; Examples.slow])
            = Fin s1) by (vm_compute; eexists; reflexivity).
  assert (E2 : exists s2,
            fst (compute_score Examples.slow [Examples.calm; Examples.slow])
            = Fin s2) by (vm_compute; eexists; reflexivity).
  destruct E1 as (s1 & E1). destruct E2 as (s2 & E2).
  exists s1, s2. split; [exact E1|]. split; [exact E2|].
  apply (lower_medians_never_score_higher
           [Examples.calm; Examples.slow] Examples.calm Examples.slow s1 s2);
    [discriminate | discriminate | exact E1 | exact E2
    | vm_compute; discriminate | vm_compute; discriminate].
Defined.

Lemma best_and_worst_p99_normalize_to_0_and_1_witness :
  exists np0 nc0 np1 nc1,
    normalize Examples.calm [Examples.calm; Examples.slow]
    = Some (np0, nc0)
    /\ normalize Examples.slow [Examples.calm; Examples.slow]
       = Some (np1, nc1)
    /\ np0 == 0 /\ np1 == 1.
Proof.
  assert (E0 : exists np0 nc0,
            normalize Examples.calm [Examples.calm; Examples.slow]
            = Some (np0, nc0)) by (vm_compute; eexists; eexists; reflexivity).
  assert (E1 : exists np1 nc1,
            normalize Examples.slow [Examples.calm; Examples.slow]
            = Some (np1, nc1)) by (vm_compute; eexists; eexists; reflexivity).
  destruct E0 as (np0 & nc0 & E0). destruct E1 as (np1 & nc1 & E1).
  exists np0, nc0, np1, nc1. split; [exact E0|]. split; [exact E1|].
  split.
  - apply (proj1 (best_and_worst_p99_normalize_to_0_and_1
                    [Examples.calm; Examples.slow] Examples.calm np0 nc0
                    (or_introl eq_refl) ltac:(discriminate) E0)).
    intros x [<-|[<-|[]]] _; vm_compute; discriminate.
  - apply (proj2 (best_and_worst_p99_normalize_to_0_and_1
                    [Examples.calm; Examples.slow] Examples.slow np1 nc1
                    (or_intror (or_introl eq_refl)) ltac:(discriminate) E1)).
    + intros x [<-|[<-|[]]] _; vm_compute; discriminate.
    + exists Examples.calm. split; [left; reflexivity|].
      split; [discriminate | vm_compute; reflexivity].
Defined.

Lemma ranked_details_follow_the_samples_witness :
  analyze_scored Examples.ranking_log = Ok Examples.ranking
  /\ In Examples.last_ranked Examples.ranking
  /\ details Examples.last_ranked = ErrorDetails "no samples"
  /\ score Examples.last_ranked = PosInf.
Proof.
  assert (H1 : analyze_scored Examples.ranking_log = Ok Examples.ranking)
    by (vm_compute; reflexivity).
  assert (H2 : In Examples.last_ranked Examples.ranking)
    by (right; right; left; vm_compute; reflexivity).
  destruct (ranked_details_follow_the_samples _ _ _ H1 H2) as [_ M].
  assert (E : p99_samples (sc_metrics Examples.last_ranked) = [])
    by (vm_compute; reflexivity).
  rewrite E in M. split; [exact H1|]. split; [exact H2|]. exact M.
Defined.

End ScoringFacts.

(** * More facts about the comparator *)

Section ComparatorFacts.
Import Analyze Spec.

Lemma sort_Q_sorted (l : list Q) :
  StronglySorted (fun a b => Qlt_bool b a = false) (sort_by Qlt_bool l).
Proof.
  apply (sort_by_sorted _ Qlt_bool (fun _ => True)).
  - intros a b _ _ H. apply Qlt_bool_iff in H. apply Qlt_bool_false. lra.
  - intros a b c _ _ _ H1 H2. apply Qlt_bool_false in H1, H2.
    apply Qlt_bool_false. lra.
  - apply Forall_forall. auto.
Qed.

Lemma sorted_nth (s : list Q) :
  StronglySorted (fun a b => Qlt_bool b a = false) s ->
  forall i j, (i <= j)%nat -> (j < length s)%nat ->
    (nth i s 0 <= nth j s 0)%Q.
Proof.
  induction 1 as [|x rest Hs IH Hx]; intros i j Hij Hj; simpl in *; [lia|].
  destruct i, j; try lia.
  - apply Qle_refl.
  - rewrite Forall_forall in Hx. apply Qlt_bool_false. apply Hx.
    apply nth_In. lia.
  - apply IH; lia.
Qed.

(** The value interpolated between two neighbours of a sorted list grows
    with the position. *)
Lemma interpolation_mono (s : list Q) (pos1 pos2 : Q) :
  StronglySorted (fun a b => Qlt_bool b a = false) s ->
  (0 <= pos1)%Q -> (pos1 <= pos2)%Q ->
  (pos2 <= inject_Z (Z.of_nat (length s - 1)))%Q ->
  (nth (Z.to_nat (Qfloor pos1)) s 0
   + (pos1 - inject_Z (Qfloor pos1))
     * (nth (S (Z.to_nat (Qfloor pos1))) s
          (nth (Z.to_nat (Qfloor pos1)) s 0)
        - nth (Z.to_nat (Qfloor pos1)) s 0)
   <= nth (Z.to_nat (Qfloor pos2)) s 0
      + (pos2 - inject_Z (Qfloor pos2))
        * (nth (S (Z.to_nat (Qfloor pos2))) s
             (nth (Z.to_nat (Qfloor pos2)) s 0)
           - nth (Z.to_nat (Qfloor pos2)) s 0))%Q.
Proof.
  intros Hs H0 H12 H2.
  pose proof (Qfloor_resp_le _ _ H0) as F0.
  change (Qfloor 0) with 0 in F0.
  pose proof (Qfloor_resp_le _ _ H12) as F12.
  pose proof (Qfloor_resp_le _ _ H2) as F2. rewrite Qfloor_Z in F2.
  pose proof (Qfloor_le pos1) as L1. pose proof (Qlt_floor pos1) as U1.
  pose proof (Qfloor_le pos2) as L2. pose proof (Qlt_floor pos2) as U2.
  rewrite inject_Z_plus in U1, U2. change (inject_Z 1) with 1%Q in U1, U2.
  set (f1 := Qfloor pos1) in *. set (f2 := Qfloor pos2) in *.
  set (fr1 := (pos1 - inject_Z f1)%Q). set (fr2 := (pos2 - inject_Z f2)%Q).
  assert (B1 : (0 <= fr1 /\ fr1 <= 1)%Q) by (unfold fr1; split; lra).
  assert (B2 : (0 <= fr2 /\ fr2 <= 1)%Q) by (unfold fr2; split; lra).
  set (lo1 := Z.to_nat f1). set (lo2 := Z.to_nat f2).
  assert (Hlo : (lo1 <= lo2 /\ lo2 <= length s - 1)%nat)
    by (unfold lo1, lo2; lia).
  destruct (Nat.eq_dec (length s) 0) as [Hz|Hnz].
  { apply length_zero_iff_nil in Hz. subst s. simpl in Hlo.
    replace lo1 with 0%nat by lia. replace lo2 with 0%nat by lia.
    simpl. lra. }
  assert (Hlen : (0 < length s)%nat) by lia.
  assert (Step : forall lo, (lo < length s)%nat ->
            (nth lo s 0 <= nth (S lo) s (nth lo s 0))%Q).
  { intros lo Hl. destruct (Nat.lt_ge_cases (S lo) (length s)) as [C|C].
    - rewrite (nth_indep s _ 0%Q C). apply sorted_nth; [exact Hs | lia | lia].
    - rewrite (nth_overflow s _ C). apply Qle_refl. }
  pose proof (Step lo1 ltac:(lia)) as D1.
  pose proof (Step lo2 ltac:(lia)) as D2.
  set (a1 := nth lo1 s 0%Q) in *. set (a2 := nth lo2 s 0%Q) in *.
  set (b1 := nth (S lo1) s a1) in *. set (b2 := nth (S lo2) s a2) in *.
  destruct (Nat.eq_dec lo1 lo2) as [E|NE].
  - assert (Ef : f1 = f2) by (unfold lo1, lo2 in E; lia).
    assert (Efr : (fr1 <= fr2)%Q) by (unfold fr1, fr2; rewrite Ef; lra).
    assert (Ea : a2 = a1) by (unfold a1, a2; rewrite E; reflexivity).
    assert (Eb : b2 = b1)
      by (unfold b1, b2, a1, a2; rewrite E; reflexivity).
    rewrite Ea, Eb.
    assert (P : (fr1 * (b1 - a1) <= fr2 * (b1 - a1))%Q)
      by (apply Qmult_le_compat_r; lra).
    lra.
  - assert (Hlt : (S lo1 < length s)%nat) by lia.
    assert (M : (b1 <= a2)%Q).
    { unfold b1. rewrite (nth_indep s _ 0%Q Hlt).
      apply sorted_nth; [exact Hs | lia | lia]. }
    assert (P1 : (fr1 * (b1 - a1) <= 1 * (b1 - a1))%Q)
      by (apply Qmult_le_compat_r; lra).
    assert (P2 : (0 <= fr2 * (b2 - a2))%Q)
      by (apply Qmult_le_0_compat; lra).
    lra.
Qed.

Lemma np_percentile_mono (l : list Q) (q1 q2 : Q) :
  (0 <= q1)%Q -> (q1 <= q2)%Q -> (q2 <= 100)%Q ->
  (np_percentile l q1 <= np_percentile l q2)%Q.
Proof.
  intros H0 H12 H2. unfold np_percentile.
  set (s := sort_by Qlt_bool l).
  set (n := inject_Z (Z.of_nat (length s - 1))).
  assert (Hn : (0 <= n)%Q).
  { unfold n. rewrite <- (Zle_Qle 0). lia. }
  apply interpolation_mono.
  - apply sort_Q_sorted.
  - apply Qle_shift_div_l; [reflexivity|].
    setoid_replace (0 * 100)%Q with 0%Q by ring.
    apply Qmult_le_0_compat; assumption.
  - unfold Qdiv. apply Qmult_le_compat_r; [|discriminate].
    rewrite (Qmult_comm n q1), (Qmult_comm n q2).
    apply Qmult_le_compat_r; assumption.
  - apply Qle_shift_div_r; [reflexivity|].
    fold n. rewrite (Qmult_comm n q2), (Qmult_comm n 100).
    apply Qmult_le_compat_r; assumption.
Qed.

Lemma py_int_mono (x y : Q) : (x <= y)%Q -> py_int x <= py_int y.
Proof.
  intros H. unfold py_int.
  destruct (Qlt_bool x 0) eqn:Ex; destruct (Qlt_bool y 0) eqn:Ey.
  - apply Qceiling_resp_le; exact H.
  - apply Qlt_bool_iff in Ex. apply Qlt_bool_false in Ey.
    pose proof (Qfloor_resp_le _ _ Ey) as Fy.
    assert (Hx : (0 <= - x)%Q) by lra.
    pose proof (Qfloor_resp_le _ _ Hx) as Fx.
    change (Qfloor 0) with 0 in Fx, Fy.
    unfold Qceiling. lia.
  - apply Qlt_bool_false in Ex. apply Qlt_bool_iff in Ey. exfalso. lra.
  - apply Qfloor_resp_le; exact H.
Qed.

(** X8.  With five or more p99 samples on both sides the comparator
    returns the "statistical test failed" error when the rank test raises,
    and otherwise a result in which significance at 0.01 implies
    significance at 0.05 and the lower end of the confidence interval is
    not above its upper end. *)
Theorem comparison_of_five_or_more_samples (lib : StatsLib)
    (m1 m2 : ConfigMetrics) :
  (5 <= length (p99_samples m1))%nat ->
  (5 <= length (p99_samples m2))%nat ->
  match mannwhitneyu_less lib (p99_samples m1) (p99_samples m2) with
  | None =>
      statistical_comparison lib m1 m2
      = Some (ComparisonError "statistical test failed")
  | Some p =>
      exists s5 s1 d low high,
        statistical_comparison lib m1 m2
        = Some (ComparisonStats (py_round p 4) s5 s1 d (low, high))
        /\ (s5 = true <-> (p < 5 # 100)%Q)
        /\ (s1 = true <-> (p < 1 # 100)%Q)
        /\ (s1 = true -> s5 = true)
        /\ low <= high
  end.
Proof.
  intros H1 H2. unfold statistical_comparison.
  assert (N1 : nonempty (p99_samples m1) = true)
    by (destruct (p99_samples m1); [simpl in H1; lia | reflexivity]).
  assert (N2 : nonempty (p99_samples m2) = true)
    by (destruct (p99_samples m2); [simpl in H2; lia | reflexivity]).
  assert (L1 : (length (p99_samples m1) <? 5)%nat = false)
    by (apply Nat.ltb_ge; exact H1).
  assert (L2 : (length (p99_samples m2) <? 5)%nat = false)
    by (apply Nat.ltb_ge; exact H2).
  rewrite N1, N2, L1, L2. simpl.
  destruct (mannwhitneyu_less lib (p99_samples m1) (p99_samples m2))
    as [p|]; [|reflexivity].
  do 5 eexists. split; [reflexivity|].
  split; [apply Qlt_bool_iff|]. split; [apply Qlt_bool_iff|]. split.
  - rewrite !Qlt_bool_iff. intros H. lra.
  - apply py_int_mono. apply np_percentile_mono; lra.
Qed.

Lemma comparison_of_five_or_more_samples_witness :
  (5 <= length (p99_samples Examples.five_samples))%nat
  /\ statistical_comparison Examples.failing_stats Examples.five_samples
       Examples.five_samples
     = Some (ComparisonError "statistical test failed")
  /\ exists d low high,
       statistical_comparison Examples.fixed_stats Examples.five_samples
         Examples.five_samples
       = Some (ComparisonStats (py_round (3 # 1000) 4) true true d
                 (low, high))
       /\ low <= high.
Proof.
  assert (H : (5 <= length (p99_samples Examples.five_samples))%nat)
    by (simpl; lia).
  split; [exact H|]. split.
  - exact (comparison_of_five_or_more_samples Examples.failing_stats
             Examples.five_samples Examples.five_samples H H).
  - destruct (comparison_of_five_or_more_samples Examples.fixed_stats
                Examples.five_samples Examples.five_samples H H)
      as (s5 & s1 & d & low & high & E & S5 & S1 & _ & L).
    assert (T5 : s5 = true) by (apply S5; reflexivity).
    assert (T1 : s1 = true) by (apply S1; reflexivity).
    subst s5 s1. exists d, low, high. split; [exact E | exact L].
Defined.

End ComparatorFacts.

(** * Facts about the report and about analyze *)

Section ReportFacts.
Import Analyze Spec.

Lemma print_entry_lines i s :
  entry_lines (fst (print_entry i s))
  = [(i, passes_constraints s, sc_region s, sc_instance_family s)].
Proof.
  unfold print_entry. destruct (details s); simpl; [reflexivity|].
  destruct (nonempty (violations s)); reflexivity.
Qed.

Lemma print_entry_raises i s :
  (has_stats s -> snd (print_entry i s) = None)
  /\ (~ has_stats s ->
      snd (print_entry i s) = Some (Builtin (KeyError "p99_median_us"))).
Proof.
  unfold print_entry, has_stats. destruct (details s) as [msg|d]; simpl.
  - split; [intros (d & H); discriminate | reflexivity].
  - split; [reflexivity | intros H; exfalso; apply H; eauto].
Qed.

Lemma entry_lines_app a b :
  entry_lines (a ++ b) = entry_lines a ++ entry_lines b.
Proof. unfold entry_lines. apply flat_map_app. Qed.

Lemma print_entries_ok scored : forall i,
  Forall has_stats scored ->
  snd (print_entries i scored) = None
  /\ entry_lines (fst (print_entries i scored)) = numbered i scored.
Proof.
  induction scored as [|s rest IH]; intros i H; simpl.
  - split; reflexivity.
  - apply Forall_cons_iff in H. destruct H as [Hs Hrest].
    pose proof (proj1 (print_entry_raises i s) Hs) as R.
    pose proof (print_entry_lines i s) as L.
    destruct (print_entry i s) as [out r]. simpl in R, L. subst r.
    destruct (IH (S i) Hrest) as [R' L'].
    destruct (print_entries (S i) rest) as [out' r']. simpl in *.
    split; [exact R'|].
    rewrite entry_lines_app, L, L'. reflexivity.
Qed.

Lemma print_entries_fail pre s post : forall i,
  Forall has_stats pre -> ~ has_stats s ->
  snd (print_entries i (pre ++ s :: post))
  = Some (Builtin (KeyError "p99_median_us"))
  /\ entry_lines (fst (print_entries i (pre ++ s :: post)))
     = numbered i (pre ++ [s]).
Proof.
  induction pre as [|x pre IH]; intros i H Hs; simpl.
  - pose proof (proj2 (print_entry_raises i s) Hs) as R.
    pose proof (print_entry_lines i s) as L.
    destruct (print_entry i s) as [out r]. simpl in R, L. subst r.
    simpl. split; [reflexivity | exact L].
  - apply Forall_cons_iff in H. destruct H as [Hx Hpre].
    pose proof (proj1 (print_entry_raises i x) Hx) as R.
    pose proof (print_entry_lines i x) as L.
    destruct (print_entry i x) as [out r]. simpl in R, L. subst r.
    destruct (IH (S i) Hpre Hs) as [R' L'].
    destruct (print_entries (S i) (pre ++ s :: post)) as [out' r'].
    simpl in *. split; [exact R'|].
    rewrite entry_lines_app, L, L'. reflexivity.
Qed.

Lemma print_entry_scores i s :
  score_lines (fst (print_entry i s)) = [score s].
Proof.
  unfold print_entry. destruct (details s); simpl; [reflexivity|].
  destruct (nonempty (violations s)); reflexivity.
Qed.

Lemma score_lines_app a b :
  score_lines (a ++ b) = score_lines a ++ score_lines b.
Proof. unfold score_lines. apply flat_map_app. Qed.

Lemma print_entries_scores scored : forall i,
  Forall has_stats scored ->
  score_lines (fst (print_entries i scored)) = map score scored.
Proof.
  induction scored as [|s rest IH]; intros i H; simpl.
  - reflexivity.
  - apply Forall_cons_iff in H. destruct H as [Hs Hrest].
    pose proof (proj1 (print_entry_raises i s) Hs) as R.
    pose proof (print_entry_scores i s) as L.
    destruct (print_entry i s) as [out r]. simpl in R, L. subst r.
    pose proof (IH (S i) Hrest) as L'.
    destruct (print_entries (S i) rest) as [out' r']. simpl in *.
    rewrite score_lines_app, L, L'. reflexivity.
Qed.

(** The output up to the failing entry: its last two lines are the header
    and the score of that entry. *)
Lemma print_entries_fail_scores pre s post : forall i,
  Forall has_stats pre -> ~ has_stats s ->
  score_lines (fst (print_entries i (pre ++ s :: post)))
  = map score (pre ++ [s])
  /\ exists out,
       fst (print_entries i (pre ++ s :: post))
       = out ++ [EntryLine (i + length pre) (passes_constraints s)
                   (sc_region s) (sc_instance_family s);
                 ScoreLine (score s)].
Proof.
  induction pre as [|x pre IH]; intros i H Hs; simpl.
  - unfold has_stats in Hs. unfold print_entry.
    destruct (details s) as [msg|d]; [|exfalso; apply Hs; eauto].
    simpl. split; [reflexivity|]. exists [].
    rewrite Nat.add_0_r. reflexivity.
  - apply Forall_cons_iff in H. destruct H as [Hx Hpre].
    pose proof (proj1 (print_entry_raises i x) Hx) as R.
    pose proof (print_entry_scores i x) as L.
    destruct (print_entry i x) as [out r]. simpl in R, L. subst r.
    destruct (IH (S i) Hpre Hs) as (L' & tl & T).
    destruct (print_entries (S i) (pre ++ s :: post)) as [out' r'].
    simpl in *. split.
    + rewrite score_lines_app, L, L'. reflexivity.
    + exists (out ++ tl). rewrite T, <- app_assoc.
      replace (i + S (length pre))%nat with (S (i + length pre))%nat by lia.
      reflexivity.
Qed.

(** X9.  [print_ranking] prints the entries in order, numbered from 1,
    each with its verdict and its score; on the first entry whose details
    are an error bag it raises KeyError 'p99_median_us' right after
    printing the header and the score of that entry, and prints no later
    entry. *)
Theorem print_ranking_stops_at_the_first_error_bag
    (scored : list ScoredConfig) :
  (Forall has_stats scored ->
   snd (print_ranking scored) = None
   /\ entry_lines (fst (print_ranking scored)) = numbered 1 scored
   /\ score_lines (fst (print_ranking scored)) = map score scored)
  /\ (forall pre s post,
        scored = pre ++ s :: post -> Forall has_stats pre -> ~ has_stats s ->
        snd (print_ranking scored)
        = Some (Builtin (KeyError "p99_median_us"))
        /\ entry_lines (fst (print_ranking scored))
           = numbered 1 (pre ++ [s])
        /\ score_lines (fst (print_ranking scored))
           = map score (pre ++ [s])
        /\ exists out,
             fst (print_ranking scored)
             = out ++ [EntryLine (S (length pre)) (passes_constraints s)
                         (sc_region s) (sc_instance_family s);
                       ScoreLine (score s)]).
Proof.
  unfold print_ranking. split.
  - intros H. destruct (print_entries_ok scored 1%nat H) as [R L].
    pose proof (print_entries_scores scored 1%nat H) as C.
    destruct (print_entries 1 scored) as [out r]. simpl in *. auto.
  - intros pre s post -> Hpre Hs.
    destruct (print_entries_fail pre s post 1%nat Hpre Hs) as [R L].
    destruct (print_entries_fail_scores pre s post 1%nat Hpre Hs)
      as (C & tl & T).
    destruct (print_entries 1 (pre ++ s :: post)) as [out r].
    simpl in *. repeat (split; [assumption|]).
    exists (Banner "RANKING (lower score = better)" :: tl).
    rewrite T. reflexivity.
Qed.

(** ** Entries of a ranking computed from a log *)

Lemma analyze_scored_consistent lines scored :
  analyze_scored lines = Ok scored -> Forall consistent scored.
Proof.
  intros Ha.
  destruct (analyze_scored_inv _ _ Ha) as (ms & w & _ & _ & -> & Hal & _).
  apply Forall_forall. intros s Hs.
  apply in_rank_configs in Hs. destruct Hs as (m & Hm & ->).
  destruct (score_config_fields (map snd ms) m)
    as (F1 & _ & _ & F4 & _ & _ & F7).
  unfold consistent, has_stats. rewrite F1, F4, F7.
  destruct (p99_samples m) as [|z zs] eqn:Ep.
  - rewrite (compute_no_samples _ _ Ep), (check_no_samples _ Ep). simpl.
    split; [intros (d & H); discriminate | reflexivity].
  - rewrite Forall_forall in Hal.
    destruct (compute_with_samples m _ Hm (Hal _ Hm)) as (q & d & E & D);
      [congruence|].
    rewrite E. simpl. exists d. split; [reflexivity | exact D].
Qed.

Lemma consistent_passing s :
  consistent s -> passes_constraints s = true ->
  p99_samples (sc_metrics s) <> []
  /\ exists d, details s = Stats d
               /\ p99_median_us d = py_int (median_p99 (sc_metrics s)).
Proof.
  unfold consistent. destruct (p99_samples (sc_metrics s)).
  - intros [_ F] P. congruence.
  - intros H _. split; [discriminate | exact H].
Qed.

Lemma consistent_stats s :
  consistent s -> (has_stats s <-> p99_samples (sc_metrics s) <> []).
Proof.
  unfold consistent. destruct (p99_samples (sc_metrics s)).
  - intros [N _]. split; [contradiction | congruence].
  - intros (d & H & _). split; [discriminate | intros _; exists d; exact H].
Qed.

Lemma in_passing scored s :
  In s (passing scored) -> In s scored /\ passes_constraints s = true.
Proof. unfold passing. apply filter_In. Qed.

Lemma print_comparison_snd lib scored :
  Forall consistent scored -> snd (print_comparison lib scored) = None.
Proof.
  intros H. rewrite Forall_forall in H. unfold print_comparison.
  destruct (passing scored) as [|a [|b rest]] eqn:E; try reflexivity.
  assert (Ha : In a (passing scored)) by (rewrite E; simpl; auto).
  assert (Hb : In b (passing scored)) by (rewrite E; simpl; auto).
  apply in_passing in Ha, Hb. destruct Ha as [Ia Pa], Hb as [Ib Pb].
  destruct (consistent_passing _ (H _ Ia) Pa) as [Na _].
  destruct (consistent_passing _ (H _ Ib) Pb) as [Nb _].
  apply nonempty_true in Na, Nb.
  unfold statistical_comparison. rewrite Na, Nb. simpl.
  destruct ((length (p99_samples (sc_metrics a)) <? 5)%nat
            || (length (p99_samples (sc_metrics b)) <? 5)%nat);
    [reflexivity|].
  destruct (mannwhitneyu_less lib (p99_samples (sc_metrics a))
              (p99_samples (sc_metrics b))); reflexivity.
Qed.

Lemma print_comparison_fst lib scored :
  fst (print_comparison lib scored) = []
  <-> (length (passing scored) < 2)%nat.
Proof.
  unfold print_comparison.
  destruct (passing scored) as [|a [|b rest]]; simpl;
    try (split; [intros _; lia | reflexivity]).
  destruct (statistical_comparison lib (sc_metrics a) (sc_metrics b))
    as [[msg|p s5 s1 d ci]|]; simpl; split; try discriminate; lia.
Qed.

(** X10.  On the ranking computed from a log, [print_comparison] never
    raises: the two entries it compares have p99 samples, so the
    comparator does not return [None]; and it prints nothing exactly when
    fewer than two entries pass. *)
Theorem print_comparison_never_raises (lib : StatsLib) (lines : list Line)
    (scored : list ScoredConfig) :
  analyze_scored lines = Ok scored ->
  snd (print_comparison lib scored) = None
  /\ (fst (print_comparison lib scored) = []
      <-> (length (passing scored) < 2)%nat).
Proof.
  intros Ha. split.
  - apply print_comparison_snd. eapply analyze_scored_consistent; exact Ha.
  - apply print_comparison_fst.
Qed.

Lemma print_recommendation_snd scored :
  Forall consistent scored ->
  snd (print_recommendation scored)
  = match passing scored with
    | _ :: runner_up :: _ =>
        if py_int (median_p99 (sc_metrics runner_up)) =? 0
        then Some (ZeroDivisionError "division by zero")
        else None
    | _ => None
    end.
Proof.
  intros H. rewrite Forall_forall in H. unfold print_recommendation.
  destruct (passing scored) as [|a rest] eqn:E; [reflexivity|].
  assert (Ha : In a (passing scored)) by (rewrite E; simpl; auto).
  apply in_passing in Ha. destruct Ha as [Ia Pa].
  destruct (consistent_passing _ (H _ Ia) Pa) as (_ & da & Da & _).
  rewrite Da. destruct rest as [|b rest]; [reflexivity|].
  assert (Hb : In b (passing scored)) by (rewrite E; simpl; auto).
  apply in_passing in Hb. destruct Hb as [Ib Pb].
  destruct (consistent_passing _ (H _ Ib) Pb) as (_ & db & Db & Mb).
  rewrite Db, Mb.
  destruct (py_int (median_p99 (sc_metrics b)) =? 0); reflexivity.
Qed.

(** X11.  On the ranking computed from a log, [print_recommendation]
    raises exactly when two or more entries pass and the p99 median of the
    second passing entry, truncated to an integer, is 0: the improvement
    over the runner-up divides by it.  It never raises KeyError, and with
    no passing entry it prints the warning and returns. *)
Theorem print_recommendation_divides_by_runner_up_median
    (lines : list Line) (scored : list ScoredConfig) :
  analyze_scored lines = Ok scored ->
  snd (print_recommendation scored)
  = match passing scored with
    | _ :: runner_up :: _ =>
        if py_int (median_p99 (sc_metrics runner_up)) =? 0
        then Some (ZeroDivisionError "division by zero")
        else None
    | _ => None
    end
  /\ (passing scored = [] ->
      print_recommendation scored
      = ([Banner "RECOMMENDATION"; NoViableWarning], None)).
Proof.
  intros Ha. split.
  - apply print_recommendation_snd.
    eapply analyze_scored_consistent; exact Ha.
  - intros E. unfold print_recommendation. rewrite E. reflexivity.
Qed.

Lemma print_recommendation_divides_by_runner_up_median_witness :
  analyze_scored Examples.zero_latency_log = Ok Examples.zero_latency_ranking
  /\ map passes_constraints Examples.zero_latency_ranking = [true; true]
  /\ map (fun s => p99_samples (sc_metrics s)) Examples.zero_latency_ranking
     = [[0]; [0]]
  /\ snd (print_recommendation Examples.zero_latency_ranking)
     = Some (ZeroDivisionError "division by zero").
Proof.
  assert (H : analyze_scored Examples.zero_latency_log
              = Ok Examples.zero_latency_ranking)
    by (vm_compute; reflexivity).
  destruct (print_recommendation_divides_by_runner_up_median _ _ H)
    as [E _].
  split; [exact H|]. split; [vm_compute; reflexivity|].
  split; [vm_compute; reflexivity|].
  rewrite E. vm_compute. reflexivity.
Defined.

Lemma print_comparison_never_raises_witness :
  analyze_scored Examples.zero_latency_log = Ok Examples.zero_latency_ranking
  /\ print_comparison Examples.failing_stats Examples.zero_latency_ranking
     = ([Banner "STATISTICAL COMPARISON (Top 2)";
         CannotCompare "insufficient samples for statistical comparison"],
        None).
Proof.
  assert (H : analyze_scored Examples.zero_latency_log
              = Ok Examples.zero_latency_ranking)
    by (vm_compute; reflexivity).
  destruct (print_comparison_never_raises Examples.failing_stats _ _ H)
    as [E _].
  split; [exact H|].
  destruct (print_comparison Examples.failing_stats
              Examples.zero_latency_ranking) as [out r] eqn:P.
  simpl in E. subst r. vm_compute in P. inversion P. reflexivity.
Defined.

Lemma existsb_first {A : Type} (f : A -> bool) (l : list A) :
  existsb f l = true ->
  exists pre x post,
    l = pre ++ x :: post /\ Forall (fun y => f y = false) pre /\ f x = true.
Proof.
  induction l as [|a l IH]; simpl; [discriminate|].
  destruct (f a) eqn:E; simpl.
  - intros _. exists [], a, l. split; [reflexivity|]. split; [constructor|].
    exact E.
  - intros H. destruct (IH H) as (pre & x & post & -> & Hpre & Hx).
    exists (a :: pre), x, post. split; [reflexivity|].
    split; [constructor; assumption | exact Hx].
Qed.

Lemma export_json_ok scored :
  Forall consistent scored -> exists doc, export_json scored = Ok doc.
Proof.
  intros H. rewrite Forall_forall in H. unfold export_json.
  destruct (passing scored) as [|w rest] eqn:E; [eauto|].
  assert (Hw : In w (passing scored)) by (rewrite E; simpl; auto).
  apply in_passing in Hw. destruct Hw as [Iw Pw].
  destruct (consistent_passing _ (H _ Iw) Pw) as (_ & d & D & _).
  rewrite D. eauto.
Qed.

(** The three stages of the report, run on a ranking computed from a
    log. *)
Lemma analyze_run_spec (lib : StatsLib) (lines : list Line)
    (json_output : bool) (scored : list ScoredConfig) :
  analyze_scored lines = Ok scored ->
  raised (analyze lib lines json_output) = ending scored
  /\ (exported (analyze lib lines json_output) <> None
      <-> json_output = true /\ ending scored = None)
  /\ (forall doc,
        exported (analyze lib lines json_output) = Some doc ->
        export_json scored = Ok doc).
Proof.
  intros Ha. pose proof (analyze_scored_consistent _ _ Ha) as C.
  unfold analyze, ending. rewrite Ha.
  destruct (existsb
              (fun s => negb (nonempty (p99_samples (sc_metrics s))))
              scored) eqn:Ex.
  - destruct (existsb_first _ _ Ex) as (pre & s & post & E & Hpre & Hs).
    assert (Hstats : Forall has_stats pre).
    { rewrite Forall_forall in *. intros x Hx.
      apply consistent_stats.
      - apply C. rewrite E. apply in_or_app. left. exact Hx.
      - apply nonempty_true. specialize (Hpre x Hx).
        apply negb_false_iff in Hpre. exact Hpre. }
    assert (Hno : ~ has_stats s).
    { intros Hst. rewrite Forall_forall in C.
      apply consistent_stats in Hst;
        [|apply C; rewrite E; apply in_or_app; right; left; reflexivity].
      apply nonempty_true in Hst. rewrite Hst in Hs. discriminate. }
    destruct (print_entries_fail pre s post 1%nat Hstats Hno) as [R _].
    unfold print_ranking. rewrite E.
    destruct (print_entries 1 (pre ++ s :: post)) as [out r].
    simpl in R. subst r. simpl.
    split; [reflexivity|]. split; [|discriminate].
    split; [intros H; exfalso; apply H; reflexivity|].
    intros [_ H]; discriminate.
  - assert (Hstats : Forall has_stats scored).
    { rewrite Forall_forall in *. intros x Hx.
      apply consistent_stats; [apply C; exact Hx|].
      apply nonempty_true.
      destruct (nonempty (p99_samples (sc_metrics x))) eqn:N;
        [reflexivity|].
      assert (T : existsb
                    (fun s => negb (nonempty (p99_samples (sc_metrics s))))
                    scored = true).
      { apply existsb_exists. exists x. rewrite N. auto. }
      congruence. }
    destruct (print_entries_ok scored 1%nat Hstats) as [R _].
    unfold print_ranking.
    destruct (print_entries 1 scored) as [o1 r1]. simpl in R. subst r1.
    pose proof (print_comparison_snd lib scored C) as R2.
    destruct (print_comparison lib scored) as [o2 r2]. simpl in R2. subst r2.
    pose proof (print_recommendation_snd scored C) as R3.
    destruct (print_recommendation scored) as [o3 r3]. simpl in R3.
    rewrite <- R3. clear R3.
    destruct r3 as [e|]; simpl.
    + split; [reflexivity|]. split; [|discriminate].
      split; [intros H; exfalso; apply H; reflexivity|].
      intros [_ H]; discriminate.
    + destruct (export_json_ok scored C) as (doc & D). rewrite D.
      destruct json_output; simpl.
      * split; [reflexivity|]. split; [split; [auto | discriminate]|].
        intros doc' H. inversion H. reflexivity.
      * split; [reflexivity|]. split; [|discriminate].
        split; [intros H; exfalso; apply H; reflexivity|].
        intros [H _]; discriminate.
Qed.

(** X12.  On a log that loads to at least one configuration, [analyze]
    ends with the KeyError of [print_ranking] when some configuration has
    no p99 sample, else with the division by zero of
    [print_recommendation] when the second passing entry has the p99
    median 0, else normally; the JSON document is written only in the
    last case, and only when [--json] is given. *)
Theorem analyze_ends_on_a_ranking (lib : StatsLib) (lines : list Line)
    (json_output : bool) (scored : list ScoredConfig) :
  analyze_scored lines = Ok scored ->
  raised (analyze lib lines json_output) = ending scored
  /\ (exported (analyze lib lines json_output) <> None
      <-> json_output = true /\ ending scored = None)
  /\ (forall doc,
        exported (analyze lib lines json_output) = Some doc ->
        export_json scored = Ok doc).
Proof. apply analyze_run_spec. Qed.

Lemma analyze_ends_on_a_ranking_witness :
  analyze_scored Examples.ranking_log = Ok Examples.ranking
  /\ raised (analyze Examples.failing_stats Examples.ranking_log true)
     = Some (Builtin (KeyError "p99_median_us"))
  /\ exported (analyze Examples.failing_stats Examples.ranking_log true)
     = None
  /\ analyze_scored Examples.zero_latency_log
     = Ok Examples.zero_latency_ranking
  /\ raised (analyze Examples.failing_stats Examples.zero_latency_log true)
     = Some (ZeroDivisionError "division by zero").
Proof.
  assert (H1 : analyze_scored Examples.ranking_log = Ok Examples.ranking)
    by (vm_compute; reflexivity).
  assert (H2 : analyze_scored Examples.zero_latency_log
               = Ok Examples.zero_latency_ranking)
    by (vm_compute; reflexivity).
  destruct (analyze_ends_on_a_ranking Examples.failing_stats _ true _ H1)
    as (E1 & _ & _).
  destruct (analyze_ends_on_a_ranking Examples.failing_stats _ true _ H2)
    as (E2 & _ & _).
  split; [exact H1|]. split; [rewrite E1; vm_compute; reflexivity|].
  split; [vm_compute; reflexivity|]. split; [exact H2|].
  rewrite E2. vm_compute. reflexivity.
Defined.

Lemma no_record_no_configuration lines :
  Forall loadable lines ->
  (Forall (fun l => l = Malformed) lines
   <-> analyze_scored lines = Raise (SystemExit 1)).
Proof.
  intros Hl.
  destruct (proj1 (load_lines_loadable lines 1%nat [] []) Hl)
    as (ms & w & Hload).
  fold (load_results lines) in Hload.
  unfold analyze_scored. rewrite Hload. simpl.
  destruct ms as [|[k m] rest]; simpl.
  - split; [reflexivity|]. intros _.
    rewrite Forall_forall in *. intros l Hin.
    destruct (Hl l Hin) as [->|(o & k & p & -> & Hr)]; [reflexivity|].
    exfalso.
    assert (K : exists m, lookup k [] = Some m).
    { apply (load_results_has_key lines [] w k Hload).
      exists (Object o). split; [exact Hin|]. simpl. rewrite Hr.
      reflexivity. }
    destruct K as (m & K). discriminate.
  - split; [|discriminate]. intros Hall. exfalso.
    assert (K : exists l, In l lines /\ line_key l = Some k).
    { apply (load_results_has_key lines _ w k Hload).
      exists m. simpl. rewrite key_eqb_refl. reflexivity. }
    destruct K as (l & Hin & Hk).
    rewrite Forall_forall in Hall. rewrite (Hall l Hin) in Hk.
    discriminate.
Qed.

(** X13.  On a log whose lines all decode to full records or not at all,
    [analyze] exits with status 1, having printed no report, exactly when
    the log holds no record: when it is empty or every line is
    undecodable. *)
Theorem log_without_records_exits_with_status_1 (lib : StatsLib)
    (lines : list Line) (json_output : bool) :
  Forall loadable lines ->
  (Forall (fun l => l = Malformed) lines
   <-> raised (analyze lib lines json_output)
       = Some (Builtin (SystemExit 1)))
  /\ (Forall (fun l => l = Malformed) lines ->
      analyze lib lines json_output = aborted [] (Builtin (SystemExit 1))).
Proof.
  intros Hl. pose proof (no_record_no_configuration lines Hl) as N.
  assert (F : Forall (fun l => l = Malformed) lines ->
              analyze lib lines json_output
              = aborted [] (Builtin (SystemExit 1))).
  { intros H. apply N in H. unfold analyze. rewrite H. reflexivity. }
  split; [|exact F]. split.
  - intros H. rewrite (F H). reflexivity.
  - intros R. apply N.
    destruct (analyze_scored lines) as [scored|e] eqn:Ha.
    + exfalso.
      pose proof (proj1 (analyze_run_spec lib lines json_output scored Ha))
        as E.
      rewrite E in R. unfold ending in R.
      destruct (existsb _ scored); [discriminate|].
      destruct (passing scored) as [|a [|b rest]]; try discriminate.
      destruct (py_int (median_p99 (sc_metrics b)) =? 0); discriminate.
    + unfold analyze in R. rewrite Ha in R. simpl in R.
      inversion R. reflexivity.
Qed.

Lemma log_without_records_exits_with_status_1_witness :
  Forall loadable [Malformed; Malformed]
  /\ analyze Examples.failing_stats [Malformed; Malformed] true
     = aborted [] (Builtin (SystemExit 1)).
Proof.
  assert (H : Forall loadable [Malformed; Malformed])
    by (repeat (apply Forall_cons; [left; reflexivity|]); apply Forall_nil).
  split; [exact H|].
  apply (proj2 (log_without_records_exits_with_status_1
                  Examples.failing_stats [Malformed; Malformed] true H)).
  repeat (apply Forall_cons; [reflexivity|]). apply Forall_nil.
Defined.

Lemma map_fst_combine {A B : Type} (a : list A) (b : list B) :
  length a = length b -> map fst (combine a b) = a.
Proof.
  revert b. induction a as [|x a IH]; intros [|y b] H; simpl in *;
    try discriminate; [reflexivity|].
  rewrite IH by lia. reflexivity.
Qed.

Lemma map_snd_combine {A B : Type} (a : list A) (b : list B) :
  length a = length b -> map snd (combine a b) = b.
Proof.
  revert b. induction a as [|x a IH]; intros [|y b] H; simpl in *;
    try discriminate; [reflexivity|].
  rewrite IH by lia. reflexivity.
Qed.

Lemma sorted_passing_head scored w rest :
  StronglySorted key_le scored -> passing scored = w :: rest ->
  exists tl, scored = w :: tl.
Proof.
  intros Hs E. destruct (filter_head _ _ _ _ E) as (Pw & l1 & l2 & -> & F).
  destruct l1 as [|x l1]; [exists l2; reflexivity|]. exfalso.
  apply Forall_cons_iff in F. destruct F as [Fx _].
  assert (B : before x w ((x :: l1) ++ w :: l2))
    by (exists [], l1, l2; reflexivity).
  pose proof (strongly_sorted_before _ _ _ _ Hs B) as L.
  unfold key_le in L. destruct L as [[C _]|[C _]]; congruence.
Qed.

(** X14.  The document exported for a ranking computed from a log lists
    the entries in ranking order, numbered 1, 2, ... without gaps; a
    recommendation, when there is one, is the entry of rank 1, and gives
    its p99 median in milliseconds and its rounded cv median. *)
Theorem exported_recommendation_is_rank_1 (lines : list Line)
    (scored : list ScoredConfig) :
  analyze_scored lines = Ok scored ->
  exists doc,
    export_json scored = Ok doc
    /\ map fst (rankings doc) = seq 1 (length scored)
    /\ map snd (rankings doc) = scored
    /\ forall r, recommendation doc = Some r ->
         exists w tl d,
           scored = w :: tl
           /\ passes_constraints w = true
           /\ details w = Stats d
           /\ r = {| rec_region := sc_region w;
                     rec_instance_family := sc_instance_family w;
                     p99_ms := (inject_Z (p99_median_us d) / 1000)%Q;
                     rec_cv := cv_median d |}.
Proof.
  intros Ha. pose proof (analyze_scored_consistent _ _ Ha) as C.
  destruct (analyze_scored_inv _ _ Ha) as (ms & w0 & _ & _ & E & Hal & _).
  pose proof (rank_configs_sorted _ Hal) as Hs. rewrite <- E in Hs.
  clear E Hal ms w0.
  unfold export_json.
  destruct (passing scored) as [|w rest] eqn:Ep.
  - eexists. split; [reflexivity|]. simpl.
    split; [apply map_fst_combine; apply length_seq|].
    split; [apply map_snd_combine; apply length_seq|].
    intros r H. discriminate.
  - assert (Hw : In w (passing scored)) by (rewrite Ep; simpl; auto).
    apply in_passing in Hw. destruct Hw as [Iw Pw].
    rewrite Forall_forall in C.
    destruct (consistent_passing _ (C _ Iw) Pw) as (_ & d & D & _).
    rewrite D. eexists. split; [reflexivity|]. simpl.
    split; [apply map_fst_combine; apply length_seq|].
    split; [apply map_snd_combine; apply length_seq|].
    intros r H. inversion H; subst r. clear H.
    destruct (sorted_passing_head _ _ _ Hs Ep) as (tl & Etl).
    exists w, tl, d. auto.
Qed.

Lemma exported_recommendation_is_rank_1_witness :
  analyze_scored Examples.ranking_log = Ok Examples.ranking
  /\ exists doc r,
       export_json Examples.ranking = Ok doc
       /\ map fst (rankings doc) = [1; 2; 3]%nat
       /\ recommendation doc = Some r
       /\ rec_region r = "eu-west-1"%string
       /\ p99_ms r == 12.
Proof.
  assert (H : analyze_scored Examples.ranking_log = Ok Examples.ranking)
    by (vm_compute; reflexivity).
  destruct (exported_recommendation_is_rank_1 _ _ H)
    as (doc & E & N & _ & _).
  split; [exact H|].
  assert (R : exists r, recommendation doc = Some r
                        /\ rec_region r = "eu-west-1"%string
                        /\ p99_ms r == 12).
  { vm_compute in E. inversion E; subst doc. eexists.
    split; [reflexivity|]. split; reflexivity. }
  destruct R as (r & R1 & R2 & R3).
  exists doc, r. split; [exact E|]. split; [rewrite N; reflexivity|].
  auto.
Defined.

End ReportFacts.

(** * Facts about the orchestrator *)

Section OrchestratorFacts.
Import RunSweep Spec.

Lemma nonempty_true_list {A : Type} (l : list A) :
  Analyze.nonempty l = true -> l <> [].
Proof. destruct l; [discriminate | discriminate]. Qed.

Lemma is_in_cases x l : is_in x l = true <-> In x l.
Proof.
  unfold is_in. rewrite existsb_exists. split.
  - intros (y & Hy & E). apply String.eqb_eq in E. subst. exact Hy.
  - intros H. exists x. split; [exact H | apply String.eqb_refl].
Qed.

(** X15.  For the four terraform actions the script uses, the command
    line carries [-auto-approve] exactly when auto-approval is on and the
    action is apply or destroy (never for plan), and [init] gets no
    variable at all. *)
Theorem auto_approve_only_for_apply_and_destroy (action : string)
    (phase : Z) (extra_vars : option (list (string * string)))
    (auto_approve : bool) :
  is_in action ["init"; "plan"; "apply"; "destroy"]%string = true ->
  (In "-auto-approve"%string
      (terraform_cmd action phase extra_vars auto_approve)
   <-> auto_approve = true
       /\ (action = "apply"%string \/ action = "destroy"%string))
  /\ (action = "init"%string ->
      terraform_cmd action phase extra_vars auto_approve
      = ["terraform"; "init"]%string).
Proof.
  intros H. apply is_in_cases in H.
  assert (V : forall vars : list (string * string),
            ~ In "-auto-approve"%string
                (map (fun kv => ("-var=" ++ fst kv ++ "=" ++ snd kv)%string)
                   vars)).
  { intros vars Hin. apply in_map_iff in Hin.
    destruct Hin as (kv & E & _). simpl in E. discriminate. }
  assert (W : ~ In "-auto-approve"%string
                (match extra_vars with
                 | Some vars =>
                     map (fun kv =>
                            ("-var=" ++ fst kv ++ "=" ++ snd kv)%string) vars
                 | None => []
                 end)).
  { destruct extra_vars; [apply V | intros []]. }
  destruct H as [<-|[<-|[<-|[<-|[]]]]]; unfold terraform_cmd; simpl.
  - split; [|reflexivity].
    split; [intros [C|[C|[]]]; discriminate
           | intros [_ [C|C]]; discriminate].
  - split; [|discriminate]. rewrite andb_false_r, app_nil_r.
    split; [|intros [_ [C|C]]; discriminate].
    intros [C|[C|[C|C]]]; try discriminate. contradiction.
  - split; [|discriminate]. rewrite andb_true_r.
    split.
    + intros [C|[C|[C|C]]]; try discriminate.
      apply in_app_or in C. destruct C as [C|C]; [contradiction|].
      destruct auto_approve; [auto | destruct C].
    + intros [-> _]. right. right. right. apply in_or_app. right.
      left. reflexivity.
  - split; [|discriminate]. rewrite andb_true_r.
    split.
    + intros [C|[C|[C|C]]]; try discriminate.
      apply in_app_or in C. destruct C as [C|C]; [contradiction|].
      destruct auto_approve; [auto | destruct C].
    + intros [-> _]. right. right. right. apply in_or_app. right.
      left. reflexivity.
Qed.

Lemma auto_approve_only_for_apply_and_destroy_witness :
  terraform_cmd "destroy" 2 None true
  = ["terraform"; "destroy"; "-var=phase=2"; "-auto-approve"]%string
  /\ In "-auto-approve"%string (terraform_cmd "destroy" 2 None true)
  /\ ~ In "-auto-approve"%string
         (terraform_cmd "plan" 2
            (Some [("experiment_id", "sweep-01")]%string) true).
Proof.
  split; [reflexivity|]. split.
  - apply (proj1 (auto_approve_only_for_apply_and_destroy
                    "destroy" 2 None true eq_refl)).
    split; [reflexivity | right; reflexivity].
  - intros C.
    apply (proj1 (auto_approve_only_for_apply_and_destroy "plan" 2
                    (Some [("experiment_id", "sweep-01")]%string) true
                    eq_refl)) in C.
    destruct C as [_ [C|C]]; discriminate.
Defined.

Lemma probe_of_ok (name : string) (data : Endpoint) (p : ProbeConfig) :
  probe_of data = Ok p <-> describes (name, data) p.
Proof.
  unfold probe_of, describes. destruct data as [r f ip id]. simpl.
  destruct p as [pr pf pip pid pport]. simpl.
  destruct r, f, ip, id; simpl; split;
    try (intros H; inversion H; subst; auto; fail);
    try (intros (H1 & H2 & H3 & H4 & H5); discriminate).
  intros (H1 & H2 & H3 & H4 & H5).
  inversion H1; inversion H2; inversion H3; inversion H4; subst.
  reflexivity.
Qed.

Lemma probe_of_missing (data : Endpoint) (k : string) :
  missing_field data = Some k -> probe_of data = Raise (KeyError k).
Proof.
  unfold missing_field, probe_of. destruct data as [r f ip id]. simpl.
  destruct r, f, ip, id; simpl; intros H; inversion H; reflexivity.
Qed.

Lemma parse_endpoints_ok endpoints : forall acc probes,
  parse_endpoints endpoints acc = Ok probes
  <-> exists ps, probes = acc ++ ps /\ Forall2 describes endpoints ps.
Proof.
  induction endpoints as [|[name data] rest IH]; intros acc probes; simpl.
  - split.
    + intros H. inversion H. exists []. rewrite app_nil_r.
      split; [reflexivity | constructor].
    + intros (ps & -> & F). inversion F. rewrite app_nil_r. reflexivity.
  - split.
    + destruct (probe_of data) as [p|e] eqn:E; simpl; [|discriminate].
      intros H. apply IH in H. destruct H as (ps & -> & F).
      exists (p :: ps). rewrite <- app_assoc. split; [reflexivity|].
      constructor; [apply probe_of_ok; exact E | exact F].
    + intros (ps & -> & F). inversion F as [|? p ? ps' D F']; subst.
      apply (probe_of_ok name) in D. rewrite D. simpl. apply IH.
      exists ps'. rewrite <- app_assoc. split; [reflexivity | exact F'].
Qed.

(** X16.  [parse_probe_endpoints] succeeds exactly with one probe for
    each endpoint of the output, in the order of the output, holding the
    endpoint's four fields and the port 9090; when the output or its value
    is missing the result is the empty list. *)
Theorem probes_mirror_the_endpoints (outputs : Outputs)
    (probes : list ProbeConfig) :
  (parse_probe_endpoints outputs = Ok probes
   <-> Forall2 describes (endpoints_of outputs) probes)
  /\ (probe_endpoints outputs = None \/ probe_endpoints outputs = Some None ->
      parse_probe_endpoints outputs = Ok []).
Proof.
  unfold parse_probe_endpoints. split.
  - rewrite parse_endpoints_ok. split.
    + intros (ps & -> & F). exact F.
    + intros F. exists probes. split; [reflexivity | exact F].
  - unfold endpoints_of. intros [->| ->]; reflexivity.
Qed.

Lemma parse_endpoints_missing pre name data post k : forall acc,
  Forall (fun e => missing_field (snd e) = None) pre ->
  missing_field data = Some k ->
  parse_endpoints (pre ++ (name, data) :: post) acc = Raise (KeyError k).
Proof.
  induction pre as [|[n0 d0] pre IH]; intros acc Hpre Hk; simpl.
  - rewrite (probe_of_missing data k Hk). reflexivity.
  - apply Forall_cons_iff in Hpre. destruct Hpre as [H0 Hpre]. simpl in H0.
    destruct (probe_of d0) as [p|e] eqn:E; simpl; [apply IH; assumption|].
    exfalso. unfold missing_field, probe_of in *. destruct d0 as [r f ip id].
    simpl in *. destruct r, f, ip, id; simpl in *; discriminate.
Qed.

(** X17.  An endpoint that lacks one of its four fields makes
    [parse_probe_endpoints] raise KeyError on the first missing one; no
    probe is returned, not even those of the complete endpoints before
    it. *)
Theorem incomplete_endpoint_raises_key_error (outputs : Outputs)
    (pre post : list (string * Endpoint)) (name : string) (data : Endpoint)
    (k : string) :
  endpoints_of outputs = pre ++ (name, data) :: post ->
  Forall (fun e => missing_field (snd e) = None) pre ->
  missing_field data = Some k ->
  parse_probe_endpoints outputs = Raise (KeyError k).
Proof.
  intros E Hpre Hk. unfold parse_probe_endpoints. rewrite E.
  apply parse_endpoints_missing; assumption.
Qed.

Lemma elapsed_lower (env : GateEnv) :
  (0 <= elapsed_at env 0)%Q ->
  (forall n, elapsed_at env n + 10 <= elapsed_at env (S n))%Q ->
  forall n, (inject_Z (10 * Z.of_nat n) <= elapsed_at env n)%Q.
Proof.
  intros H0 Hs. induction n as [|n IH].
  - exact H0.
  - rewrite Nat2Z.inj_succ.
    replace (10 * Z.succ (Z.of_nat n)) with (10 * Z.of_nat n + 10) by lia.
    rewrite inject_Z_plus. change (inject_Z 10) with 10%Q.
    specialize (Hs n). lra.
Qed.

(** X18.  When each [sleep(10)] lets at least ten seconds pass, the gate
    returns after at most timeout/10 (rounded up) sweeps and one more test
    of the clock; and with a timeout that is not positive it answers not
    ready without polling any probe. *)
Theorem gate_returns_within_the_timeout (env : GateEnv)
    (probes : list ProbeConfig) (timeout_sec : Z) (fuel : nat) :
  (0 <= elapsed_at env 0)%Q ->
  (forall n, elapsed_at env n + 10 <= elapsed_at env (S n))%Q ->
  (Z.to_nat ((timeout_sec + 9) / 10) < fuel)%nat ->
  (exists ready, wait_for_probes env probes timeout_sec fuel = Some ready)
  /\ (timeout_sec <= 0 ->
      wait_for_probes env probes timeout_sec fuel = Some false).
Proof.
  intros H0 Hs Hf. split.
  - set (N := Z.to_nat ((timeout_sec + 9) / 10)) in *.
    assert (Hmono : forall n, (elapsed_at env n <= elapsed_at env (S n))%Q).
    { intros n. specialize (Hs n). lra. }
    assert (Hend : (inject_Z timeout_sec <= elapsed_at env N)%Q).
    { eapply Qle_trans; [|apply elapsed_lower; assumption].
      rewrite <- Zle_Qle. unfold N.
      pose proof (Z.mul_succ_div_gt (timeout_sec + 9) 10 ltac:(lia)) as D.
      lia. }
    destruct (wait_loop_spec env Hmono probes timeout_sec N Hend fuel
                0%nat) as (ready & E & _); [lia | lia |].
    exists ready. exact E.
  - intros Ht. unfold wait_for_probes.
    destruct fuel as [|fuel]; [lia|]. simpl.
    assert (E : Qlt_bool (elapsed_at env 0) (inject_Z timeout_sec) = false).
    { apply Qlt_bool_false. eapply Qle_trans; [|exact H0].
      change 0%Q with (inject_Z 0). rewrite <- Zle_Qle. exact Ht. }
    rewrite E. reflexivity.
Qed.

Lemma gate_returns_within_the_timeout_witness :
  (0 <= elapsed_at Examples.no_content 0)%Q
  /\ (exists ready,
        wait_for_probes Examples.no_content [Examples.probe] 600 61
        = Some ready)
  /\ wait_for_probes Examples.no_content [Examples.probe] 0 1 = Some false.
Proof.
  assert (H0 : (0 <= elapsed_at Examples.no_content 0)%Q)
    by (vm_compute; discriminate).
  assert (Hs : forall n, (elapsed_at Examples.no_content n + 10
                          <= elapsed_at Examples.no_content (S n))%Q).
  { intros n. simpl. unfold Examples.every.
    change 10%Q with (inject_Z 10). rewrite <- inject_Z_plus.
    rewrite <- Zle_Qle. lia. }
  split; [exact H0|]. split.
  - apply (proj1 (gate_returns_within_the_timeout Examples.no_content
                    [Examples.probe] 600 61%nat H0 Hs ltac:(vm_compute; lia))).
  - apply (proj2 (gate_returns_within_the_timeout Examples.no_content
                    [Examples.probe] 0 1%nat H0 Hs ltac:(vm_compute; lia))).
    lia.
Defined.

Lemma now_lower (env : CollectEnv) (poll : Z) :
  (start_time env <= now env 0)%Q ->
  (forall n, now env n + inject_Z poll <= now env (S n))%Q ->
  forall n, (start_time env + inject_Z (poll * Z.of_nat n) <= now env n)%Q.
Proof.
  intros H0 Hs. induction n as [|n IH].
  - rewrite Z.mul_0_r. change (inject_Z 0) with 0%Q. lra.
  - rewrite Nat2Z.inj_succ, Z.mul_succ_r, inject_Z_plus.
    specialize (Hs n). lra.
Qed.

(** X19.  With a warm-up and a poll interval that [time.sleep] accepts, a
    measurement duration that has a float and probes whose answers the
    summary can print, when each [sleep(poll_interval_sec)] lets at least
    that many seconds pass and the interval is positive, the collection
    returns the path of the log after at most measurement/interval
    (rounded up) rounds, and counts at most one record for each probe and
    round. *)
Theorem collection_returns_within_the_measurement (env : CollectEnv)
    (config : SweepConfig) (probes : list ProbeConfig)
    (earlier : list MetricRecord) (fuel : nat) :
  timed env config ->
  readable env probes 0
    (Z.to_nat ((measurement_sec config + poll_interval_sec config - 1)
               / poll_interval_sec config)) ->
  (start_time env <= now env 0)%Q ->
  0 < poll_interval_sec config ->
  (forall n, now env n + inject_Z (poll_interval_sec config)
             <= now env (S n))%Q ->
  (Z.to_nat ((measurement_sec config + poll_interval_sec config - 1)
             / poll_interval_sec config) < fuel)%nat ->
  exists c,
    run_collection env config probes earlier fuel = Some c
    /\ ended c = Returns (results_file env config)
    /\ (rounds c
        <= Z.to_nat ((measurement_sec config + poll_interval_sec config - 1)
                     / poll_interval_sec config))%nat
    /\ 0 <= total_records c
       <= Z.of_nat (rounds c) * Z.of_nat (length probes).
Proof.
  intros (Hw & Hpl & Hm) Hread H0 Hp Hs Hf.
  apply sleeps_sleep in Hw, Hpl.
  set (poll := poll_interval_sec config) in *.
  set (N := Z.to_nat ((measurement_sec config + poll - 1) / poll)) in *.
  assert (Hend : (start_time env + inject_Z (measurement_sec config)
                  <= now env N)%Q).
  { eapply Qle_trans; [|apply (now_lower env poll); assumption].
    apply Qplus_le_r. rewrite <- Zle_Qle. unfold N.
    pose proof (Z.mul_succ_div_gt (measurement_sec config + poll - 1) poll
                  Hp) as D.
    rewrite Z.mul_succ_r in D.
    set (q := (measurement_sec config + poll - 1) / poll) in *.
    assert (M : poll * q <= poll * Z.of_nat (Z.to_nat q))
      by (apply Z.mul_le_mono_nonneg_l; lia).
    lia. }
  destruct (collect_loop_spec env probes _ poll N Hend Hpl Hread fuel 0%nat
              ([], 0))
    as (st & n & w & E & B & _ & _ & C & L); [lia | lia |].
  unfold run_collection. rewrite Hw, (has_float_of_int _ Hm).
  cbv zeta. fold poll. rewrite E. eexists. split; [reflexivity|].
  simpl in *. split; [reflexivity|]. split; [lia|].
  rewrite Nat.sub_0_r in L. rewrite C. nia.
Qed.

Lemma collection_returns_within_the_measurement_witness :
  timed Examples.busy Examples.two_minutes
  /\ readable Examples.busy [Examples.probe] 0 2
  /\ (start_time Examples.busy <= now Examples.busy 0)%Q
  /\ 0 < poll_interval_sec Examples.two_minutes
  /\ exists c,
       run_collection Examples.busy Examples.two_minutes [Examples.probe]
         [] 3 = Some c
       /\ ended c = Returns "results/sweep-01_results.jsonl"%string
       /\ (rounds c <= 2)%nat
       /\ 0 <= total_records c <= Z.of_nat (rounds c) * 1.
Proof.
  assert (T : timed Examples.busy Examples.two_minutes)
    by (unfold timed, sleeps, has_float; simpl; lia).
  assert (D : readable Examples.busy [Examples.probe] 0 2)
    by (intros n p m _ _ Hm; inversion Hm; reflexivity).
  assert (H0 : (start_time Examples.busy <= now Examples.busy 0)%Q)
    by (vm_compute; discriminate).
  assert (Hp : 0 < poll_interval_sec Examples.two_minutes)
    by (vm_compute; reflexivity).
  assert (Hs : forall n, (now Examples.busy n
                          + inject_Z (poll_interval_sec Examples.two_minutes)
                          <= now Examples.busy (S n))%Q).
  { intros n. simpl. unfold Examples.every.
    rewrite <- inject_Z_plus, <- Zle_Qle. lia. }
  split; [exact T|]. split; [exact D|]. split; [exact H0|].
  split; [exact Hp|].
  exact (collection_returns_within_the_measurement Examples.busy
           Examples.two_minutes [Examples.probe] [] 3%nat T D H0 Hp Hs
           ltac:(vm_compute; lia)).
Defined.

Lemma collect_loop_written (env : CollectEnv) (probes : list ProbeConfig)
    (endt : Q) (poll : Z) : forall fuel n st st' n' exn,
  collect_loop env probes endt poll fuel n st = Some (st', n', exn) ->
  (n <= n')%nat
  /\ exists w, fst st' = fst st ++ w
               /\ Forall (written_in env probes n n') w.
Proof.
  induction fuel as [|fuel IH]; intros n st st' n' exn H;
    [discriminate|].
  rewrite collect_loop_step in H.
  destruct (collect_round_spec env n probes st)
    as (w0 & A0 & _ & _ & W0 & _).
  destruct (Qlt_bool (now env n) endt).
  - destruct (collect_round env n probes st) as [st1 [e|]]; simpl in A0.
    + inversion H; subst. split; [lia|]. exists w0.
      split; [exact A0 | exact W0].
    + destruct (sleep env poll) as [e|].
      * inversion H; subst. split; [lia|]. exists w0.
        split; [exact A0 | exact W0].
      * apply IH in H. destruct H as (L & w & A & W).
        split; [lia|]. rewrite A0 in A.
        exists (w0 ++ w). split; [rewrite A, app_assoc; reflexivity|].
        apply Forall_app. split.
        -- eapply Forall_impl; [|exact W0].
           intros r. apply written_in_wider; lia.
        -- eapply Forall_impl; [|exact W].
           intros r. apply written_in_wider; lia.
  - inversion H; subst. split; [lia|]. exists [].
    rewrite app_nil_r. split; [reflexivity | constructor].
Qed.

(** X20.  However a collection ends, it leaves the earlier content of the
    log in place and appends after it only records of this kind: for a
    probe of the list and a round of the run, the value that probe's
    fetch returned in that round, which is true in [if metrics:], stamped
    with the probe's identity and the whole seconds elapsed at the start
    of the round.  A failed fetch, an object without entries or another
    value that is false there leaves no record. *)
Theorem log_holds_only_fetched_records (env : CollectEnv)
    (config : SweepConfig) (probes : list ProbeConfig)
    (earlier : list MetricRecord) (fuel : nat) (c : Collection) :
  run_collection env config probes earlier fuel = Some c ->
  exists written,
    log_file c = earlier ++ written
    /\ Forall (written_in env probes 0 (rounds c)) written.
Proof.
  unfold run_collection. intros H.
  assert (Stop : forall e,
            Some {| ended := Raises e; log_file := earlier;
                    total_records := 0; rounds := 0 |} = Some c ->
            exists written,
              log_file c = earlier ++ written
              /\ Forall (written_in env probes 0 (rounds c)) written).
  { intros e E. inversion E; subst c. simpl. exists [].
    rewrite app_nil_r. split; [reflexivity | constructor]. }
  destruct (sleep env (warmup_sec config)) as [e|]; [eapply Stop; exact H|].
  destruct (float_of_int (measurement_sec config)) as [d|];
    [|eapply Stop; exact H].
  cbv zeta in H.
  destruct (collect_loop env probes (start_time env + d)
              (poll_interval_sec config) fuel 0%nat ([], 0))
    as [[[st n] exn]|] eqn:E; [|discriminate].
  inversion H; subst c. simpl.
  destruct (collect_loop_written _ _ _ _ _ _ _ _ _ _ E) as (_ & w & A & W).
  exists w. simpl in A. rewrite A. auto.
Qed.

Lemma log_holds_only_fetched_records_witness :
  exists c,
    run_collection Examples.terse Examples.two_minutes [Examples.probe]
      [] 3 = Some c
    /\ log_file c
       = [record_for Examples.terse 0 Examples.probe Examples.uptime_only;
          record_for Examples.terse 1 Examples.probe Examples.uptime_only]
    /\ Forall (written_in Examples.terse [Examples.probe] 0 (rounds c))
         (log_file c).
Proof.
  assert (E : exists c,
            run_collection Examples.terse Examples.two_minutes
              [Examples.probe] [] 3 = Some c
            /\ log_file c
               = [record_for Examples.terse 0 Examples.probe
                    Examples.uptime_only;
                  record_for Examples.terse 1 Examples.probe
                    Examples.uptime_only]).
  { eexists. split; vm_compute; reflexivity. }
  destruct E as (c & E & L). exists c. split; [exact E|]. split; [exact L|].
  destruct (log_holds_only_fetched_records _ _ _ _ _ _ E) as (w & A & W).
  simpl in A. rewrite A. exact W.
Defined.

(** X22.  A negative sleep length ends the collection with ValueError.
    A negative warm-up does so before the log is touched and before any
    probe is asked.  A negative poll interval, after a warm-up that is
    accepted and when the measurement has not ended at the first reading
    of the clock, does so at the end of the first round, if the summary
    can print that round's answers: the records of that round are in the
    log, and no second round is run. *)
Theorem negative_sleep_length_ends_the_collection (env : CollectEnv)
    (config : SweepConfig) (probes : list ProbeConfig)
    (earlier : list MetricRecord) (fuel : nat) :
  (warmup_sec config < 0 ->
   run_collection env config probes earlier fuel
   = Some {| ended := Raises ValueError; log_file := earlier;
             total_records := 0; rounds := 0 |})
  /\ (sleeps env (warmup_sec config) ->
      has_float (measurement_sec config) ->
      poll_interval_sec config < 0 ->
      (now env 0 < end_time env config)%Q ->
      readable env probes 0 1 ->
      (0 < fuel)%nat ->
      run_collection env config probes earlier fuel
      = Some {| ended := Raises ValueError;
                log_file :=
                  earlier ++ fst (fst (collect_round env 0 probes ([], 0)));
                total_records :=
                  snd (fst (collect_round env 0 probes ([], 0)));
                rounds := 1 |}).
Proof.
  unfold run_collection. split.
  - intros Hw. unfold sleep. apply Z.ltb_lt in Hw. rewrite Hw. reflexivity.
  - intros Hw Hm Hp Hnow Hread Hfuel. apply sleeps_sleep in Hw.
    rewrite Hw, (has_float_of_int _ Hm). cbv zeta.
    destruct fuel as [|fuel]; [lia|]. rewrite collect_loop_step.
    unfold end_time in Hnow. apply Qlt_bool_iff in Hnow. rewrite Hnow.
    destruct (collect_round_spec env 0 probes ([], 0))
      as (_ & _ & _ & _ & _ & R).
    assert (R1 : snd (collect_round env 0 probes ([], 0)) = None)
      by (apply R; intros p m Hi Hf; apply (Hread 0%nat p m);
          [lia | exact Hi | exact Hf]).
    destruct (collect_round env 0 probes ([], 0)) as [st1 r1].
    simpl in R1. subst r1.
    unfold sleep. apply Z.ltb_lt in Hp. rewrite Hp. reflexivity.
Qed.

Lemma negative_sleep_length_ends_the_collection_witness :
  warmup_sec Examples.negative_warmup < 0
  /\ run_collection Examples.busy Examples.negative_warmup [Examples.probe]
       [] 3
     = Some {| ended := Raises ValueError; log_file := [];
               total_records := 0; rounds := 0 |}.
Proof.
  assert (H : warmup_sec Examples.negative_warmup < 0)
    by (vm_compute; reflexivity).
  split; [exact H|].
  exact (proj1 (negative_sleep_length_ends_the_collection Examples.busy
                  Examples.negative_warmup [Examples.probe] [] 3%nat) H).
Defined.




Lemma incomplete_endpoint_raises_key_error_witness :
  endpoints_of Examples.pending_outputs
  = [("west", Examples.endpoint "eu-west-1" (Some "10.0.0.1"))]%string
    ++ ("north", Examples.endpoint "eu-north-1" None)%string :: []
  /\ parse_probe_endpoints Examples.pending_outputs
     = Raise (KeyError "public_ip").
Proof.
  split; [reflexivity|].
  apply (incomplete_endpoint_raises_key_error Examples.pending_outputs
           [("west", Examples.endpoint "eu-west-1" (Some "10.0.0.1"))]%string
           [] "north" (Examples.endpoint "eu-north-1" None) "public_ip").
  - reflexivity.
  - apply Forall_cons; [reflexivity | apply Forall_nil].
  - reflexivity.
Defined.

Lemma and_then_inv {A B : Type} (m : Prog A) (k : A -> Prog B) t r :
  m >>= k = Some (t, r) ->
  exists t1 o1,
    m = Some (t1, o1)
    /\ ((exists e, o1 = Raises e /\ t = t1 /\ r = Raises e)
        \/ (exists a t2,
              o1 = Returns a /\ k a = Some (t2, r) /\ t = t1 ++ t2)).
Proof.
  unfold and_then. destruct m as [[t1 [a|e]]|]; [| |discriminate].
  - destruct (k a) as [[t2 r2]|] eqn:E; [|discriminate].
    intros H. inversion H; subst. eexists. eexists.
    split; [reflexivity|]. right. exists a, t2.
    split; [reflexivity|]. split; [exact E | reflexivity].
  - intros H. inversion H; subst. eexists. eexists.
    split; [reflexivity|]. left. eexists.
    split; [reflexivity|]. split; reflexivity.
Qed.

(** Destructs the innermost test [H] still branches on. *)
Ltac step_in H :=
  repeat match type of H with
         | context [match ?x with _ => _ end] =>
             lazymatch x with
             | context [match _ with _ => _ end] => fail
             | _ => destruct x eqn:?; simpl in H
             end
         end.

Ltac split_in H :=
  simpl in H;
  repeat match type of H with
         | _ \/ _ => destruct H as [H|H]; try discriminate
         | False => contradiction
         end.

Lemma deploy_block_events args w id t o :
  deploy_block args w id = Some (t, o) ->
  forall ev, In ev t ->
    exists cmd, ev = Subprocess cmd /\ action_of cmd <> "destroy"%string.
Proof.
  unfold deploy_block, and_then, terraform, ret, run_terraform,
    subprocess_run.
  intros H. simpl in H. step_in H; inversion H; subst; clear H;
    intros ev Hin; split_in Hin;
    try (subst ev; eexists;
         (split; [reflexivity | unfold action_of; simpl; discriminate])).
Qed.

Lemma collect_block_events args w id fuel t o :
  collect_block args w id fuel = Some (t, o) ->
  (forall config probes c,
     In (Collected config probes c) t ->
     probes <> [] /\ In (HealthGate probes true) t)
  /\ (forall probes,
        In (HealthGate probes false) t ->
        o = Raises (Python (SystemExit 1))
        /\ forall config ps c, ~ In (Collected config ps c) t)
  /\ (forall cmd, In (Subprocess cmd) t ->
      action_of cmd <> "destroy"%string)
  /\ ((exists probes, In (HealthGate probes false) t) ->
      exists e, o = Raises e).
Proof.
  unfold collect_block, and_then, get_terraform_outputs, of_result, gate,
    collection, ret, raise, subprocess_run.
  intros H. simpl in H. step_in H; inversion H; subst; clear H;
    (split;
     [ intros config probes c' Hin; split_in Hin;
       try (inversion Hin; subst;
            split; [apply nonempty_true_list;
                    match goal with
                    | E : negb (Analyze.nonempty _) = false |- _ =>
                        apply negb_false_iff in E; exact E
                    end
                   | match goal with
                     | E : negb ?b = false |- _ =>
                         apply negb_false_iff in E; subst b
                     end; simpl; auto ])
     | split;
       [ intros probes Hin; split_in Hin;
         try (inversion Hin; subst;
              first [ match goal with
                      | E : negb false = false |- _ => discriminate E
                      end
                    | split; [reflexivity|];
                      intros config ps c' Hc; split_in Hc ])
       | split;
         [ intros cmd Hin; split_in Hin;
           try (inversion Hin; subst; unfold action_of; simpl; discriminate)
         | intros (probes & Hin); split_in Hin;
           try (inversion Hin; subst;
                first [ match goal with
                        | E : negb false = false |- _ => discriminate E
                        end
                      | eexists; reflexivity ]) ] ] ]).
Qed.

(** In the collect block the gate's answer stands before the
    collection. *)
Lemma collect_block_order args w id fuel t o :
  collect_block args w id fuel = Some (t, o) ->
  forall config probes c,
    In (Collected config probes c) t ->
    before (HealthGate probes true) (Collected config probes c) t.
Proof.
  unfold collect_block, and_then, get_terraform_outputs, of_result, gate,
    collection, ret, raise, subprocess_run.
  intros H. simpl in H. step_in H; inversion H; subst; clear H;
    intros config probes c' Hin; split_in Hin;
    try (inversion Hin; subst;
         match goal with
         | E : negb ?b = false |- _ => apply negb_false_iff in E; subst b
         end;
         exists [Subprocess ["terraform"; "output"; "-json"]%string], [], [];
         reflexivity).
Qed.

Lemma before_app {A : Type} (a b : A) (pre l post : list A) :
  before a b l -> before a b (pre ++ l ++ post).
Proof.
  intros (l1 & l2 & l3 & ->). exists (pre ++ l1), l2, (l3 ++ post).
  rewrite <- !app_assoc. simpl. rewrite <- app_assoc. reflexivity.
Qed.

Lemma destroy_block_events args w t o :
  destroy_block args w = Some (t, o) ->
  forall ev, In ev t -> exists cmd, ev = Subprocess cmd.
Proof.
  unfold destroy_block, and_then, terraform, ret, run_terraform,
    subprocess_run.
  intros H. simpl in H. step_in H; inversion H; subst; clear H;
    intros ev Hin; split_in Hin; try (subst ev; eexists; reflexivity).
Qed.

(** X21.  In a run of [main], every collection has a non-empty probe
    list and stands in the run after the answer "ready" of the health gate
    for that list; and when the gate answers not ready the run ends with
    exit status 1 without collecting and without running
    [terraform destroy], even when [--destroy] was given. *)
Theorem collection_only_behind_a_ready_gate (args : Args) (w : World)
    (fuel : nat) (events : list Event) (r : Outcome unit) :
  main args w fuel = Some (events, r) ->
  (forall config probes c,
     In (Collected config probes c) events ->
     probes <> []
     /\ before (HealthGate probes true) (Collected config probes c) events)
  /\ (forall probes,
        In (HealthGate probes false) events ->
        r = Raises (Python (SystemExit 1))
        /\ (forall cmd, In (Subprocess cmd) events ->
            action_of cmd <> "destroy"%string)
        /\ forall config ps c, ~ In (Collected config ps c) events).
Proof.
  unfold main. intros H.
  destruct (negb (deploy args || collect args || destroy args)).
  { unfold and_then, emit, raise in H. simpl in H. inversion H; subst.
    split.
    - intros config probes c Hin. split_in Hin.
    - intros probes Hin. split_in Hin. }
  cbv zeta in H.
  set (id := dict_get (truthy_str (args_experiment_id args))
               ("latency-sweep-" ++ utc_minute w)%string) in H.
  apply and_then_inv in H.
  destruct H as (t1 & o1 & HD & [(e & -> & -> & ->)
                                |(a & t2 & -> & H & ->)]).
  { pose proof (deploy_block_events _ _ _ _ _ HD) as D. split.
    - intros config probes c Hin.
      destruct (D _ Hin) as (cmd & C & _). discriminate.
    - intros probes Hin. destruct (D _ Hin) as (cmd & C & _). discriminate. }
  pose proof (deploy_block_events _ _ _ _ _ HD) as D.
  apply and_then_inv in H.
  destruct H as (t3 & o3 & HC & [(e & -> & -> & ->)
                                |(b & t4 & -> & HX & ->)]).
  - destruct (collect_block_events _ _ _ _ _ _ HC) as (C1 & C2 & C3 & _).
    pose proof (collect_block_order _ _ _ _ _ _ HC) as O.
    split.
    + intros config probes c Hin. apply in_app_or in Hin.
      destruct Hin as [Hin|Hin];
        [destruct (D _ Hin) as (cmd & C & _); discriminate|].
      destruct (C1 _ _ _ Hin) as [N _]. split; [exact N|].
      pose proof (before_app _ _ t1 t3 [] (O _ _ _ Hin)) as B.
      rewrite app_nil_r in B. exact B.
    + intros probes Hin. apply in_app_or in Hin.
      destruct Hin as [Hin|Hin];
        [destruct (D _ Hin) as (cmd & C & _); discriminate|].
      destruct (C2 _ Hin) as [R N]. split; [exact R|]. split.
      * intros cmd Hc. apply in_app_or in Hc. destruct Hc as [Hc|Hc].
        -- destruct (D _ Hc) as (cmd' & C & A). inversion C; subst.
           exact A.
        -- apply C3. exact Hc.
      * intros config ps c Hc. apply in_app_or in Hc.
        destruct Hc as [Hc|Hc];
          [destruct (D _ Hc) as (cmd & C & _); discriminate|].
        exact (N _ _ _ Hc).
  - destruct (collect_block_events _ _ _ _ _ _ HC) as (C1 & C2 & C3 & C4).
    pose proof (collect_block_order _ _ _ _ _ _ HC) as O.
    pose proof (destroy_block_events _ _ _ _ HX) as X.
    split.
    + intros config probes c Hin. apply in_app_or in Hin.
      destruct Hin as [Hin|Hin];
        [destruct (D _ Hin) as (cmd & C & _); discriminate|].
      apply in_app_or in Hin.
      destruct Hin as [Hin|Hin];
        [|destruct (X _ Hin) as (cmd & C); discriminate].
      destruct (C1 _ _ _ Hin) as [N _]. split; [exact N|].
      exact (before_app _ _ t1 t3 t4 (O _ _ _ Hin)).
    + intros probes Hin. exfalso. apply in_app_or in Hin.
      destruct Hin as [Hin|Hin];
        [destruct (D _ Hin) as (cmd & C & _); discriminate|].
      apply in_app_or in Hin.
      destruct Hin as [Hin|Hin];
        [|destruct (X _ Hin) as (cmd & C); discriminate].
      destruct C4 as (e & C4); [eauto | discriminate].
Qed.

Lemma collection_only_behind_a_ready_gate_witness :
  (exists c,
     main Examples.collect_and_destroy Examples.ready_world 3
     = Some ([Subprocess ["terraform"; "output"; "-json"]%string;
              HealthGate [Examples.probe_at "eu-west-1" "10.0.0.1"] true;
              Collected Examples.two_minutes
                [Examples.probe_at "eu-west-1" "10.0.0.1"] c;
              Subprocess ["terraform"; "destroy"; "-var=phase=1";
                          "-auto-approve"]%string],
             Returns tt)
     /\ before (HealthGate [Examples.probe_at "eu-west-1" "10.0.0.1"] true)
          (Collected Examples.two_minutes
             [Examples.probe_at "eu-west-1" "10.0.0.1"] c)
          [Subprocess ["terraform"; "output"; "-json"]%string;
           HealthGate [Examples.probe_at "eu-west-1" "10.0.0.1"] true;
           Collected Examples.two_minutes
             [Examples.probe_at "eu-west-1" "10.0.0.1"] c;
           Subprocess ["terraform"; "destroy"; "-var=phase=1";
                       "-auto-approve"]%string])
  /\ main Examples.collect_and_destroy Examples.stuck_world 61
     = Some ([Subprocess ["terraform"; "output"; "-json"]%string;
              HealthGate [Examples.probe_at "eu-west-1" "10.0.0.1"] false],
             Raises (Python (SystemExit 1)))
  /\ forall cmd,
       In (Subprocess cmd)
         [Subprocess ["terraform"; "output"; "-json"]%string;
          HealthGate [Examples.probe_at "eu-west-1" "10.0.0.1"] false] ->
       action_of cmd <> "destroy"%string.
Proof.
  assert (H : main Examples.collect_and_destroy Examples.stuck_world 61
              = Some ([Subprocess ["terraform"; "output"; "-json"]%string;
                       HealthGate
                         [Examples.probe_at "eu-west-1" "10.0.0.1"] false],
                      Raises (Python (SystemExit 1))))
    by (vm_compute; reflexivity).
  assert (R : exists c,
            main Examples.collect_and_destroy Examples.ready_world 3
            = Some ([Subprocess ["terraform"; "output"; "-json"]%string;
                     HealthGate
                       [Examples.probe_at "eu-west-1" "10.0.0.1"] true;
                     Collected Examples.two_minutes
                       [Examples.probe_at "eu-west-1" "10.0.0.1"] c;
                     Subprocess ["terraform"; "destroy"; "-var=phase=1";
                                 "-auto-approve"]%string],
                    Returns tt))
    by (eexists; vm_compute; reflexivity).
  split; [|split; [exact H|]].
  - destruct R as (c & R). exists c. split; [exact R|].
    destruct (collection_only_behind_a_ready_gate _ _ _ _ _ R) as [G _].
    apply (G Examples.two_minutes
             [Examples.probe_at "eu-west-1" "10.0.0.1"] c).
    right; right; left; reflexivity.
  - destruct (collection_only_behind_a_ready_gate _ _ _ _ _ H) as [_ G].
    destruct (G [Examples.probe_at "eu-west-1" "10.0.0.1"]) as (_ & A & _);
      [right; left; reflexivity | exact A].
Defined.

End OrchestratorFacts.
